(** * RSS feed field analyzer: a shallow embedding of
      src/data/RSSFieldAnalyzer.ts and the properties its specification states.

    Conventions of the embedding.
    - A JavaScript number that only ever holds a count or a length is an
      integer of [Z].  The sample size, which the caller supplies and nothing
      validates, is any number ([JsNumber]): fractional, infinite or NaN.  A
      reliability percentage is an exact rational of [Q], compared with
      [==].  The running average of analyzeFieldPattern, where rounding
      decides what holds, is a binary64 number ([float]) computed with the
      operations of IEEE 754, as JavaScript computes it.
    - A plain JavaScript object used as a dictionary is an association list
      in insertion order ([Obj.t]): the source enumerates such objects with
      Object.keys and Object.entries, which visit the keys in the order they
      were first written.  A JavaScript Set of strings is a duplicate-free
      list in insertion order.
    - An exception is the left injection of a sum; the one observable side
      effect, the HTTP request, is logged in a trace.
    - Everything the source takes from its host (selector engine, regular
      expressions, date parser, the string methods trim and toLowerCase,
      parseInt, HTTP client, XML parser, clock) is a field of the class
      [Host]. *)

From Stdlib Require Import List String Ascii Bool ZArith QArith Lia Lqa.
From Stdlib Require Import Qfield Qround Permutation DecimalString Floats.
Import ListNotations.

Set Implicit Arguments.
Set Warnings "-register-all".
Local Open Scope list_scope.
Local Open Scope string_scope.

(** ** JavaScript strings *)

Module Js.

(** The double quote character, for the one selector that contains it. *)
Definition dquote : string := String "034"%char EmptyString.

(** Trimming and lower-casing of ASCII text, for the demonstration host:
    the analyzer itself takes both methods from its host.  White space as
    String.prototype.trim sees it, on the ASCII range. *)
Definition isWhite (c : ascii) : bool :=
  let n := nat_of_ascii c in
  ((9 <=? n) && (n <=? 13))%nat || (n =? 32)%nat.

Fixpoint trimStart (s : string) : string :=
  match s with
  | EmptyString => EmptyString
  | String c r => if isWhite c then trimStart r else s
  end.

Fixpoint trimEnd (s : string) : string :=
  match s with
  | EmptyString => EmptyString
  | String c r =>
      match trimEnd r with
      | EmptyString => if isWhite c then EmptyString else String c EmptyString
      | r' => String c r'
      end
  end.

Definition trim (s : string) : string := trimEnd (trimStart s).

Definition lowerChar (c : ascii) : ascii :=
  let n := nat_of_ascii c in
  if ((65 <=? n) && (n <=? 90))%nat then ascii_of_nat (n + 32) else c.

Fixpoint toLowerCase (s : string) : string :=
  match s with
  | EmptyString => EmptyString
  | String c r => String (lowerChar c) (toLowerCase r)
  end.

Definition startsWith (p s : string) : bool := String.prefix p s.

Fixpoint includes (sub s : string) : bool :=
  String.prefix sub s ||
  match s with
  | EmptyString => false
  | String _ r => includes sub r
  end.

Fixpoint drop (n : nat) (s : string) : string :=
  match n, s with
  | O, _ => s
  | S _, EmptyString => EmptyString
  | S m, String _ r => drop m r
  end.

(** [s.replace(pat, by)] with a string pattern: the first occurrence only. *)
Fixpoint replace (pat by_ s : string) : string :=
  if String.prefix pat s then by_ ++ drop (String.length pat) s
  else match s with
       | EmptyString => EmptyString
       | String c r => String c (replace pat by_ r)
       end.

(** [s.split(sep)[0]] for a one-character separator. *)
Fixpoint beforeFirst (sep : ascii) (s : string) : string :=
  match s with
  | EmptyString => EmptyString
  | String c r => if Ascii.eqb c sep then EmptyString else String c (beforeFirst sep r)
  end.

(** A string in a boolean position. *)
Definition truthyStr (s : string) : bool := negb (String.eqb s "").

(** [a || b] on strings. *)
Definition orStr (a b : string) : string := if truthyStr a then a else b.

(** Template interpolation of an integer. *)
Definition showZ (z : Z) : string := NilZero.string_of_int (Z.to_int z).

(** [parseInt] on a string of decimal digits, for the demonstration host;
    [None] stands for NaN. *)
Fixpoint digits (acc : Z) (seen : bool) (s : string) : option Z :=
  match s with
  | EmptyString => if seen then Some acc else None
  | String c r =>
      let n := nat_of_ascii c in
      if ((48 <=? n) && (n <=? 57))%nat
      then digits (10 * acc + Z.of_nat (n - 48)) true r
      else if seen then Some acc else None
  end.
Definition parseInt (s : string) : option Z := digits 0 false s.

End Js.

(** ** Plain objects and string sets, in insertion order *)

Module Obj.

Definition t (V : Type) : Type := list (string * V).

Definition empty {V : Type} : t V := [].

(** [o[k]]; [None] is undefined. *)
Fixpoint get {V : Type} (k : string) (o : t V) : option V :=
  match o with
  | [] => None
  | (k', v) :: r => if String.eqb k k' then Some v else get k r
  end.

(** [o[k] = v]: an existing key keeps its place, a new one goes last. *)
Fixpoint set {V : Type} (k : string) (v : V) (o : t V) : t V :=
  match o with
  | [] => [(k, v)]
  | (k', v') :: r =>
      if String.eqb k k' then (k, v) :: r else (k', v') :: set k v r
  end.

Definition keys {V : Type} (o : t V) : list string := map fst o.

Definition has {V : Type} (k : string) (o : t V) : bool :=
  match get k o with Some _ => true | None => false end.

(** The properties a plain object inherits from Object.prototype under a
    name without capital letters; reading either yields an object. *)
Definition inherited (k : string) : bool :=
  String.eqb k "constructor" || String.eqb k "__proto__".

(** [o[k] = v] for a string [v] under a key taken from the input: the
    inherited setter of __proto__ ignores a value that is not an object. *)
Definition assign (k : string) (v : string) (o : t string) : t string :=
  if String.eqb k "__proto__" then o else set k v o.

End Obj.

Module StrSet.

Definition t : Type := list string.

Definition mem (x : string) (s : t) : bool := existsb (String.eqb x) s.

Definition add (x : string) (s : t) : t := if mem x s then s else (s ++ [x])%list.

End StrSet.

(** ** Numbers in comparisons: an undefined operand makes them false *)

Definition Qgtb (a b : Q) : bool := negb (Qle_bool a b).
Definition Qlessb (a b : Q) : bool := negb (Qle_bool b a).

Definition optGe (x : option Q) (t : Q) : bool :=
  match x with Some r => Qle_bool t r | None => false end.
Definition optGt (x : option Q) (t : Q) : bool :=
  match x with Some r => Qgtb r t | None => false end.
Definition optLt (x : option Q) (t : Q) : bool :=
  match x with Some r => Qlessb r t | None => false end.

(** [!x] for a possibly undefined number: undefined and zero are falsy. *)
Definition optFalsy (x : option Q) : bool :=
  match x with Some r => Qeq_bool r 0 | None => true end.

(** [x || 0]. *)
Definition optOrZero (x : option Q) : Q :=
  match x with Some r => r | None => 0%Q end.

(** ** Numbers the caller supplies

    sample_size is declared as a number and nothing validates it, so it can
    be fractional, infinite or NaN.  A finite number is given by its exact
    value. *)
Inductive JsNumber : Type :=
| Finite (value : Q)
| PosInfinity
| NegInfinity
| NaN.

Coercion Finite : Q >-> JsNumber.

(** [Math.min(x, n)] for a count [n]. *)
Definition mathMin (x : JsNumber) (n : Z) : JsNumber :=
  match x with
  | Finite q => if Qle_bool q (inject_Z n) then Finite q else Finite (inject_Z n)
  | PosInfinity => Finite (inject_Z n)
  | NegInfinity => NegInfinity
  | NaN => NaN
  end.

(** [i < x] for a loop index [i]. *)
Definition below (i : Z) (x : JsNumber) : bool :=
  match x with
  | Finite q => Qlessb (inject_Z i) q
  | PosInfinity => true
  | NegInfinity => false
  | NaN => false
  end.

(** [n / x] for a positive count [n].  A count divided by an infinity is
    zero.  Dividing by zero or by NaN gives no finite number, and is written
    as zero here: the analyzer divides only for the fields its loop has
    found, and the loop runs only below a finite positive bound. *)
Definition dividedBy (n : Z) (x : JsNumber) : Q :=
  match x with
  | Finite q => (inject_Z n / q)%Q
  | PosInfinity => 0%Q
  | NegInfinity => 0%Q
  | NaN => 0%Q
  end.

(** ** The document tree the host's XML parser returns *)

Inductive Node : Type :=
| Element (tagName : string) (attributes : list (string * string)) (childNodes : list Node)
| Text (data : string).

Record Document : Type := {
  documentElement : option Node;
  characterSet : option string
}.

Module Dom.

Definition tagName (n : Node) : string :=
  match n with Element t _ _ => t | Text _ => "" end.

Definition attributes (n : Node) : list (string * string) :=
  match n with Element _ a _ => a | Text _ => [] end.

Definition isElement (n : Node) : bool :=
  match n with Element _ _ _ => true | Text _ => false end.

(** [el.children]: the child nodes that are elements. *)
Definition children (n : Node) : list Node :=
  match n with Element _ _ cs => filter isElement cs | Text _ => [] end.

(** [el.getAttribute(name)]; [None] is null. *)
Definition getAttribute (name : string) (n : Node) : option string :=
  Obj.get name (attributes n).

(** [el.textContent]: the text of all descendants, in document order. *)
Fixpoint textContent (n : Node) : string :=
  match n with
  | Text d => d
  | Element _ _ cs => fold_right (fun c acc => textContent c ++ acc) "" cs
  end.

(** The elements of a subtree in document order, its root first. *)
Fixpoint subtree (n : Node) : list Node :=
  match n with
  | Text _ => []
  | Element _ _ cs => n :: flat_map subtree cs
  end.

(** The element descendants of a node, itself excluded. *)
Definition descendants (n : Node) : list Node :=
  match n with
  | Text _ => []
  | Element _ _ cs => flat_map subtree cs
  end.

(** Every element of a document. *)
Definition elements (doc : Document) : list Node :=
  match documentElement doc with Some r => subtree r | None => [] end.

End Dom.

(** ** What the source takes from its host *)

(** The regular expression literals of the source:
    - [ReImg]: an img tag with a quoted src attribute, global and
      case-insensitive, one capture group (the src value);
    - [ReAlt], [ReWidth], [ReHeight]: a quoted alt, width, height attribute
      inside a tag, one capture group each;
    - [ReHtmlTag]: a less-than sign, one or more characters that are not a
      greater-than sign, a greater-than sign;
    - [ReHttpUrl]: http or https, a colon, two slashes, one or more
      characters that are not white space. *)
Inductive Regex : Type := ReImg | ReAlt | ReWidth | ReHeight | ReHtmlTag | ReHttpUrl.

Record Request : Type := {
  method : string;
  url : string;
  headers : list (string * string);
  timeout : Z
}.

Record Response : Type := {
  response_success : bool;
  response_status : option Z;
  response_body : string
}.

Class Host : Type := {
  (** the selector engine: does the element match the selector list *)
  matches : string -> Node -> bool;
  (** RegExp.prototype.test *)
  regexp_test : Regex -> string -> bool;
  (** String.prototype.match with a non-global expression: the match and its groups *)
  regexp_match : Regex -> string -> option (list string);
  (** the successive results of RegExp.prototype.exec with a global expression *)
  regexp_exec_all : Regex -> string -> list (list string);
  (** whether the Date constructor parses the string to a valid date *)
  date_parses : string -> bool;
  (** String.prototype.trim and String.prototype.toLowerCase *)
  string_trim : string -> string;
  string_toLowerCase : string -> string;
  (** parseInt, whose result is a binary64 number *)
  parse_int : string -> float;
  (** the HTTP client *)
  http_request : Request -> Response;
  (** DOMParser.parseFromString(_, text/xml) *)
  parseFromString : string -> Document;
  (** the stack property of an Error created with the given message *)
  stack_trace : string -> option string;
  (** new Date().toISOString() *)
  now : string
}.

(** A candidate source for the image slot. *)
Module ImageField.
Record t : Type := { source : string; type : string; reliability : Q }.
End ImageField.

Section Analyzer.

Context {host : Host}.

(** [root.querySelectorAll(sel)] and [root.querySelector(sel)] on an element. *)
Definition querySelectorAll (root : Node) (sel : string) : list Node :=
  filter (matches sel) (Dom.descendants root).

Definition querySelector (root : Node) (sel : string) : option Node :=
  hd_error (querySelectorAll root sel).

(** The same on a document: the root element takes part. *)
Definition docQuerySelectorAll (doc : Document) (sel : string) : list Node :=
  filter (matches sel) (Dom.elements doc).

Definition docQuerySelector (doc : Document) (sel : string) : option Node :=
  hd_error (docQuerySelectorAll doc sel).

(** ** Field values *)

Record Image : Type := {
  img_src : string;
  img_alt : option string;
  img_width : option float;
  img_height : option float
}.

(** What a field of an item can hold: trimmed text, null, the record of an
    enclosure, the record of a media element, an attribute dictionary, or
    the images found in the content. *)
Inductive FieldValue : Type :=
| VString (s : string)
| VNull
| VEnclosure (url type length : option string)
| VMedia (url medium width height type : option string)
| VAttrs (attrs : Obj.t string)
| VImages (images : list Image).

Definition truthy (v : FieldValue) : bool :=
  match v with
  | VString s => Js.truthyStr s
  | VNull => false
  | _ => true
  end.

Definition truthyOpt (v : option FieldValue) : bool :=
  match v with Some x => truthy x | None => false end.

(** [a || b] on possibly undefined values. *)
Definition orVal (a b : option FieldValue) : option FieldValue :=
  if truthyOpt a then a else b.

(** A value where a string is expected. *)
Definition toStr (v : FieldValue) : string :=
  match v with
  | VString s => s
  | VNull => "null"
  | VImages l => String.concat "," (map (fun _ => "[object Object]") l)
  | _ => "[object Object]"
  end.

Definition nullable (o : option string) : FieldValue :=
  match o with Some s => VString s | None => VNull end.

(** ** extractImagesFromHTML *)

Definition group (i : nat) (m : list string) : string := nth i m "".

Definition extractImagesFromHTML (html : string) : list Image :=
  map (fun m =>
         let imgTag := group 0 m in
         let src := group 1 m in
         let altMatch := regexp_match ReAlt imgTag in
         let alt := option_map (group 1) altMatch in
         let widthMatch := regexp_match ReWidth imgTag in
         let heightMatch := regexp_match ReHeight imgTag in
         {| img_src := src;
            img_alt := alt;
            img_width := option_map (fun g => parse_int (group 1 g)) widthMatch;
            img_height := option_map (fun g => parse_int (group 1 g)) heightMatch |})
      (regexp_exec_all ReImg html).

(** ** extractAllFields *)

Definition ItemFields : Type := Obj.t FieldValue.

Definition standardFields : list string :=
  ["title"; "link"; "description"; "pubDate"; "published"; "updated"; "summary";
   "content"; "author"; "creator"; "category"; "guid"; "id"; "comments"; "source"].

Definition namespaceElements : list string :=
  ["content\:encoded, content"; "dc\:creator, creator"; "dc\:date, date";
   "media\:content, media"; "media\:thumbnail"; "enclosure"; "itunes\:image";
   "itunes\:summary"; "itunes\:subtitle"].

(** [selector.replace(backslash colon, underscore).split(comma)[0]] *)
Definition fieldNameOf (selector : string) : string :=
  Js.beforeFirst ","%char (Js.replace "\:" "_" selector).

Definition standardStep (item : Node) (fields : ItemFields) (fieldName : string) : ItemFields :=
  match querySelector item fieldName with
  | Some element => Obj.set fieldName (VString (string_trim (Dom.textContent element))) fields
  | None => fields
  end.

Definition linkStep (item : Node) (fields : ItemFields) : ItemFields :=
  match querySelector item "link" with
  | Some linkEl =>
      let href := match Dom.getAttribute "href" linkEl with Some h => h | None => "" end in
      let fields := Obj.set "link" (VString (Js.orStr href (Dom.textContent linkEl))) fields in
      let fields := Obj.set "link_rel" (nullable (Dom.getAttribute "rel" linkEl)) fields in
      Obj.set "link_type" (nullable (Dom.getAttribute "type" linkEl)) fields
  | None => fields
  end.

Definition namespaceStep (item : Node) (fields : ItemFields) (selector : string) : ItemFields :=
  match querySelector item selector with
  | Some element =>
      let fieldName := fieldNameOf selector in
      let tag := string_toLowerCase (Dom.tagName element) in
      if String.eqb tag "enclosure" then
        Obj.set fieldName
          (VEnclosure (Dom.getAttribute "url" element) (Dom.getAttribute "type" element)
                      (Dom.getAttribute "length" element)) fields
      else if Js.includes "media" tag then
        Obj.set fieldName
          (VMedia (Dom.getAttribute "url" element) (Dom.getAttribute "medium" element)
                  (Dom.getAttribute "width" element) (Dom.getAttribute "height" element)
                  (Dom.getAttribute "type" element)) fields
      else
        let text := string_trim (Dom.textContent element) in
        Obj.set fieldName
          (if Js.truthyStr text then VString text else nullable (Dom.getAttribute "url" element))
          fields
  | None => fields
  end.

Definition deepStep (fields : ItemFields) (el : Node) : ItemFields :=
  let tagName := string_toLowerCase (Dom.tagName el) in
  let text := string_trim (Dom.textContent el) in
  let recorded := match Obj.get tagName fields with
                  | Some v => truthy v
                  | None => Obj.inherited tagName
                  end in
  if negb recorded && Js.truthyStr text then
    let hasChildElements := negb (Nat.eqb (List.length (Dom.children el)) 0) in
    if hasChildElements then fields
    else
      let fields := Obj.set ("auto_" ++ tagName) (VString text) fields in
      if negb (Nat.eqb (List.length (Dom.attributes el)) 0) then
        let attrs := fold_left (fun attrs attr => Obj.assign (fst attr) (snd attr) attrs)
                               (Dom.attributes el) Obj.empty in
        Obj.set ("auto_" ++ tagName ++ "_attrs") (VAttrs attrs) fields
      else fields
  else fields.

Definition imagesStep (fields : ItemFields) : ItemFields :=
  if truthyOpt (orVal (orVal (Obj.get "description" fields) (Obj.get "content" fields))
                      (Obj.get "content_encoded" fields)) then
    let contentToScan :=
      orVal (orVal (Obj.get "content_encoded" fields) (Obj.get "content" fields))
            (Obj.get "description" fields) in
    let images := extractImagesFromHTML (match contentToScan with Some v => toStr v | None => "undefined" end) in
    if negb (Nat.eqb (List.length images) 0) then Obj.set "extracted_images" (VImages images) fields
    else fields
  else fields.

Definition extractAllFields (item : Node) (deepScan : bool) : ItemFields :=
  let fields := fold_left (standardStep item) standardFields Obj.empty in
  let fields := linkStep item fields in
  let fields := fold_left (namespaceStep item) namespaceElements fields in
  let fields :=
    if deepScan then fold_left deepStep (querySelectorAll item "*") fields else fields in
  imagesStep fields.

(** ** analyzeFieldPattern *)

Record FieldPattern : Type := {
  types : StrSet.t;
  formats : StrSet.t;
  hasHTML : bool;
  hasURL : bool;
  hasDate : bool;
  avgLength : float;
  samples : Z
}.

Definition newPattern : FieldPattern :=
  {| types := []; formats := []; hasHTML := false; hasURL := false; hasDate := false;
     avgLength := 0%float; samples := 0 |}.

Definition isValidDate (str : string) : bool := date_parses str.

Definition markHTML (p : FieldPattern) : FieldPattern :=
  {| types := types p; formats := StrSet.add "html" (formats p); hasHTML := true;
     hasURL := hasURL p; hasDate := hasDate p; avgLength := avgLength p; samples := samples p |}.

Definition markURL (p : FieldPattern) : FieldPattern :=
  {| types := types p; formats := StrSet.add "url" (formats p); hasHTML := hasHTML p;
     hasURL := true; hasDate := hasDate p; avgLength := avgLength p; samples := samples p |}.

Definition markDate (p : FieldPattern) : FieldPattern :=
  {| types := types p; formats := StrSet.add "date" (formats p); hasHTML := hasHTML p;
     hasURL := hasURL p; hasDate := true; avgLength := avgLength p; samples := samples p |}.

Definition addType (ty : string) (p : FieldPattern) : FieldPattern :=
  {| types := StrSet.add ty (types p); formats := formats p; hasHTML := hasHTML p;
     hasURL := hasURL p; hasDate := hasDate p; avgLength := avgLength p; samples := samples p |}.

Definition addFormat (f : string) (p : FieldPattern) : FieldPattern :=
  {| types := types p; formats := StrSet.add f (formats p); hasHTML := hasHTML p;
     hasURL := hasURL p; hasDate := hasDate p; avgLength := avgLength p; samples := samples p |}.

(** A count or a length as the binary64 number JavaScript holds it in
    (exact below 2^53). *)
Definition toFloat (n : Z) : float := PrimFloat.of_uint63 (Uint63.of_Z n).

(** [avgLength = (avgLength * samples + length) / (samples + 1)], each
    operation rounded to binary64. *)
Definition updateAverage (len : Z) (p : FieldPattern) : FieldPattern :=
  {| types := types p; formats := formats p; hasHTML := hasHTML p;
     hasURL := hasURL p; hasDate := hasDate p;
     avgLength := ((avgLength p * toFloat (samples p) + toFloat len)
                   / toFloat (samples p + 1))%float;
     samples := samples p |}.

Definition countSample (p : FieldPattern) : FieldPattern :=
  {| types := types p; formats := formats p; hasHTML := hasHTML p;
     hasURL := hasURL p; hasDate := hasDate p; avgLength := avgLength p;
     samples := samples p + 1 |}.

Definition analyzeFieldPattern (value : FieldValue) (existingPattern : option FieldPattern)
  : FieldPattern :=
  let pattern := match existingPattern with Some p => p | None => newPattern end in
  let pattern :=
    match value with
    | VString s =>
        let pattern := addType "string" pattern in
        let pattern := if regexp_test ReHtmlTag s then markHTML pattern else pattern in
        let pattern := if regexp_test ReHttpUrl s then markURL pattern else pattern in
        let pattern := if isValidDate s then markDate pattern else pattern in
        updateAverage (Z.of_nat (String.length s)) pattern
    | _ => addFormat "structured" (addType "object" pattern)
    end in
  countSample pattern.

(** ** detectFeedType, extractChannelInfo, extractNamespaces *)

Definition detectFeedType (doc : Document) : string :=
  match docQuerySelector doc "rss" with
  | Some rss =>
      let version := match Dom.getAttribute "version" rss with Some v => v | None => "" end in
      "rss" ++ Js.orStr version "2.0"
  | None =>
      match docQuerySelector doc "feed" with
      | Some _ => "atom"
      | None =>
          match docQuerySelector doc "rdf\:RDF, RDF" with
          | Some _ => "rss1.0"
          | None => "unknown"
          end
      end
  end.

(** [root.querySelector(sel)?.textContent] *)
Definition textOf (root : Node) (sel : string) : option string :=
  option_map Dom.textContent (querySelector root sel).

(** [root.querySelector(sel)?.getAttribute(name)] *)
Definition attrOf (root : Node) (sel name : string) : option string :=
  match querySelector root sel with
  | Some el => Dom.getAttribute name el
  | None => None
  end.

Definition orOptStr (a b : option string) : option string :=
  match a with
  | Some s => if Js.truthyStr s then a else b
  | None => b
  end.

Definition extractChannelInfo (doc : Document) (feedType : string) : Obj.t (option string) :=
  if String.eqb feedType "atom" then
    match docQuerySelector doc "feed" with
    | Some feed =>
        [("title", textOf feed "title");
         ("subtitle", textOf feed "subtitle");
         ("updated", textOf feed "updated");
         ("id", textOf feed "id");
         ("link", orOptStr
                    (attrOf feed ("link[rel=" ++ Js.dquote ++ "alternate" ++ Js.dquote ++ "]") "href")
                    (attrOf feed "link" "href"))]
    | None => []
    end
  else
    match docQuerySelector doc "channel" with
    | Some channel =>
        [("title", textOf channel "title");
         ("description", textOf channel "description");
         ("link", textOf channel "link");
         ("language", textOf channel "language");
         ("lastBuildDate", textOf channel "lastBuildDate");
         ("pubDate", textOf channel "pubDate")]
    | None => []
    end.

Definition extractNamespaces (doc : Document) : Obj.t string :=
  match documentElement doc with
  | Some root =>
      fold_left (fun namespaces attr =>
                   if Js.startsWith "xmlns:" (fst attr)
                   then Obj.assign (Js.replace "xmlns:" "" (fst attr)) (snd attr) namespaces
                   else namespaces)
                (Dom.attributes root) Obj.empty
  | None => Obj.empty
  end.

(** ** analyzeFeedStructure *)

Record Error : Type := { error_message : string; error_stack : option string }.

Definition newError (msg : string) : Error :=
  {| error_message := msg; error_stack := stack_trace msg |}.

Record ItemAnalysis : Type := {
  index : Z;
  fields : ItemFields;
  fieldCount : Z
}.

Record Analysis : Type := {
  feedType : string;
  channelInfo : Obj.t (option string);
  itemCount : Z;
  samplesAnalyzed : JsNumber;
  uniqueFields : list string;
  fieldReliability : Obj.t Q;
  fieldSamples : Obj.t (list FieldValue);
  fieldPatterns : Obj.t FieldPattern;
  items : list ItemAnalysis;
  namespaces : Obj.t string;
  encoding : string
}.

(** The variables the sampling loop updates. *)
Record Tally : Type := {
  itemAnalysis : list ItemAnalysis;
  allFields : StrSet.t;
  fieldOccurrences : Obj.t Z;
  tallySamples : Obj.t (list FieldValue);
  tallyPatterns : Obj.t FieldPattern
}.

Definition emptyTally : Tally :=
  {| itemAnalysis := []; allFields := []; fieldOccurrences := Obj.empty;
     tallySamples := Obj.empty; tallyPatterns := Obj.empty |}.

(** The body of [Object.keys(itemFields).forEach]. *)
Definition fieldStep (deepScan : bool) (itemFields : ItemFields) (st : Tally) (field : string)
  : Tally :=
  let value := Obj.get field itemFields in
  let occurrences :=
    Obj.set field (match Obj.get field (fieldOccurrences st) with Some n => n | None => 0 end + 1)%Z
            (fieldOccurrences st) in
  let samples0 :=
    match Obj.get field (tallySamples st) with
    | Some _ => tallySamples st
    | None => Obj.set field [] (tallySamples st)
    end in
  let collected := match Obj.get field samples0 with Some l => l | None => [] end in
  let samples1 :=
    match value with
    | Some v =>
        if (List.length collected <? 3)%nat && truthy v
        then Obj.set field (collected ++ [v])%list samples0
        else samples0
    | None => samples0
    end in
  let patterns :=
    match value with
    | Some v =>
        if deepScan && truthy v
        then Obj.set field (analyzeFieldPattern v (Obj.get field (tallyPatterns st)))
                     (tallyPatterns st)
        else tallyPatterns st
    | None => tallyPatterns st
    end in
  {| itemAnalysis := itemAnalysis st;
     allFields := StrSet.add field (allFields st);
     fieldOccurrences := occurrences;
     tallySamples := samples1;
     tallyPatterns := patterns |}.

(** One turn of the sampling loop, for the item at position [i]. *)
Definition itemStep (deepScan : bool) (st : Tally) (entry : Z * Node) : Tally :=
  let (i, item) := entry in
  let itemFields := extractAllFields item deepScan in
  let st := fold_left (fieldStep deepScan itemFields) (Obj.keys itemFields) st in
  {| itemAnalysis :=
       (itemAnalysis st ++
          [{| index := i; fields := itemFields;
              fieldCount := Z.of_nat (List.length (Obj.keys itemFields)) |}])%list;
     allFields := allFields st;
     fieldOccurrences := fieldOccurrences st;
     tallySamples := tallySamples st;
     tallyPatterns := tallyPatterns st |}.

(** The items the loop [for (let i = 0; i < samplesToAnalyze; i++)] visits,
    with their positions, from position [i] on and with the items from that
    position on.  samplesToAnalyze is at most the number of items, so the
    loop ends before the items do. *)
Fixpoint sampledFrom (i : nat) (samplesToAnalyze : JsNumber) (items : list Node)
  : list (Z * Node) :=
  match items with
  | [] => []
  | item :: rest =>
      if below (Z.of_nat i) samplesToAnalyze
      then (Z.of_nat i, item) :: sampledFrom (S i) samplesToAnalyze rest
      else []
  end.

Definition sampled (samplesToAnalyze : JsNumber) (items : list Node) : list (Z * Node) :=
  sampledFrom 0 samplesToAnalyze items.

(** The percentage of the sampled items a field occurs in.  Every member of
    allFields has a count, so the lookup is always defined. *)
Definition reliabilityStep (occurrences : Obj.t Z) (samplesToAnalyze : JsNumber)
           (fieldReliability : Obj.t Q) (field : string) : Obj.t Q :=
  match Obj.get field occurrences with
  | Some n => Obj.set field (dividedBy n samplesToAnalyze * 100)%Q fieldReliability
  | None => fieldReliability
  end.

Definition analyzeFeedStructure (xmlContent : string) (sampleSize : JsNumber) (deepScan : bool)
  : Error + Analysis :=
  let doc := parseFromString xmlContent in
  match docQuerySelector doc "parsererror" with
  | Some parseError => inl (newError ("Invalid XML: " ++ Dom.textContent parseError))
  | None =>
      let feedType := detectFeedType doc in
      let channelInfo := extractChannelInfo doc feedType in
      let items := docQuerySelectorAll doc (if String.eqb feedType "atom" then "entry" else "item") in
      let itemCount := Z.of_nat (List.length items) in
      let samplesToAnalyze := mathMin sampleSize itemCount in
      let st := fold_left (itemStep deepScan) (sampled samplesToAnalyze items) emptyTally in
      let fieldReliability :=
        fold_left (reliabilityStep (fieldOccurrences st) samplesToAnalyze) (allFields st) Obj.empty in
      inr {| feedType := feedType;
             channelInfo := channelInfo;
             itemCount := itemCount;
             samplesAnalyzed := samplesToAnalyze;
             uniqueFields := allFields st;
             fieldReliability := fieldReliability;
             fieldSamples := tallySamples st;
             fieldPatterns := tallyPatterns st;
             items := itemAnalysis st;
             namespaces := extractNamespaces doc;
             encoding := match characterSet doc with
                         | Some cs => Js.orStr cs "UTF-8"
                         | None => "UTF-8"
                         end |}
  end.

(** ** findBestField *)

(** The first loop: the first candidate whose reliability reaches the threshold. *)
Fixpoint firstReaching (candidates : list string) (reliability : Obj.t Q) (threshold : Q)
  : option string :=
  match candidates with
  | [] => None
  | field :: rest =>
      if optGe (Obj.get field reliability) threshold then Some field
      else firstReaching rest reliability threshold
  end.

(** The second loop, with its two variables [best] and [bestScore]. *)
Fixpoint mostReliable (candidates : list string) (reliability : Obj.t Q)
         (best : option string) (bestScore : Q) : option string :=
  match candidates with
  | [] => best
  | field :: rest =>
      match Obj.get field reliability with
      | Some r =>
          if Qgtb r bestScore then mostReliable rest reliability (Some field) r
          else mostReliable rest reliability best bestScore
      | None => mostReliable rest reliability best bestScore
      end
  end.

Definition findBestField (candidates : list string) (reliability : Obj.t Q) (threshold : Q)
  : option string :=
  match firstReaching candidates reliability threshold with
  | Some field => Some field
  | None => mostReliable candidates reliability None 0
  end.

(** ** findImageMapping *)

(** Array.prototype.sort is stable; with the comparator
    [(a, b) => b.reliability - a.reliability] an element moves in front of
    another one only when its reliability is strictly higher. *)
Fixpoint insertByReliability (x : ImageField.t) (l : list ImageField.t) : list ImageField.t :=
  match l with
  | [] => [x]
  | y :: r =>
      if Qgtb (ImageField.reliability y) (ImageField.reliability x)
      then y :: insertByReliability x r
      else x :: l
  end.

Definition sortByReliability (l : list ImageField.t) : list ImageField.t :=
  fold_right insertByReliability [] l.

(** [sample?.type?.startsWith(image)] for the first enclosure sample. *)
Definition declaredImage (sample : option FieldValue) : bool :=
  match sample with
  | Some (VEnclosure _ (Some ty) _) => Js.startsWith "image" ty
  | Some (VMedia _ _ _ _ (Some ty)) => Js.startsWith "image" ty
  | Some (VAttrs attrs) =>
      match Obj.get "type" attrs with
      | Some ty => Js.startsWith "image" ty
      | None => false
      end
  | _ => false
  end.

Definition pushIf (c : bool) (x : ImageField.t) (l : list ImageField.t) : list ImageField.t :=
  if c then (l ++ [x])%list else l.

Definition imageCandidates (fieldReliability : Obj.t Q) (fieldSamples : Obj.t (list FieldValue))
  : list ImageField.t :=
  let rel f := Obj.get f fieldReliability in
  let entry (src ty : string) :=
    {| ImageField.source := src; ImageField.type := ty;
       ImageField.reliability := optOrZero (rel src) |} in
  let imageFields := [] in
  let imageFields :=
    pushIf (optGt (rel "media_content") 50) (entry "media_content" "media") imageFields in
  let imageFields :=
    pushIf (optGt (rel "media_thumbnail") 50) (entry "media_thumbnail" "media") imageFields in
  let imageFields :=
    pushIf (optGt (rel "enclosure") 50 &&
            declaredImage (match Obj.get "enclosure" fieldSamples with
                           | Some l => hd_error l
                           | None => None
                           end))
           (entry "enclosure" "enclosure") imageFields in
  let imageFields :=
    pushIf (optGt (rel "extracted_images") 30)
           (entry "extracted_images" "html_extraction") imageFields in
  pushIf (optGt (rel "itunes_image") 50) (entry "itunes_image" "itunes") imageFields.

Definition findImageMapping (analysis : Analysis) : option ImageField.t :=
  hd_error (sortByReliability
              (imageCandidates (fieldReliability analysis) (fieldSamples analysis))).

(** ** generateFieldMappings *)

Inductive Mapping : Type :=
| MappingNull
| MappingString (value : string)
| MappingField (field : string) (reliability : Q) (sample : option FieldValue)
| MappingImage (image : ImageField.t).

(** The last loop of generateFieldMappings: a non-empty string becomes a
    record with its reliability and first sample. *)
Definition withConfidence (analysis : Analysis) (value : option string) : Mapping :=
  match value with
  | None => MappingNull
  | Some v =>
      if Js.truthyStr v then
        MappingField v (optOrZero (Obj.get v (fieldReliability analysis)))
                     (match Obj.get v (fieldSamples analysis) with
                      | Some l => match hd_error l with
                                  | Some s => if truthy s then Some s else None
                                  | None => None
                                  end
                      | None => None
                      end)
      else MappingString v
  end.

Definition generateFieldMappings (analysis : Analysis) : Obj.t Mapping :=
  let fieldReliability := fieldReliability analysis in
  let titleCandidates := ["title"; "auto_title"] in
  let linkCandidates := ["link"; "guid"; "id"; "auto_link"] in
  let descCandidates := ["description"; "summary"; "content"; "content_encoded"; "auto_description"] in
  let contentCandidates := ["content_encoded"; "content"; "description"] in
  let dateCandidates := ["pubDate"; "published"; "updated"; "dc_date"; "auto_pubdate"] in
  let authorCandidates := ["author"; "dc_creator"; "creator"; "auto_author"] in
  let categoryCandidates := ["category"; "auto_category"; "tags"] in
  [("title", withConfidence analysis (findBestField titleCandidates fieldReliability 90));
   ("link", withConfidence analysis (findBestField linkCandidates fieldReliability 90));
   ("description", withConfidence analysis (findBestField descCandidates fieldReliability 70));
   ("date", withConfidence analysis (findBestField dateCandidates fieldReliability 70));
   ("image", match findImageMapping analysis with
             | Some im => MappingImage im
             | None => MappingNull
             end);
   ("author", withConfidence analysis (findBestField authorCandidates fieldReliability 30));
   ("category", withConfidence analysis (findBestField categoryCandidates fieldReliability 30));
   ("content", withConfidence analysis (findBestField contentCandidates fieldReliability 50))].

(** ** validateDataQuality and calculateQualityScore *)

Record Finding : Type := {
  level : string;
  message : string;
  field : string;
  reliability : option Q
}.

Record Validation : Type := {
  isValid : bool;
  issues : list Finding;
  warnings : list Finding;
  suggestions : list Finding;
  qualityScore : Z
}.

Definition calculateQualityScore {A B : Type} (issues : list A) (warnings : list B) : Z :=
  let score := 100%Z in
  let score := (score - Z.of_nat (List.length issues) * 20)%Z in
  let score := (score - Z.of_nat (List.length warnings) * 5)%Z in
  Z.max 0 (Z.min 100 score).

Definition itemsFindings (itemCount : Z) : list Finding * list Finding :=
  if (itemCount =? 0)%Z then
    ([{| level := "error"; message := "Feed contains no items"; field := "items";
         reliability := None |}], [])
  else if (itemCount <? 5)%Z then
    ([], [{| level := "warning";
             message := "Feed only contains " ++ Js.showZ itemCount ++ " items";
             field := "items"; reliability := None |}])
  else ([], []).

Definition requiredFindings (fieldReliability : Obj.t Q) : list Finding :=
  flat_map (fun f =>
              let r := Obj.get f fieldReliability in
              if optFalsy r || optLt r 50 then
                [{| level := "error"; message := "Missing or unreliable field: " ++ f;
                    field := f; reliability := Some (optOrZero r) |}]
              else [])
           ["title"; "link"; "description"].

Definition dateFindings (fieldReliability : Obj.t Q) : list Finding :=
  let dateFields := ["pubDate"; "published"; "updated"; "dc_date"] in
  let hasReliableDate := existsb (fun f => optGt (Obj.get f fieldReliability) 70) dateFields in
  if negb hasReliableDate then
    [{| level := "warning"; message := "No reliable date field found"; field := "date";
        reliability := None |}]
  else [].

Definition imageFindings (fieldReliability : Obj.t Q) : list Finding :=
  let imageFields := ["media_content"; "media_thumbnail"; "enclosure"; "extracted_images"] in
  let hasImages := existsb (fun f => optGt (Obj.get f fieldReliability) 30) imageFields in
  if negb hasImages then
    [{| level := "info"; message := "No image sources found in feed"; field := "image";
        reliability := None |}]
  else [].

Definition htmlFindings (fieldPatterns : Obj.t FieldPattern) : list Finding :=
  flat_map (fun entry =>
              let (f, pattern) := (entry : string * FieldPattern) in
              if String.eqb f "title" && hasHTML pattern then
                [{| level := "warning"; message := "Title field contains HTML markup";
                    field := f; reliability := None |}]
              else [])
           fieldPatterns.

Definition encodingFindings (encoding : string) : list Finding :=
  if negb (String.eqb encoding "UTF-8") then
    [{| level := "warning";
        message := "Feed uses " ++ encoding ++ " encoding instead of UTF-8";
        field := "encoding"; reliability := None |}]
  else [].

Definition validateDataQuality (analysis : Analysis) : Validation :=
  let fieldReliability := fieldReliability analysis in
  let issues := (fst (itemsFindings (itemCount analysis)) ++ requiredFindings fieldReliability)%list in
  let warnings :=
    (snd (itemsFindings (itemCount analysis)) ++ dateFindings fieldReliability ++
     htmlFindings (fieldPatterns analysis) ++ encodingFindings (encoding analysis))%list in
  let suggestions := imageFindings fieldReliability in
  {| isValid := Nat.eqb (List.length issues) 0;
     issues := issues;
     warnings := warnings;
     suggestions := suggestions;
     qualityScore := calculateQualityScore issues warnings |}.

(** ** checkCompatibility *)

Record Processing : Type := { issue : string; solution : string }.

Inductive Recommendation : Type :=
| NamespaceAdvice (namespace : string) (message : string)
| FieldAdvice (field : string) (message : string).

Record Compatibility : Type := {
  isCompatible : bool;
  requiresProcessing : list Processing;
  recommendations : list Recommendation
}.

Definition strIn (x : string) (l : list string) : bool := existsb (String.eqb x) l.

(** [!mapping || (mapping.reliability && mapping.reliability < 50)] *)
Definition weakMapping (m : Mapping) : bool :=
  match m with
  | MappingNull => true
  | MappingString v => negb (Js.truthyStr v)
  | MappingField _ r _ => negb (Qeq_bool r 0) && Qlessb r 50
  | MappingImage im =>
      negb (Qeq_bool (ImageField.reliability im) 0) && Qlessb (ImageField.reliability im) 50
  end.

Definition checkCompatibility (analysis : Analysis) : Compatibility :=
  let known := strIn (feedType analysis) ["rss2.0"; "atom"; "rss1.0"] in
  let typeProcessing :=
    if negb known then
      [{| issue := "Unknown feed type"; solution := "Manual parsing may be required" |}]
    else [] in
  let namespaceAdvice :=
    flat_map (fun ns =>
                if negb (strIn ns ["dc"; "content"; "media"; "atom"]) then
                  [NamespaceAdvice ns
                     ("Custom namespace '" ++ ns ++ "' detected - may need special handling")]
                else [])
             (Obj.keys (namespaces analysis)) in
  let mappings := generateFieldMappings analysis in
  let mappingProcessing :=
    flat_map (fun entry =>
                let (f, mapping) := (entry : string * Mapping) in
                if weakMapping mapping then
                  [{| issue := "Weak mapping for " ++ f;
                      solution := "Consider fallback processing for " ++ f |}]
                else [])
             mappings in
  let htmlAdvice :=
    flat_map (fun entry =>
                let (f, pattern) := (entry : string * FieldPattern) in
                if hasHTML pattern && negb (String.eqb f "content")
                   && negb (String.eqb f "description") then
                  [FieldAdvice f "Contains HTML - consider stripping tags"]
                else [])
             (fieldPatterns analysis) in
  {| isCompatible := known;
     requiresProcessing := (typeProcessing ++ mappingProcessing)%list;
     recommendations := (namespaceAdvice ++ htmlAdvice)%list |}.

(** ** fetchFeed and analyzeRSSFeed *)

(** A computation that may throw and that logs its HTTP requests. *)
Definition Trace : Type := list Request.
Definition Eff (A : Type) : Type := Trace -> (Error + A) * Trace.

Definition ret {A : Type} (a : A) : Eff A := fun t => (inr a, t).
Definition throw {A : Type} (e : Error) : Eff A := fun t => (inl e, t).
Definition bind {A B : Type} (m : Eff A) (f : A -> Eff B) : Eff B :=
  fun t => match m t with
           | (inr a, t') => f a t'
           | (inl e, t') => (inl e, t')
           end.
Definition lift {A : Type} (r : Error + A) : Eff A := fun t => (r, t).
Definition request (r : Request) : Eff Response :=
  fun t => (inr (http_request r), (t ++ [r])%list).
Definition tryCatch {A : Type} (m : Eff A) (handler : Error -> A) : Trace -> A * Trace :=
  fun t => match m t with
           | (inr a, t') => (a, t')
           | (inl e, t') => (handler e, t')
           end.

Notation "x <- m ;; k" := (bind m (fun x => k))
  (at level 61, m at next level, right associativity).

Definition fetchFeed (url : string) : Eff string :=
  response <- request {| method := "GET"; url := url;
                         headers := [("User-Agent", "Nashville-Civic-News-Bot/1.0");
                                     ("Accept", "application/rss+xml, application/xml, text/xml, */*")];
                         timeout := 10000 |} ;;
  if negb (response_success response) then
    throw (newError ("Failed to fetch feed: " ++
                     match response_status response with
                     | Some s => if (s =? 0)%Z then "Unknown error" else Js.showZ s
                     | None => "Unknown error"
                     end))
  else ret (response_body response).

Record AnalyzeRSSInputs : Type := {
  feed_url : option string;
  sample_size : option JsNumber;
  deep_scan : option bool
}.

Inductive Report : Type :=
| Rejected (error : string)
| Succeeded (feed_url : string) (analysis : Analysis) (recommended_mappings : Obj.t Mapping)
            (validation : Validation) (compatibility : Compatibility) (timestamp : string)
| Failed (error : string) (details : option string).

Definition success (r : Report) : bool :=
  match r with Succeeded _ _ _ _ _ _ => true | _ => false end.

Definition analyzeRSSFeed (inputs : AnalyzeRSSInputs) : Trace -> Report * Trace :=
  let feed_url := match feed_url inputs with Some u => u | None => "" end in
  let sample_size := match sample_size inputs with Some n => n | None => Finite 5 end in
  let deep_scan := match deep_scan inputs with Some b => b | None => true end in
  if negb (Js.truthyStr feed_url) then
    fun t => (Rejected "feed_url is required", t)
  else
    tryCatch
      (feedContent <- fetchFeed feed_url ;;
       analysis <- lift (analyzeFeedStructure feedContent sample_size deep_scan) ;;
       let mappings := generateFieldMappings analysis in
       let validation := validateDataQuality analysis in
       let compatibility := checkCompatibility analysis in
       ret (Succeeded feed_url analysis mappings validation compatibility now))
      (fun error =>
         Failed (Js.orStr (error_message error) "Failed to analyze feed")
                (match error_stack error with
                 | Some s => if Js.truthyStr s then Some s else None
                 | None => None
                 end)).

End Analyzer.

(** ** storeMappingConfig and generateParsingInstructions *)

Record MappingConfigData : Type := {
  feed_id : string;
  mappings : string;
  field_list : list string;
  reliability_scores : Obj.t Q;
  last_analyzed : string;
  quality_score : Z
}.

Record MappingConfig : Type := {
  table : string;
  data : MappingConfigData
}.

Section Utilities.

Context {host : Host}.

(** JSON.stringify on a mappings object. *)
Variable stringify : Obj.t Mapping -> string.

Definition storeMappingConfig (id : string) (m : Obj.t Mapping) (analysis : Analysis)
  : MappingConfig :=
  {| table := "rss_feed_mappings";
     data := {| feed_id := id;
                mappings := stringify m;
                field_list := uniqueFields analysis;
                reliability_scores := fieldReliability analysis;
                last_analyzed := now;
                quality_score :=
                  calculateQualityScore (@nil Finding) (@nil Finding) |} |}.

End Utilities.

Module Instructions.
Record t : Type := {
  title : string;
  link : string;
  description : string;
  date : string;
  image : option string
}.
End Instructions.

(** [mappings[slot].field] inside a template.  Reading a property of null
    or undefined throws a TypeError, which is reported here by the slot that
    was read; a value that has no such property interpolates as undefined. *)
Definition fieldOf (m : Obj.t Mapping) (slot : string) : string + string :=
  match Obj.get slot m with
  | None => inl slot
  | Some MappingNull => inl slot
  | Some (MappingField f _ _) => inr f
  | Some (MappingString _) => inr "undefined"
  | Some (MappingImage _) => inr "undefined"
  end.

(** The switch over [mappings.image.type], entered when the image mapping is
    truthy; a mapping without type, or of a type the switch has no case for,
    leaves the instruction null. *)
Definition imageInstruction (m : Obj.t Mapping) : option string :=
  match Obj.get "image" m with
  | Some (MappingImage im) =>
      if String.eqb (ImageField.type im) "media" then
        Some ("item.querySelector('" ++ ImageField.source im ++ "')?.getAttribute('url')")
      else if String.eqb (ImageField.type im) "enclosure" then
        Some ("item.querySelector('enclosure[type^=" ++ Js.dquote ++ "image" ++ Js.dquote
              ++ "]')?.getAttribute('url')")
      else if String.eqb (ImageField.type im) "html_extraction" then
        Some "extractFirstImage(item.querySelector('description')?.textContent)"
      else None
  | _ => None
  end.

Definition generateParsingInstructions (m : Obj.t Mapping) : string + Instructions.t :=
  match fieldOf m "title" with
  | inl slot => inl slot
  | inr t =>
      match fieldOf m "link" with
      | inl slot => inl slot
      | inr l =>
          match fieldOf m "description" with
          | inl slot => inl slot
          | inr d =>
              match fieldOf m "date" with
              | inl slot => inl slot
              | inr dt =>
                  inr {| Instructions.title := "item.querySelector('" ++ t ++ "')?.textContent";
                         Instructions.link :=
                           "item.querySelector('" ++ l ++ "')?.textContent || item.querySelector('"
                           ++ l ++ "')?.getAttribute('href')";
                         Instructions.description :=
                           "item.querySelector('" ++ d ++ "')?.textContent";
                         Instructions.date := "item.querySelector('" ++ dt ++ "')?.textContent";
                         Instructions.image := imageInstruction m |}
              end
          end
      end
  end.

(** ** A concrete host, to run the analyzer on examples

    Its selector engine knows the selector forms the source uses: the
    universal selector, a tag name (a backslash before a colon is dropped),
    a tag name with one quoted attribute test, and comma-separated lists of
    these.  Its HTTP client serves three fixed bodies and its parser three
    fixed documents; it finds no image tags and parses no dates; it trims
    and lower-cases ASCII text. *)

Module Demo.

Fixpoint splitOn (sep : ascii) (s : string) : list string :=
  match s with
  | EmptyString => [EmptyString]
  | String c r =>
      if Ascii.eqb c sep then EmptyString :: splitOn sep r
      else match splitOn sep r with
           | [] => [String c EmptyString]
           | h :: t => String c h :: t
           end
  end.

Fixpoint unescape (s : string) : string :=
  match s with
  | EmptyString => EmptyString
  | String c r => if Ascii.eqb c "\"%char then unescape r else String c (unescape r)
  end.

(** tag[attr=QUOTEvalueQUOTE], or a bare tag *)
Definition matchesSimple (sel : string) (n : Node) : bool :=
  let sel := unescape (Js.trim sel) in
  if String.eqb sel "*" then true
  else
    let tag := Js.beforeFirst "["%char sel in
    let rest := Js.drop (String.length tag) sel in
    String.eqb tag (Dom.tagName n) &&
    match rest with
    | EmptyString => true
    | String _ test =>
        let name := Js.beforeFirst "="%char test in
        let quoted := Js.drop (String.length name + 2) test in
        let value := Js.beforeFirst "034"%char quoted in
        match Dom.getAttribute name n with
        | Some v => String.eqb v value
        | None => false
        end
    end.

Definition selectorMatches (sel : string) (n : Node) : bool :=
  Dom.isElement n && existsb (fun s => matchesSimple s n) (splitOn ","%char sel).

(** Is there a greater-than sign after at least one other character? *)
Fixpoint closesTag (s : string) (seen : bool) : bool :=
  match s with
  | EmptyString => false
  | String c r => if Ascii.eqb c ">"%char then seen else closesTag r true
  end.

Fixpoint testHtmlTag (s : string) : bool :=
  match s with
  | EmptyString => false
  | String c r => (Ascii.eqb c "<"%char && closesTag r false) || testHtmlTag r
  end.

Definition nonSpaceAfter (p s : string) : bool :=
  String.prefix p s &&
  match Js.drop (String.length p) s with
  | EmptyString => false
  | String c _ => negb (Js.isWhite c)
  end.

Fixpoint testHttpUrl (s : string) : bool :=
  nonSpaceAfter "http://" s || nonSpaceAfter "https://" s ||
  match s with
  | EmptyString => false
  | String _ r => testHttpUrl r
  end.

Definition el (tag : string) (attrs : list (string * string)) (cs : list Node) : Node :=
  Element tag attrs cs.

Definition leaf (tag text : string) : Node := Element tag [] [Text text].

(** An Atom entry whose link is an attributed element. *)
Definition atomEntry : Node :=
  el "entry" []
     [leaf "title" "First <b>post</b>";
      el "link" [("rel", "alternate"); ("href", "https://x/1")] [];
      leaf "id" "urn:1";
      leaf "updated" "2024-01-01T00:00:00Z"].

Definition atomEntry2 : Node :=
  el "entry" []
     [leaf "title" "Second post";
      el "link" [("rel", "alternate"); ("href", "https://x/2")] [];
      leaf "summary" "plain words"].

Definition atomDoc : Document :=
  {| documentElement :=
       Some (el "feed" [("xmlns", "http://www.w3.org/2005/Atom")]
                [leaf "title" "Example"; atomEntry; atomEntry2]);
     characterSet := Some "UTF-8" |}.

(** A well-formed RSS 2.0 channel without items. *)
Definition emptyDoc : Document :=
  {| documentElement :=
       Some (el "rss" [("version", "2.0")]
                [el "channel" [] [leaf "title" "Nothing yet"]]);
     characterSet := Some "UTF-8" |}.

(** What the parser returns for text that is not well-formed. *)
Definition brokenDoc : Document :=
  {| documentElement := Some (leaf "parsererror" "unclosed tag");
     characterSet := Some "UTF-8" |}.

(** An RSS 0.91 document. *)
Definition rss091Doc : Document :=
  {| documentElement :=
       Some (el "rss" [("version", "0.91")] [el "channel" [] [leaf "title" "Old"]]);
     characterSet := Some "UTF-8" |}.

Definition serve (r : Request) : Response :=
  if String.eqb (url r) "https://x/atom" then
    {| response_success := true; response_status := Some 200%Z; response_body := "atom" |}
  else if String.eqb (url r) "https://x/empty" then
    {| response_success := true; response_status := Some 200%Z; response_body := "empty" |}
  else if String.eqb (url r) "https://x/broken" then
    {| response_success := true; response_status := Some 200%Z; response_body := "broken" |}
  else
    {| response_success := false; response_status := Some 404%Z; response_body := "" |}.

Definition parse (text : string) : Document :=
  if String.eqb text "atom" then atomDoc
  else if String.eqb text "empty" then emptyDoc
  else brokenDoc.

Definition host : Host :=
  {| matches := selectorMatches;
     regexp_test := fun re s =>
                      match re with
                      | ReHtmlTag => testHtmlTag s
                      | ReHttpUrl => testHttpUrl s
                      | _ => false
                      end;
     regexp_match := fun _ _ => None;
     regexp_exec_all := fun _ _ => [];
     date_parses := fun _ => false;
     string_trim := Js.trim;
     string_toLowerCase := Js.toLowerCase;
     parse_int := fun s => match Js.parseInt s with Some n => toFloat n | None => nan end;
     http_request := serve;
     parseFromString := parse;
     stack_trace := fun msg => Some ("Error: " ++ msg);
     now := "2024-01-01T00:00:00.000Z" |}.

Definition inputs (u : string) (deep : option bool) : AnalyzeRSSInputs :=
  {| feed_url := Some u; sample_size := None; deep_scan := deep |}.

End Demo.

(** ** A host that finds an image

    The demonstration host with an image expression that finds the one
    image tag of one fixed text. *)
Module Gallery.

Definition picture : string := "<img src='https://x/p.png'>".

Definition item : Node := Demo.el "item" [] [Demo.leaf "description" picture].

(** An RSS 2.0 document that declares two namespaces and has one item. *)
Definition feed : Document :=
  {| documentElement :=
       Some (Demo.el "rss" [("version", "2.0");
                            ("xmlns:itunes", "http://www.itunes.com/dtds/podcast-1.0.dtd");
                            ("xmlns:media", "http://search.yahoo.com/mrss/")]
                     [Demo.el "channel" [] [Demo.leaf "title" "Pictures"; item]]);
     characterSet := Some "UTF-8" |}.

Definition parse (text : string) : Document :=
  if String.eqb text "gallery" then feed else Demo.parse text.

Definition host : Host :=
  {| matches := Demo.selectorMatches;
     regexp_test := fun re s =>
                      match re with
                      | ReHtmlTag => Demo.testHtmlTag s
                      | ReHttpUrl => Demo.testHttpUrl s
                      | _ => false
                      end;
     regexp_match := fun _ _ => None;
     regexp_exec_all := fun re s =>
                          match re with
                          | ReImg => if String.eqb s picture
                                     then [[picture; "https://x/p.png"]] else []
                          | _ => []
                          end;
     date_parses := fun _ => false;
     string_trim := Js.trim;
     string_toLowerCase := Js.toLowerCase;
     parse_int := fun s => match Js.parseInt s with Some n => toFloat n | None => nan end;
     http_request := Demo.serve;
     parseFromString := parse;
     stack_trace := fun msg => Some ("Error: " ++ msg);
     now := "2024-01-01T00:00:00.000Z" |}.

End Gallery.

(** ** Vocabulary of the specification *)

(** Clamping a score to an interval, as the specification words it. *)
Definition clamp (lo hi x : Z) : Z :=
  if (x <? lo)%Z then lo else if (hi <? x)%Z then hi else x.

(** A candidate reaches the threshold when it has a reliability and that
    reliability is at least the threshold. *)
Definition reaches (reliability : Obj.t Q) (threshold : Q) (f : string) : Prop :=
  exists r, Obj.get f reliability = Some r /\ (threshold <= r)%Q.

(** The reliability of a field, an absent field counting for zero. *)
Definition scoreOf (reliability : Obj.t Q) (f : string) : Q :=
  optOrZero (Obj.get f reliability).

(** The four strings that stand for the feed types RSS1, RSS2, Atom, Unknown. *)
Definition closedFeedTypes : list string := ["rss1.0"; "rss2.0"; "atom"; "unknown"].

(** In how many of the analyzed items a field is a key. *)
Definition occurrencesIn (f : string) (its : list ItemAnalysis) : Z :=
  Z.of_nat (List.length (filter (fun it => Obj.has f (fields it)) its)).

(** Folding a sequence of observed values through analyzeFieldPattern, the
    way the sampling loop does for one field. *)
Definition observeAll {host : Host} (values : list FieldValue) (prior : option FieldPattern)
  : option FieldPattern :=
  fold_left (fun p v => Some (analyzeFieldPattern v p)) values prior.

(** The lengths of a sequence of strings. *)
Definition lengthsOf (values : list string) : list Z :=
  map (fun s => Z.of_nat (String.length s)) values.

(** The running mean of a sequence of lengths in binary64: from the average
    0 over 0 values, each length replaces the average [avg] over [n] values
    by [(avg * n + length) / (n + 1)], the product, the sum and the quotient
    each rounded. *)
Definition meanStep64 (st : float * Z) (len : Z) : float * Z :=
  let (avg, n) := st in
  (((avg * toFloat n + toFloat len) / toFloat (n + 1))%float, (n + 1)%Z).

Definition runningMean64 (lens : list Z) : float :=
  fst (fold_left meanStep64 lens (0%float, 0%Z)).

(** A string of a given length. *)
Definition padding (n : nat) : string := string_of_list_ascii (repeat "a"%char n).

(** The first representative sample of a field. *)
Definition firstSample (f : string) (a : Analysis) : option FieldValue :=
  match Obj.get f (fieldSamples a) with Some l => hd_error l | None => None end.

(** An analysis with the given reliabilities and samples and nothing else. *)
Definition analysisOf (rel : Obj.t Q) (smp : Obj.t (list FieldValue)) : Analysis :=
  {| feedType := "rss2.0"; channelInfo := []; itemCount := 10; samplesAnalyzed := 5;
     uniqueFields := Obj.keys rel; fieldReliability := rel; fieldSamples := smp;
     fieldPatterns := []; items := []; namespaces := []; encoding := "UTF-8" |}.

(** The analysis of the image precedence example: media_content at 60,
    enclosure at 80 with an image-typed first sample. *)
Definition imageExample : Analysis :=
  analysisOf [("media_content", 60%Q); ("enclosure", 80%Q)]
             [("media_content", [VMedia (Some "https://x/m.jpg") None None None None]);
              ("enclosure", [VEnclosure (Some "https://x/e.jpg") (Some "image/jpeg") (Some "1024")])].

(** An image candidate, as findImageMapping builds it. *)
Definition candidate (src ty : string) (r : Q) : ImageField.t :=
  {| ImageField.source := src; ImageField.type := ty; ImageField.reliability := r |}.

(** The head of a list is at least as reliable as every element. *)
Definition headMost (l : list ImageField.t) : Prop :=
  match l with
  | [] => True
  | c :: _ => forall y, In y l -> (ImageField.reliability y <= ImageField.reliability c)%Q
  end.

(** The version attribute of an element, empty when it has none. *)
Definition versionOf (e : Node) : string :=
  match Dom.getAttribute "version" e with Some v => v | None => "" end.

(** The request fetchFeed sends for a URL. *)
Definition feedRequest (u : string) : Request :=
  {| method := "GET"; url := u;
     headers := [("User-Agent", "Nashville-Civic-News-Bot/1.0");
                 ("Accept", "application/rss+xml, application/xml, text/xml, */*")];
     timeout := 10000 |}.

(** The details of a failure report: the stack of the error, or null. *)
Definition detailsOf {host : Host} (msg : string) : option string :=
  match stack_trace msg with
  | Some s => if Js.truthyStr s then Some s else None
  | None => None
  end.

(** The document the analyzer parses for a URL. *)
Definition fetchedDocument {host : Host} (u : string) : Document :=
  parseFromString (response_body (http_request (feedRequest u))).

(** The selector of the items of a document: entry for Atom, item otherwise. *)
Definition itemSelector {host : Host} (doc : Document) : string :=
  if String.eqb (detectFeedType doc) "atom" then "entry" else "item".

(** [n || 0] on a possibly undefined count. *)
Definition countOr0 (o : option Z) : Z := match o with Some n => n | None => 0%Z end.

(** What the sampling loop maintains: a field has a count exactly when it
    occurs in an analyzed item, the count is its number of occurrences, and
    allFields holds exactly the fields that occur. *)
Definition counted (st : Tally) : Prop :=
  (forall f, Obj.get f (fieldOccurrences st) =
             if (occurrencesIn f (itemAnalysis st) =? 0)%Z then None
             else Some (occurrencesIn f (itemAnalysis st))) /\
  (forall f, In f (allFields st) <-> (0 < occurrencesIn f (itemAnalysis st))%Z).

(** How often the sampling loop runs below a bound that Math.min has
    capped: once for each index 0, 1, ... that is less than the bound, that
    is the bound rounded up, and not at all below a bound that is zero,
    negative or not a number. *)
Definition rounds (x : JsNumber) : nat :=
  match x with
  | Finite q => Z.to_nat (Qceiling q)
  | PosInfinity => 0%nat
  | NegInfinity => 0%nat
  | NaN => 0%nat
  end.


(** ** Vocabulary of the further properties *)

(** The target slots of generateFieldMappings, in the order of its object. *)
Definition slotNames : list string :=
  ["title"; "link"; "description"; "date"; "image"; "author"; "category"; "content"].

(** The candidate list and the threshold generateFieldMappings uses for a
    slot other than image. *)
Definition slotCandidates (slot : string) : list string :=
  if String.eqb slot "title" then ["title"; "auto_title"]
  else if String.eqb slot "link" then ["link"; "guid"; "id"; "auto_link"]
  else if String.eqb slot "description" then
    ["description"; "summary"; "content"; "content_encoded"; "auto_description"]
  else if String.eqb slot "date" then
    ["pubDate"; "published"; "updated"; "dc_date"; "auto_pubdate"]
  else if String.eqb slot "author" then ["author"; "dc_creator"; "creator"; "auto_author"]
  else if String.eqb slot "category" then ["category"; "auto_category"; "tags"]
  else if String.eqb slot "content" then ["content_encoded"; "content"; "description"]
  else [].

Definition slotThreshold (slot : string) : Q :=
  if String.eqb slot "title" then 90
  else if String.eqb slot "link" then 90
  else if String.eqb slot "description" then 70
  else if String.eqb slot "date" then 70
  else if String.eqb slot "content" then 50
  else 30.

(** The first sample of a field when it is truthy, as a mapping records it. *)
Definition recordedSample (f : string) (a : Analysis) : option FieldValue :=
  match firstSample f a with
  | Some v => if truthy v then Some v else None
  | None => None
  end.

(** The five image sources with the type findImageMapping gives each, in
    the order it collects them. *)
Definition imageSources : list (string * string) :=
  [("media_content", "media"); ("media_thumbnail", "media"); ("enclosure", "enclosure");
   ("extracted_images", "html_extraction"); ("itunes_image", "itunes")].

(** When findImageMapping takes a source as a candidate: a reliability
    above 50, above 30 for extracted_images, and for enclosure a first sample
    whose declared type begins with image as well. *)
Definition qualifies (a : Analysis) (src : string) : bool :=
  if String.eqb src "extracted_images" then optGt (Obj.get src (fieldReliability a)) 30
  else if String.eqb src "enclosure" then
    optGt (Obj.get src (fieldReliability a)) 50 && declaredImage (firstSample "enclosure" a)
  else optGt (Obj.get src (fieldReliability a)) 50.

(** The image sources that qualify, in collection order. *)
Definition qualifying (a : Analysis) : list (string * string) :=
  filter (fun p => qualifies a (fst p)) imageSources.

(** The two kinds of entries of requiresProcessing. *)
Definition unknownTypeEntry : Processing :=
  {| issue := "Unknown feed type"; solution := "Manual parsing may be required" |}.

Definition weakEntry (slot : string) : Processing :=
  {| issue := "Weak mapping for " ++ slot;
     solution := "Consider fallback processing for " ++ slot |}.

(** The feed types checkCompatibility accepts. *)
Definition supportedFeedTypes : list string := ["rss2.0"; "atom"; "rss1.0"].

(** The three fields validateDataQuality requires. *)
Definition requiredFields : list string := ["title"; "link"; "description"].

(** The truthy values a field takes in the analyzed items, in item order. *)
Definition truthyValues (f : string) (its : list ItemAnalysis) : list FieldValue :=
  flat_map (fun it => match Obj.get f (fields it) with
                      | Some v => if truthy v then [v] else []
                      | None => []
                      end) its.

(** What the sampling loop maintains for the samples: a field has an entry
    as soon as it occurs, holding its first three truthy values; the keys are
    those of allFields in the same order, without repetition. *)
Definition samplesKept (st : Tally) : Prop :=
  (forall f, Obj.get f (tallySamples st) =
             if (occurrencesIn f (itemAnalysis st) =? 0)%Z then None
             else Some (firstn 3 (truthyValues f (itemAnalysis st)))) /\
  Obj.keys (tallySamples st) = allFields st /\
  NoDup (allFields st).

(** What it maintains for the patterns under deep scan: the pattern of a
    field is the fold of analyzeFieldPattern over its truthy values. *)
Definition patternsKept {host : Host} (st : Tally) : Prop :=
  (forall f, Obj.get f (tallyPatterns st) =
             observeAll (truthyValues f (itemAnalysis st)) None) /\
  NoDup (Obj.keys (tallyPatterns st)).

(** The field names extractAllFields can write without deep scan. *)
Definition fixedFieldNames : list string :=
  (standardFields ++ ["link_rel"; "link_type"] ++ map fieldNameOf namespaceElements
   ++ ["extracted_images"])%list.

(** The value a standard element gives its field. *)
Definition trimmedText {host : Host} (el : Node) : FieldValue :=
  VString (string_trim (Dom.textContent el)).

(** What analyzeFieldPattern looks for in a value. *)
Definition isString (v : FieldValue) : bool :=
  match v with VString _ => true | _ => false end.

Definition notString (v : FieldValue) : bool := negb (isString v).

Definition htmlValue {host : Host} (v : FieldValue) : bool :=
  match v with VString s => regexp_test ReHtmlTag s | _ => false end.

Definition urlValue {host : Host} (v : FieldValue) : bool :=
  match v with VString s => regexp_test ReHttpUrl s | _ => false end.

Definition dateValue {host : Host} (v : FieldValue) : bool :=
  match v with VString s => isValidDate s | _ => false end.

(** A pattern summarises a sequence of values: each flag tells whether some
    value has the property, and the two sets hold the names that go with the
    flags and with the kinds of values seen. *)
Definition summarises {host : Host} (values : list FieldValue) (p : FieldPattern) : Prop :=
  hasHTML p = existsb htmlValue values /\
  hasURL p = existsb urlValue values /\
  hasDate p = existsb dateValue values /\
  (forall x, In x (formats p) <->
             (x = "html" /\ existsb htmlValue values = true) \/
             (x = "url" /\ existsb urlValue values = true) \/
             (x = "date" /\ existsb dateValue values = true) \/
             (x = "structured" /\ existsb notString values = true)) /\
  (forall x, In x (types p) <->
             (x = "string" /\ existsb isString values = true) \/
             (x = "object" /\ existsb notString values = true)).

(** The slots generateParsingInstructions reads a field from. *)
Definition requiredSlots : list string := ["title"; "link"; "description"; "date"].

(** The text instruction for a field. *)
Definition textInstruction (f : string) : string :=
  "item.querySelector('" ++ f ++ "')?.textContent".

(** The sample size and the deep scan setting analyzeRSSFeed runs with. *)
Definition sizeOf (inputs : AnalyzeRSSInputs) : JsNumber :=
  match sample_size inputs with Some n => n | None => Finite 5 end.

Definition deepOf (inputs : AnalyzeRSSInputs) : bool :=
  match deep_scan inputs with Some b => b | None => true end.

(** An analysis in which the four text slots and one image source are
    fully reliable. *)
Definition podcastExample : Analysis :=
  analysisOf [("title", 100%Q); ("link", 100%Q); ("description", 100%Q);
              ("pubDate", 100%Q); ("itunes_image", 100%Q)] [].

(** The warning validateDataQuality gives for markup in titles, and the
    advice checkCompatibility gives for markup in a field. *)
Definition titleMarkupWarning : Finding :=
  {| level := "warning"; message := "Title field contains HTML markup";
     field := "title"; reliability := None |}.

Definition markupAdvice (f : string) : Recommendation :=
  FieldAdvice f "Contains HTML - consider stripping tags".

(** The advice checkCompatibility gives for a namespace prefix, and the
    prefixes it gives none for. *)
Definition namespaceAdviceFor (ns : string) : Recommendation :=
  NamespaceAdvice ns ("Custom namespace '" ++ ns ++ "' detected - may need special handling").

Definition supportedNamespaces : list string := ["dc"; "content"; "media"; "atom"].

(** The keys of the channel information of an Atom feed and of the others. *)
Definition atomChannelKeys : list string := ["title"; "subtitle"; "updated"; "id"; "link"].

Definition rssChannelKeys : list string :=
  ["title"; "description"; "link"; "language"; "lastBuildDate"; "pubDate"].

(** Every key is a fixed field name or, under deep scan, starts with auto_. *)
Definition knownKeys (deepScan : bool) (o : ItemFields) : Prop :=
  forall k, In k (Obj.keys o) ->
            In k fixedFieldNames \/ (deepScan = true /\ Js.startsWith "auto_" k = true).

(** Every recorded namespace prefix is declared by an attribute. *)
Definition declared (attrs : list (string * string)) (o : Obj.t string) : Prop :=
  forall k, Obj.has k o = true ->
            k <> "__proto__" /\ exists uri, In ("xmlns:" ++ k, uri) attrs.

(** * Properties *)

(** ** Objects *)

Lemma get_set_same {V : Type} (k : string) (v : V) (o : Obj.t V) :
  Obj.get k (Obj.set k v o) = Some v.
Proof.
  induction o as [|[k' v'] r IH]; simpl.
  - now rewrite String.eqb_refl.
  - destruct (String.eqb k k') eqn:E; simpl.
    + now rewrite String.eqb_refl.
    + now rewrite E.
Qed.

Lemma get_set_other {V : Type} (k k' : string) (v : V) (o : Obj.t V) :
  String.eqb k k' = false -> Obj.get k (Obj.set k' v o) = Obj.get k o.
Proof.
  intros Hne. induction o as [|[k0 v0] r IH]; simpl.
  - now rewrite Hne.
  - destruct (String.eqb k' k0) eqn:E; simpl.
    + apply String.eqb_eq in E. subst k0. now rewrite Hne.
    + destruct (String.eqb k k0); auto.
Qed.

Lemma get_set {V : Type} (k k' : string) (v : V) (o : Obj.t V) :
  Obj.get k (Obj.set k' v o) = if String.eqb k k' then Some v else Obj.get k o.
Proof.
  destruct (String.eqb k k') eqn:E.
  - apply String.eqb_eq in E. subst. apply get_set_same.
  - now apply get_set_other.
Qed.

Lemma has_keys {V : Type} (k : string) (o : Obj.t V) :
  Obj.has k o = true <-> In k (Obj.keys o).
Proof.
  unfold Obj.has, Obj.keys. induction o as [|[k' v'] r IH]; simpl.
  - split; [discriminate | tauto].
  - destruct (String.eqb k k') eqn:E.
    + apply String.eqb_eq in E. subst. tauto.
    + rewrite IH. split; [tauto|]. intros [H|H]; auto.
      subst. rewrite String.eqb_refl in E. discriminate.
Qed.

Lemma keys_set {V : Type} (k : string) (v : V) (o : Obj.t V) :
  Obj.keys (Obj.set k v o) =
  if Obj.has k o then Obj.keys o else (Obj.keys o ++ [k])%list.
Proof.
  unfold Obj.has, Obj.keys. induction o as [|[k' v'] r IH]; simpl; auto.
  destruct (String.eqb k k') eqn:E; simpl.
  - apply String.eqb_eq in E. now subst.
  - rewrite IH. now destruct (Obj.get k r).
Qed.

Lemma NoDup_snoc {A : Type} (l : list A) (x : A) :
  NoDup l -> ~ In x l -> NoDup (l ++ [x]).
Proof.
  induction 1 as [|y l Hy Hl IH]; simpl; intros Hx.
  - constructor; [tauto | constructor].
  - constructor.
    + rewrite in_app_iff. simpl. intros [H|[H|[]]]; [tauto | subst; tauto].
    + apply IH. tauto.
Qed.

Lemma NoDup_keys_set {V : Type} (k : string) (v : V) (o : Obj.t V) :
  NoDup (Obj.keys o) -> NoDup (Obj.keys (Obj.set k v o)).
Proof.
  intros H. rewrite keys_set. destruct (Obj.has k o) eqn:E; auto.
  apply NoDup_snoc; auto. rewrite <- has_keys. now rewrite E.
Qed.

(** ** C5 *)

Lemma clamp_max_min (x : Z) : Z.max 0 (Z.min 100 x) = clamp 0 100 x.
Proof.
  unfold clamp.
  destruct (Z.ltb_spec x 0); [lia|].
  destruct (Z.ltb_spec 100 x); lia.
Qed.

(** C5: the quality score is 100 minus 20 for each issue and 5 for each
    warning, clamped to the interval from 0 to 100, and a validation result
    is valid exactly when its list of issues is empty, whatever its warnings
    and suggestions are. *)
Theorem C5_quality_score_and_validity :
  (forall (A B : Type) (issues : list A) (warnings : list B),
      calculateQualityScore issues warnings =
      clamp 0 100 (100 - 20 * Z.of_nat (List.length issues)
                       - 5 * Z.of_nat (List.length warnings))) /\
  (forall a : Analysis,
      qualityScore (validateDataQuality a) =
      clamp 0 100 (100 - 20 * Z.of_nat (List.length (issues (validateDataQuality a)))
                       - 5 * Z.of_nat (List.length (warnings (validateDataQuality a)))) /\
      (isValid (validateDataQuality a) = true <-> issues (validateDataQuality a) = [])).
Proof.
  assert (H : forall (A B : Type) (i : list A) (w : list B),
             calculateQualityScore i w =
             clamp 0 100 (100 - 20 * Z.of_nat (List.length i) - 5 * Z.of_nat (List.length w))).
  { intros. unfold calculateQualityScore. rewrite clamp_max_min. f_equal. lia. }
  split; [exact H|].
  intros a. split.
  - unfold validateDataQuality. simpl. apply H.
  - unfold validateDataQuality. simpl.
    destruct (fst (itemsFindings (itemCount a)) ++ requiredFindings (fieldReliability a))%list;
      simpl; split; congruence.
Qed.

(** ** C2 *)

Lemma optGe_reaches (rel : Obj.t Q) (th : Q) (f : string) :
  optGe (Obj.get f rel) th = true <-> reaches rel th f.
Proof.
  unfold reaches, optGe. destruct (Obj.get f rel) as [r|].
  - rewrite Qle_bool_iff. split.
    + intros H. now exists r.
    + intros [r' [E H]]. now inversion E; subst.
  - split; [discriminate | intros [r [E _]]; discriminate].
Qed.

Lemma Qgtb_true (a b : Q) : Qgtb a b = true <-> (b < a)%Q.
Proof.
  unfold Qgtb. rewrite negb_true_iff. split.
  - intros H. apply Qnot_le_lt. intros Hle. apply Qle_bool_iff in Hle. congruence.
  - intros H. destruct (Qle_bool a b) eqn:E; auto.
    apply Qle_bool_iff in E. exfalso. apply (Qlt_not_le _ _ H E).
Qed.

Lemma Qgtb_false (a b : Q) : Qgtb a b = false <-> (a <= b)%Q.
Proof.
  unfold Qgtb. rewrite negb_false_iff. apply Qle_bool_iff.
Qed.

Lemma firstReaching_first (rel : Obj.t Q) (th : Q) (pre post : list string) (f : string) :
  reaches rel th f ->
  (forall g, In g pre -> ~ reaches rel th g) ->
  firstReaching (pre ++ f :: post) rel th = Some f.
Proof.
  intros Hf. induction pre as [|g pre IH]; simpl; intros Hpre.
  - apply optGe_reaches in Hf. now rewrite Hf.
  - destruct (optGe (Obj.get g rel) th) eqn:E.
    + apply optGe_reaches in E. exfalso. apply (Hpre g); auto.
    + apply IH. intros g' Hg'. apply Hpre. auto.
Qed.

Lemma firstReaching_none (rel : Obj.t Q) (th : Q) (l : list string) :
  (forall g, In g l -> ~ reaches rel th g) ->
  firstReaching l rel th = None.
Proof.
  induction l as [|g l IH]; simpl; intros H; auto.
  destruct (optGe (Obj.get g rel) th) eqn:E.
  - apply optGe_reaches in E. exfalso. apply (H g); auto.
  - apply IH. intros g' Hg'. apply H. auto.
Qed.

(** Once the best score is at least every remaining score, the second loop
    changes nothing. *)
Lemma mostReliable_settled (rel : Obj.t Q) (l : list string) (best : option string) (bs : Q) :
  (0 <= bs)%Q ->
  (forall g, In g l -> (scoreOf rel g <= bs)%Q) ->
  mostReliable l rel best bs = best.
Proof.
  intros Hbs. induction l as [|g l IH]; simpl; intros H; auto.
  assert (Hg := H g (or_introl eq_refl)). unfold scoreOf in Hg.
  destruct (Obj.get g rel) as [r|]; simpl in Hg.
  - apply Qgtb_false in Hg. rewrite Hg. apply IH. intros; apply H; auto.
  - apply IH. intros; apply H; auto.
Qed.

Lemma mostReliable_first_max (rel : Obj.t Q) (f : string) (post : list string) :
  (forall g, In g post -> (scoreOf rel g <= scoreOf rel f)%Q) ->
  forall (pre : list string) (best : option string) (bs : Q),
    (0 <= bs)%Q -> (bs < scoreOf rel f)%Q ->
    (forall g, In g pre -> (scoreOf rel g < scoreOf rel f)%Q) ->
    mostReliable (pre ++ f :: post) rel best bs = Some f.
Proof.
  intros Hpost. induction pre as [|g pre IH]; simpl; intros best bs H0 Hbs Hpre.
  - unfold scoreOf in Hbs, Hpost |- *.
    destruct (Obj.get f rel) as [r|] eqn:E; simpl in *.
    + apply Qgtb_true in Hbs. rewrite Hbs.
      apply mostReliable_settled.
      * apply Qgtb_true in Hbs. lra.
      * intros g Hg. unfold scoreOf. now apply Hpost.
    + lra.
  - assert (Hg := Hpre g (or_introl eq_refl)).
    assert (Hrest : forall g', In g' pre -> (scoreOf rel g' < scoreOf rel f)%Q)
      by (intros; apply Hpre; auto).
    unfold scoreOf in Hg at 1.
    destruct (Obj.get g rel) as [r|]; simpl in Hg.
    + destruct (Qgtb r bs) eqn:E.
      * apply Qgtb_true in E. apply IH; auto. lra.
      * apply IH; auto.
    + apply IH; auto.
Qed.

(** C2: findBestField returns the first candidate in list order whose
    reliability is at least the threshold; when no candidate reaches the
    threshold it returns the first candidate of highest reliability, provided
    that reliability is positive, and nothing when every candidate has
    reliability zero (an absent field counting for zero).  With candidates
    a, b, reliabilities a:40, b:95 and threshold 90 the result is b; with
    a:40, b:40 it is a. *)
Theorem C2_findBestField_selection :
  (forall (candidates : list string) (reliability : Obj.t Q) (threshold : Q),
      (forall pre f post,
          candidates = (pre ++ f :: post)%list ->
          reaches reliability threshold f ->
          (forall g, In g pre -> ~ reaches reliability threshold g) ->
          findBestField candidates reliability threshold = Some f) /\
      ((forall g, In g candidates -> ~ reaches reliability threshold g) ->
       (forall pre f post,
           candidates = (pre ++ f :: post)%list ->
           (0 < scoreOf reliability f)%Q ->
           (forall g, In g pre -> (scoreOf reliability g < scoreOf reliability f)%Q) ->
           (forall g, In g post -> (scoreOf reliability g <= scoreOf reliability f)%Q) ->
           findBestField candidates reliability threshold = Some f) /\
       ((forall g, In g candidates -> (scoreOf reliability g == 0)%Q) ->
        findBestField candidates reliability threshold = None))) /\
  (forall a b : string,
      findBestField [a; b] [(a, 40%Q); (b, 95%Q)] 90%Q = Some b /\
      findBestField [a; b] [(a, 40%Q); (b, 40%Q)] 90%Q = Some a).
Proof.
  split.
  - intros candidates reliability threshold. split.
    + intros pre f post -> Hf Hpre. unfold findBestField.
      now rewrite firstReaching_first.
    + intros Hnone. unfold findBestField. rewrite firstReaching_none by assumption. split.
      * intros pre f post -> Hpos Hpre Hpost.
        apply mostReliable_first_max; auto. lra.
      * intros Hzero. apply mostReliable_settled; [lra|].
        intros g Hg. rewrite (Hzero g Hg). lra.
  - intros a b. unfold findBestField. simpl. rewrite !String.eqb_refl.
    destruct (String.eqb b a) eqn:E.
    + apply String.eqb_eq in E. subst. simpl. split; reflexivity.
    + simpl. split; reflexivity.
Qed.

(** The selection rule of C2 at work on a three-candidate list: the
    threshold case, the best-effort case and the empty case. *)
Lemma C2_findBestField_witness :
  findBestField ["link"; "guid"; "id"] [("link", 40%Q); ("guid", 95%Q); ("id", 100%Q)] 90%Q
    = Some "guid" /\
  findBestField ["link"; "guid"; "id"] [("link", 40%Q); ("guid", 60%Q); ("id", 60%Q)] 90%Q
    = Some "guid" /\
  findBestField ["link"; "guid"; "id"] [("title", 100%Q)] 90%Q = None.
Proof.
  pose (rel1 := [("link", 40%Q); ("guid", 95%Q); ("id", 100%Q)] : Obj.t Q).
  pose (rel2 := [("link", 40%Q); ("guid", 60%Q); ("id", 60%Q)] : Obj.t Q).
  pose (rel3 := [("title", 100%Q)] : Obj.t Q).
  assert (N : forall (rel : Obj.t Q) g, Obj.get g rel = None -> ~ reaches rel 90%Q g).
  { intros rel g E [r [E' _]]. congruence. }
  assert (L : forall (rel : Obj.t Q) g r, Obj.get g rel = Some r -> (r < 90)%Q ->
                                          ~ reaches rel 90%Q g).
  { intros rel g r E Hr [r' [E' H']]. rewrite E in E'. inversion E'; subst. lra. }
  split; [|split].
  - apply (proj1 (proj1 C2_findBestField_selection ["link"; "guid"; "id"] rel1 90%Q)
             ["link"] "guid" ["id"] eq_refl).
    + exists 95%Q. split; [reflexivity | lra].
    + intros g [<-|[]]. apply (L rel1 "link" 40%Q); [reflexivity | lra].
  - apply (proj1 (proj2 (proj1 C2_findBestField_selection ["link"; "guid"; "id"] rel2 90%Q)
             ltac:(intros g [<-|[<-|[<-|[]]]];
                   [apply (L rel2 "link" 40%Q) | apply (L rel2 "guid" 60%Q)
                    | apply (L rel2 "id" 60%Q)]; (reflexivity || lra)))
             ["link"] "guid" ["id"] eq_refl).
    + unfold scoreOf; simpl; lra.
    + intros g [<-|[]]. unfold scoreOf; simpl; lra.
    + intros g [<-|[]]. unfold scoreOf; simpl; lra.
  - apply (proj2 (proj2 (proj1 C2_findBestField_selection ["link"; "guid"; "id"] rel3 90%Q)
             ltac:(intros g [<-|[<-|[<-|[]]]]; apply (N rel3); reflexivity))).
    intros g [<-|[<-|[<-|[]]]]; unfold scoreOf; simpl; reflexivity.
Defined.

(** ** C1 *)

Lemma insertByReliability_In (x y : ImageField.t) (l : list ImageField.t) :
  In y (insertByReliability x l) <-> y = x \/ In y l.
Proof.
  induction l as [|z l IH]; simpl.
  - intuition.
  - destruct (Qgtb (ImageField.reliability z) (ImageField.reliability x)); simpl.
    + rewrite IH. intuition.
    + intuition.
Qed.

Lemma sortByReliability_In (y : ImageField.t) (l : list ImageField.t) :
  In y (sortByReliability l) <-> In y l.
Proof.
  induction l as [|x l IH]; simpl; [tauto|].
  rewrite insertByReliability_In, IH. intuition.
Qed.

Lemma insertByReliability_headMost (x : ImageField.t) (l : list ImageField.t) :
  headMost l -> headMost (insertByReliability x l).
Proof.
  destruct l as [|z l]; simpl.
  - intros _ y [<-|[]]. lra.
  - intros H. destruct (Qgtb (ImageField.reliability z) (ImageField.reliability x)) eqn:E; simpl.
    + apply Qgtb_true in E. intros y [<-|Hy]; [lra|].
      apply insertByReliability_In in Hy. destruct Hy as [->|Hy]; [lra|].
      apply H. auto.
    + apply Qgtb_false in E. intros y [<-|[<-|Hy]]; [lra | lra |].
      assert (Hz := H y (or_intror Hy)). lra.
Qed.

Lemma sortByReliability_headMost (l : list ImageField.t) : headMost (sortByReliability l).
Proof.
  induction l as [|x l IH]; simpl; auto.
  now apply insertByReliability_headMost.
Qed.

Lemma sortByReliability_head (l : list ImageField.t) (x : ImageField.t) :
  In x l ->
  exists c, hd_error (sortByReliability l) = Some c /\ In c l /\
            forall y, In y l -> (ImageField.reliability y <= ImageField.reliability c)%Q.
Proof.
  intros Hx. assert (Hm := sortByReliability_headMost l).
  destruct (sortByReliability l) as [|c s] eqn:E.
  - apply sortByReliability_In in Hx. rewrite E in Hx. destruct Hx.
  - exists c. simpl. split; [reflexivity|]. split.
    + apply sortByReliability_In. rewrite E. now left.
    + intros y Hy. apply Hm. rewrite <- E. now apply sortByReliability_In.
Qed.

Lemma pushIf_In (c : bool) (x y : ImageField.t) (l : list ImageField.t) :
  In y (pushIf c x l) <-> In y l \/ (c = true /\ y = x).
Proof.
  unfold pushIf. destruct c.
  - rewrite in_app_iff. simpl. intuition.
  - intuition. discriminate.
Qed.

(** Every collected candidate carries the reliability of its source field. *)
Lemma imageCandidates_reliability (rel : Obj.t Q) (smp : Obj.t (list FieldValue))
      (c : ImageField.t) :
  In c (imageCandidates rel smp) ->
  ImageField.reliability c = scoreOf rel (ImageField.source c).
Proof.
  unfold imageCandidates. rewrite !pushIf_In. simpl.
  intros H. repeat destruct H as [H|H]; try contradiction;
    destruct H as [_ ->]; reflexivity.
Qed.

(** C1, as the code has it: with media_content at reliability 60 and
    enclosure at 80 with an image-typed first sample, both candidates
    qualify, and findImageMapping returns a qualifying candidate of highest
    reliability.  That candidate has reliability at least 80 and is never
    media_content; it is enclosure whenever none of media_thumbnail,
    extracted_images and itunes_image qualifies. *)
Theorem C1_image_mapping_by_reliability :
  forall (a : Analysis) (rm re : Q),
    Obj.get "media_content" (fieldReliability a) = Some rm -> (rm == 60)%Q ->
    Obj.get "enclosure" (fieldReliability a) = Some re -> (re == 80)%Q ->
    declaredImage (firstSample "enclosure" a) = true ->
    In (candidate "media_content" "media" rm)
       (imageCandidates (fieldReliability a) (fieldSamples a)) /\
    In (candidate "enclosure" "enclosure" re)
       (imageCandidates (fieldReliability a) (fieldSamples a)) /\
    (exists c,
        findImageMapping a = Some c /\
        In c (imageCandidates (fieldReliability a) (fieldSamples a)) /\
        (forall c', In c' (imageCandidates (fieldReliability a) (fieldSamples a)) ->
                    (ImageField.reliability c' <= ImageField.reliability c)%Q) /\
        (80 <= ImageField.reliability c)%Q /\
        ImageField.source c <> "media_content") /\
    (optGt (Obj.get "media_thumbnail" (fieldReliability a)) 50 = false ->
     optGt (Obj.get "extracted_images" (fieldReliability a)) 30 = false ->
     optGt (Obj.get "itunes_image" (fieldReliability a)) 50 = false ->
     findImageMapping a = Some (candidate "enclosure" "enclosure" re)).
Proof.
  intros a rm re Hm Hrm He Hre Himg.
  assert (Gm : optGt (Obj.get "media_content" (fieldReliability a)) 50 = true).
  { rewrite Hm. simpl. apply Qgtb_true. lra. }
  assert (Ge : optGt (Obj.get "enclosure" (fieldReliability a)) 50 = true).
  { rewrite He. simpl. apply Qgtb_true. lra. }
  assert (Im : In (candidate "media_content" "media" rm)
                  (imageCandidates (fieldReliability a) (fieldSamples a))).
  { unfold imageCandidates. rewrite !pushIf_In. do 4 left. right.
    split; [exact Gm|]. unfold candidate. now rewrite Hm. }
  assert (Ie : In (candidate "enclosure" "enclosure" re)
                  (imageCandidates (fieldReliability a) (fieldSamples a))).
  { unfold imageCandidates. rewrite !pushIf_In. do 2 left. right.
    split.
    - rewrite Ge. exact Himg.
    - unfold candidate. now rewrite He. }
  split; [exact Im|]. split; [exact Ie|]. split.
  - destruct (sortByReliability_head _ _ Ie) as [c [Hc [Hin Hmax]]].
    exists c. split; [exact Hc|]. split; [exact Hin|]. split; [exact Hmax|].
    assert (H80 : (80 <= ImageField.reliability c)%Q).
    { assert (H := Hmax _ Ie). simpl in H. lra. }
    split; [exact H80|].
    intros Hsrc. assert (Hr := imageCandidates_reliability _ _ _ Hin).
    rewrite Hsrc in Hr. unfold scoreOf in Hr. rewrite Hm in Hr. simpl in Hr.
    rewrite Hr in H80. lra.
  - intros Gt Gx Gi. unfold findImageMapping, imageCandidates.
    rewrite Gm, Gt, Ge, Gx, Gi. fold (firstSample "enclosure" a). rewrite Himg.
    rewrite Hm, He. simpl.
    assert (G : Qgtb re rm = true) by (apply Qgtb_true; lra).
    rewrite G. reflexivity.
Qed.

(** The example analysis meets the hypotheses of C1 and the result there is
    the enclosure candidate. *)
Lemma C1_image_mapping_witness :
  findImageMapping imageExample = Some (candidate "enclosure" "enclosure" 80%Q).
Proof.
  apply (proj2 (proj2 (proj2
           (@C1_image_mapping_by_reliability imageExample 60%Q 80%Q eq_refl (Qeq_refl _)
              eq_refl (Qeq_refl _) eq_refl)))); reflexivity.
Defined.

(** C1 as stated fails: on the example analysis (media_content 60, enclosure
    80, image-typed first enclosure sample) the result is enclosure, not
    media_content. *)
Lemma C1_counterexample_enclosure_returned :
  Obj.get "media_content" (fieldReliability imageExample) = Some 60%Q /\
  Obj.get "enclosure" (fieldReliability imageExample) = Some 80%Q /\
  declaredImage (firstSample "enclosure" imageExample) = true /\
  option_map ImageField.source (findImageMapping imageExample) = Some "enclosure" /\
  option_map ImageField.source (findImageMapping imageExample) <> Some "media_content".
Proof.
  repeat split; try reflexivity. discriminate.
Qed.

(** ** C9 *)

Section RunningMean.

Context {host : Host}.

Lemma analyzeFieldPattern_string (s : string) (prior : option FieldPattern) :
  let p := match prior with Some p => p | None => newPattern end in
  samples (analyzeFieldPattern (VString s) prior) = (samples p + 1)%Z /\
  avgLength (analyzeFieldPattern (VString s) prior) =
  fst (meanStep64 (avgLength p, samples p) (Z.of_nat (String.length s))).
Proof.
  unfold analyzeFieldPattern. simpl.
  destruct (regexp_test ReHtmlTag s), (regexp_test ReHttpUrl s), (isValidDate s);
    simpl; split; reflexivity.
Qed.

Lemma observeAll_strings (values : list string) :
  forall p : FieldPattern,
    exists p', observeAll (map VString values) (Some p) = Some p' /\
               (avgLength p', samples p') =
               fold_left meanStep64 (lengthsOf values) (avgLength p, samples p).
Proof.
  induction values as [|s values IH]; intros p.
  - exists p. split; reflexivity.
  - destruct (IH (analyzeFieldPattern (VString s) (Some p))) as [p' [E Hm]].
    exists p'. split; [exact E|]. rewrite Hm.
    destruct (analyzeFieldPattern_string s (Some p)) as [En Ea].
    cbv beta iota zeta in En, Ea. rewrite En, Ea. reflexivity.
Qed.

Lemma fold_meanStep64_count (lens : list Z) :
  forall st, snd (fold_left meanStep64 lens st) = (snd st + Z.of_nat (List.length lens))%Z.
Proof.
  induction lens as [|len lens IH]; intros [avg n]; simpl fold_left.
  - simpl. lia.
  - rewrite IH. simpl. lia.
Qed.

Lemma observeAll_mean (values : list string) :
  values <> [] ->
  exists p, observeAll (map VString values) None = Some p /\
            samples p = Z.of_nat (List.length values) /\
            avgLength p = runningMean64 (lengthsOf values).
Proof.
  intros Hne. destruct values as [|s values]; [congruence|].
  destruct (observeAll_strings (s :: values) newPattern) as [p [E Hm]].
  exists p. split; [exact E|].
  change (avgLength newPattern, samples newPattern) with (0%float, 0%Z) in Hm.
  split.
  - change (samples p) with (snd (avgLength p, samples p)).
    rewrite Hm, fold_meanStep64_count. unfold lengthsOf. rewrite length_map. simpl snd. lia.
  - change (avgLength p) with (fst (avgLength p, samples p)). now rewrite Hm.
Qed.

Lemma three_five_seven (lens : list Z) :
  Permutation [3; 5; 7]%Z lens ->
  In lens [[3; 5; 7]; [3; 7; 5]; [5; 3; 7]; [5; 7; 3]; [7; 3; 5]; [7; 5; 3]]%Z.
Proof.
  intros H.
  assert (L := Permutation_length H).
  assert (N : NoDup lens).
  { apply (Permutation_NoDup H). repeat (constructor; [simpl; lia|]). constructor. }
  destruct lens as [|x [|y [|z [|w r]]]]; try discriminate.
  assert (Hx : In x [3; 5; 7]%Z) by (apply (Permutation_in _ (Permutation_sym H)); simpl; auto).
  assert (Hy : In y [3; 5; 7]%Z) by (apply (Permutation_in _ (Permutation_sym H)); simpl; auto).
  assert (Hz : In z [3; 5; 7]%Z) by (apply (Permutation_in _ (Permutation_sym H)); simpl; auto).
  inversion N as [|? ? Nx N']; subst. inversion N' as [|? ? Ny N'']; subst.
  simpl in Hx, Hy, Hz, Nx, Ny.
  destruct Hx as [<-|[<-|[<-|[]]]]; destruct Hy as [<-|[<-|[<-|[]]]];
    destruct Hz as [<-|[<-|[<-|[]]]]; simpl; tauto.
Qed.

End RunningMean.

(** C9, as the code has it: folding a sequence of string values through
    analyzeFieldPattern leaves an average length that is the running mean of
    their lengths in binary64: each observation computes
    [(avg * n + length) / (n + 1)] with every operation rounded, so that the
    result is determined by the lengths and their order, and by nothing else
    in the values.  Values of lengths 3, 5 and 7 give the average 5 exactly
    in each of their six orders. *)
Theorem C9_average_length_is_mean :
  forall host : Host,
    (forall values : list string,
        values <> [] ->
        exists p, observeAll (map VString values) None = Some p /\
                  samples p = Z.of_nat (List.length values) /\
                  avgLength p = runningMean64 (lengthsOf values)) /\
    (forall (s3 s5 s7 : string) (values : list string),
        String.length s3 = 3%nat -> String.length s5 = 5%nat -> String.length s7 = 7%nat ->
        Permutation [s3; s5; s7] values ->
        exists p, observeAll (map VString values) None = Some p /\
                  samples p = 3%Z /\ avgLength p = 5%float).
Proof.
  intros host. split.
  - intros values Hne. now apply observeAll_mean.
  - intros s3 s5 s7 values H3 H5 H7 Hperm.
    assert (Hne : values <> []).
    { intros ->. apply Permutation_sym, Permutation_nil in Hperm. discriminate. }
    destruct (@observeAll_mean host values Hne) as [p [E [Hn Hp]]].
    exists p. split; [exact E|]. split.
    + rewrite Hn, <- (Permutation_length Hperm). reflexivity.
    + rewrite Hp.
      assert (HP : Permutation [3; 5; 7]%Z (lengthsOf values)).
      { unfold lengthsOf.
        replace [3; 5; 7]%Z with (map (fun s => Z.of_nat (String.length s)) [s3; s5; s7])
          by (simpl; rewrite H3, H5, H7; reflexivity).
        now apply Permutation_map. }
      apply three_five_seven in HP. simpl in HP.
      destruct HP as [<-|[<-|[<-|[<-|[<-|[<-|[]]]]]]]; reflexivity.
Qed.

(** C9 on the demonstration host: three strings of lengths 7, 3 and 5. *)
Lemma C9_average_length_witness :
  exists p, observeAll (host := Demo.host) (map VString ["seventy"; "abc"; "hello"]) None = Some p /\
            samples p = 3%Z /\ avgLength p = 5%float.
Proof.
  apply (proj2 (C9_average_length_is_mean Demo.host) "abc" "hello" "seventy");
    try reflexivity.
  apply perm_trans with ["abc"; "seventy"; "hello"];
    [apply perm_skip, perm_swap | apply perm_swap].
Defined.

(** C9 as stated fails: strings of lengths 5, 12, 12, 8, 10, 3, 11, 3, whose
    mean length is 8, observed in this order leave an average below 8, and
    observed in the reverse order leave exactly 8. *)
Lemma C9_counterexample_binary64_order :
  exists p p',
    observeAll (host := Demo.host)
               (map VString (map padding [5; 12; 12; 8; 10; 3; 11; 3]%nat)) None = Some p /\
    observeAll (host := Demo.host)
               (map VString (rev (map padding [5; 12; 12; 8; 10; 3; 11; 3]%nat))) None = Some p' /\
    lengthsOf (map padding [5; 12; 12; 8; 10; 3; 11; 3]%nat) = [5; 12; 12; 8; 10; 3; 11; 3]%Z /\
    (5 + 12 + 12 + 8 + 10 + 3 + 11 + 3 = 8 * 8)%Z /\
    PrimFloat.ltb (avgLength p) 8%float = true /\
    avgLength p' = 8%float /\
    PrimFloat.eqb (avgLength p) (avgLength p') = false.
Proof.
  eexists. eexists. split; [vm_compute; reflexivity|]. split; [vm_compute; reflexivity|].
  repeat split.
Qed.

(** ** C4 *)

Lemma hd_filter_first {A : Type} (f : A -> bool) (pre post : list A) (x : A) :
  f x = true -> (forall y, In y pre -> f y = false) ->
  hd_error (filter f (pre ++ x :: post)) = Some x.
Proof.
  intros Hx. induction pre as [|y pre IH]; simpl; intros Hpre.
  - now rewrite Hx.
  - rewrite (Hpre y (or_introl eq_refl)). apply IH. auto.
Qed.

Lemma hd_filter_none {A : Type} (f : A -> bool) (l : list A) :
  (forall y, In y l -> f y = false) -> hd_error (filter f l) = None.
Proof.
  induction l as [|y l IH]; simpl; intros H; auto.
  rewrite (H y (or_introl eq_refl)). apply IH. auto.
Qed.

Lemma hd_filter_some {A : Type} (f : A -> bool) (l : list A) (x : A) :
  In x l -> f x = true -> exists y, hd_error (filter f l) = Some y.
Proof.
  intros Hin Hx. assert (H : In x (filter f l)) by (apply filter_In; auto).
  destruct (filter f l) as [|y r]; [destruct H | now exists y].
Qed.

(** C4, as the code has it: detectFeedType is total.  When some element
    matches the selector rss, the result is the string rss followed by the
    version attribute of the first such element in document order, or by 2.0
    when that attribute is missing or empty; so the results range over an
    open family of strings and not over four values.  Otherwise the result
    is atom when some element matches feed, else rss1.0 when some element
    matches the RDF selector, else unknown.  A root element matching rss is
    the first element in document order. *)
Theorem C4_detectFeedType_cases :
  forall (host : Host) (doc : Document),
    (forall pre rss post,
        Dom.elements doc = (pre ++ rss :: post)%list ->
        matches "rss" rss = true ->
        (forall e, In e pre -> matches "rss" e = false) ->
        detectFeedType doc = "rss" ++ Js.orStr (versionOf rss) "2.0") /\
    (forall root,
        documentElement doc = Some root -> Dom.isElement root = true ->
        matches "rss" root = true ->
        detectFeedType doc = "rss" ++ Js.orStr (versionOf root) "2.0") /\
    ((forall e, In e (Dom.elements doc) -> matches "rss" e = false) ->
     (forall feed, In feed (Dom.elements doc) -> matches "feed" feed = true ->
                   detectFeedType doc = "atom") /\
     ((forall e, In e (Dom.elements doc) -> matches "feed" e = false) ->
      (forall rdf, In rdf (Dom.elements doc) -> matches "rdf\:RDF, RDF" rdf = true ->
                   detectFeedType doc = "rss1.0") /\
      ((forall e, In e (Dom.elements doc) -> matches "rdf\:RDF, RDF" e = false) ->
       detectFeedType doc = "unknown"))) /\
    ((exists v, v <> "" /\ detectFeedType doc = "rss" ++ v) \/
     In (detectFeedType doc) ["atom"; "rss1.0"; "unknown"]).
Proof.
  intros host doc.
  assert (Hfirst : forall pre rss post,
             Dom.elements doc = (pre ++ rss :: post)%list ->
             matches "rss" rss = true ->
             (forall e, In e pre -> matches "rss" e = false) ->
             detectFeedType doc = "rss" ++ Js.orStr (versionOf rss) "2.0").
  { intros pre rss post E Hr Hpre. unfold detectFeedType, docQuerySelector, docQuerySelectorAll.
    rewrite E, hd_filter_first by assumption. reflexivity. }
  split; [exact Hfirst|]. split; [|split].
  - intros root Hroot Hel Hr. apply (Hfirst [] root (List.tl (Dom.elements doc))); auto.
    + unfold Dom.elements. rewrite Hroot. destruct root; [reflexivity | discriminate].
    + intros e [].
  - intros Hrss. unfold detectFeedType, docQuerySelector, docQuerySelectorAll.
    rewrite hd_filter_none by assumption. split.
    + intros feed Hin Hf.
      destruct (@hd_filter_some _ (matches "feed") _ _ Hin Hf) as [y ->]. reflexivity.
    + intros Hfeed. rewrite hd_filter_none by assumption. split.
      * intros rdf Hin Hf.
        destruct (@hd_filter_some _ (matches "rdf\:RDF, RDF") _ _ Hin Hf) as [y ->].
        reflexivity.
      * intros Hrdf. now rewrite hd_filter_none by assumption.
  - unfold detectFeedType.
    destruct (docQuerySelector doc "rss") as [rss|].
    + left. exists (Js.orStr (match Dom.getAttribute "version" rss with
                              | Some v => v | None => "" end) "2.0").
      split; [|reflexivity].
      unfold Js.orStr.
      destruct (Js.truthyStr _) eqn:E; [|discriminate].
      intros H. rewrite H in E. discriminate.
    + right. destruct (docQuerySelector doc "feed"); [simpl; auto|].
      destruct (docQuerySelector doc "rdf\:RDF, RDF"); simpl; auto.
Qed.

(** C4 on the demonstration host: an RSS 0.91 document. *)
Lemma C4_detectFeedType_witness :
  detectFeedType (host := Demo.host) Demo.rss091Doc = "rss0.91".
Proof.
  apply (proj1 (proj2 (C4_detectFeedType_cases Demo.host Demo.rss091Doc))
           (Demo.el "rss" [("version", "0.91")] [Demo.el "channel" [] [Demo.leaf "title" "Old"]]));
    reflexivity.
Defined.

(** C4 as stated fails: the type detected for an RSS 0.91 document is none
    of the four strings that stand for RSS1, RSS2, Atom and Unknown. *)
Lemma C4_counterexample_open_family :
  detectFeedType (host := Demo.host) Demo.rss091Doc = "rss0.91" /\
  ~ In (detectFeedType (host := Demo.host) Demo.rss091Doc) closedFeedTypes.
Proof.
  split; [reflexivity|].
  change (detectFeedType Demo.rss091Doc) with "rss0.91".
  unfold closedFeedTypes. simpl. intuition discriminate.
Qed.

(** ** C7 *)

Lemma prefix_append (p x : string) : String.prefix p (p ++ x) = true.
Proof.
  induction p as [|a p IH]; simpl.
  - now destruct x.
  - destruct (ascii_dec a a); [exact IH | contradiction].
Qed.

Lemma fetchFeed_run {host : Host} (u : string) (t : Trace) :
  fetchFeed u t =
  (if response_success (http_request (feedRequest u))
   then inr (response_body (http_request (feedRequest u)))
   else inl (newError ("Failed to fetch feed: " ++
                       match response_status (http_request (feedRequest u)) with
                       | Some s => if (s =? 0)%Z then "Unknown error" else Js.showZ s
                       | None => "Unknown error"
                       end)),
   (t ++ [feedRequest u])%list).
Proof.
  unfold fetchFeed, bind, request. fold (feedRequest u).
  destruct (response_success (http_request (feedRequest u))); reflexivity.
Qed.

Lemma analyzeRSSFeed_run {host : Host} (inputs : AnalyzeRSSInputs) (u : string) (t : Trace) :
  feed_url inputs = Some u -> u <> "" ->
  analyzeRSSFeed inputs t =
  (if response_success (http_request (feedRequest u)) then
     match analyzeFeedStructure (response_body (http_request (feedRequest u)))
                                (match sample_size inputs with Some n => n | None => Finite 5 end)
                                (match deep_scan inputs with Some b => b | None => true end) with
     | inr a => Succeeded u a (generateFieldMappings a) (validateDataQuality a)
                          (checkCompatibility a) now
     | inl e => Failed (Js.orStr (error_message e) "Failed to analyze feed")
                       (match error_stack e with
                        | Some s => if Js.truthyStr s then Some s else None
                        | None => None
                        end)
     end
   else
     Failed ("Failed to fetch feed: " ++
             match response_status (http_request (feedRequest u)) with
             | Some s => if (s =? 0)%Z then "Unknown error" else Js.showZ s
             | None => "Unknown error"
             end)
            (detailsOf ("Failed to fetch feed: " ++
                        match response_status (http_request (feedRequest u)) with
                        | Some s => if (s =? 0)%Z then "Unknown error" else Js.showZ s
                        | None => "Unknown error"
                        end)),
   (t ++ [feedRequest u])%list).
Proof.
  intros Hu Hne. unfold analyzeRSSFeed. rewrite Hu.
  assert (T : Js.truthyStr u = true).
  { unfold Js.truthyStr. destruct (String.eqb u "") eqn:E; auto.
    apply String.eqb_eq in E. contradiction. }
  rewrite T. cbn [negb]. cbv beta iota.
  unfold tryCatch, bind. rewrite fetchFeed_run.
  destruct (response_success (http_request (feedRequest u))).
  - unfold lift, ret.
    destruct (analyzeFeedStructure _ _ _); reflexivity.
  - reflexivity.
Qed.

(** C7: without a feed_url the report is the validation failure and no
    request is made; a fetch failure or a parse error yields the single
    failure report with its error message and details, and only a feed that
    was fetched and parsed yields a report that carries an analysis. *)
Theorem C7_failures_abort_the_analysis :
  forall (host : Host) (inputs : AnalyzeRSSInputs) (t : Trace),
    ((feed_url inputs = None \/ feed_url inputs = Some "") ->
     analyzeRSSFeed inputs t = (Rejected "feed_url is required", t)) /\
    (forall u,
        feed_url inputs = Some u -> u <> "" ->
        (response_success (http_request (feedRequest u)) = false ->
         exists msg,
           Js.startsWith "Failed to fetch feed: " msg = true /\
           analyzeRSSFeed inputs t = (Failed msg (detailsOf msg), (t ++ [feedRequest u])%list)) /\
        (response_success (http_request (feedRequest u)) = true ->
         forall parseError,
           docQuerySelector (fetchedDocument u) "parsererror" = Some parseError ->
           analyzeRSSFeed inputs t =
           (Failed ("Invalid XML: " ++ Dom.textContent parseError)
                   (detailsOf ("Invalid XML: " ++ Dom.textContent parseError)),
            (t ++ [feedRequest u])%list)) /\
        (response_success (http_request (feedRequest u)) = true ->
         docQuerySelector (fetchedDocument u) "parsererror" = None ->
         success (fst (analyzeRSSFeed inputs t)) = true)) /\
    (forall feed_url a m v c stamp,
        fst (analyzeRSSFeed inputs t) = Succeeded feed_url a m v c stamp ->
        response_success (http_request (feedRequest feed_url)) = true /\
        docQuerySelector (fetchedDocument feed_url) "parsererror" = None).
Proof.
  intros host inputs t. split; [|split].
  - intros [H|H]; unfold analyzeRSSFeed; rewrite H; reflexivity.
  - intros u Hu Hne. rewrite (analyzeRSSFeed_run inputs t Hu Hne). split; [|split].
    + intros ->. eexists. split; [|reflexivity]. apply prefix_append.
    + intros -> pe Hpe. unfold analyzeFeedStructure.
      unfold fetchedDocument in Hpe. rewrite Hpe. reflexivity.
    + intros -> Hpe. unfold analyzeFeedStructure.
      unfold fetchedDocument in Hpe. rewrite Hpe. reflexivity.
  - intros u a m v c stamp H.
    destruct (feed_url inputs) as [u'|] eqn:Hu.
    + destruct (String.eqb u' "") eqn:E.
      * apply String.eqb_eq in E. subst u'.
        unfold analyzeRSSFeed in H. rewrite Hu in H. simpl in H. discriminate.
      * assert (Hne : u' <> "") by (intros ->; discriminate).
        rewrite (analyzeRSSFeed_run inputs t Hu Hne) in H. simpl in H.
        destruct (response_success (http_request (feedRequest u'))) eqn:Hs; [|discriminate].
        unfold analyzeFeedStructure in H. unfold fetchedDocument.
        destruct (docQuerySelector (parseFromString
                    (response_body (http_request (feedRequest u')))) "parsererror") eqn:Hp.
        -- discriminate.
        -- inversion H; subst. rewrite Hs, Hp. auto.
    + unfold analyzeRSSFeed in H. rewrite Hu in H. simpl in H. discriminate.
Qed.

(** C7 on the demonstration host: no URL, a URL that is not served, and a
    URL whose body is not well-formed. *)
Lemma C7_failures_witness :
  analyzeRSSFeed (host := Demo.host)
                 {| feed_url := None; sample_size := None; deep_scan := None |} []
    = (Rejected "feed_url is required", []) /\
  (exists msg,
      Js.startsWith "Failed to fetch feed: " msg = true /\
      analyzeRSSFeed (host := Demo.host) (Demo.inputs "https://x/none" None) []
      = (Failed msg (detailsOf (host := Demo.host) msg), [feedRequest "https://x/none"])) /\
  analyzeRSSFeed (host := Demo.host) (Demo.inputs "https://x/broken" None) []
    = (Failed "Invalid XML: unclosed tag" (Some "Error: Invalid XML: unclosed tag"),
       [feedRequest "https://x/broken"]).
Proof.
  split; [|split].
  - apply (proj1 (C7_failures_abort_the_analysis Demo.host _ [])). now left.
  - apply (proj1 (proj1 (proj2 (C7_failures_abort_the_analysis Demo.host
                                  (Demo.inputs "https://x/none" None) []))
                        "https://x/none" eq_refl ltac:(discriminate)) eq_refl).
  - apply (proj1 (proj2 (proj1 (proj2 (C7_failures_abort_the_analysis Demo.host
                                  (Demo.inputs "https://x/broken" None) []))
                        "https://x/broken" eq_refl ltac:(discriminate))) eq_refl
             (Demo.leaf "parsererror" "unclosed tag") eq_refl).
Defined.

(** ** C8 *)

Section Extraction.

Context {host : Host}.

Lemma eqb_auto (k tail : string) :
  Js.startsWith "auto_" k = false -> String.eqb k ("auto_" ++ tail) = false.
Proof.
  intros H. destruct (String.eqb k ("auto_" ++ tail)) eqn:E; auto.
  apply String.eqb_eq in E. subst k.
  unfold Js.startsWith in H. rewrite prefix_append in H. discriminate.
Qed.

Lemma namespaceStep_get (k : string) (item : Node) (fields : ItemFields) (sel : string) :
  String.eqb k (fieldNameOf sel) = false ->
  Obj.get k (namespaceStep item fields sel) = Obj.get k fields.
Proof.
  intros H. unfold namespaceStep.
  destruct (querySelector item sel) as [e|]; auto.
  destruct (String.eqb _ "enclosure"); [now apply get_set_other|].
  destruct (Js.includes "media" _); now apply get_set_other.
Qed.

Lemma namespaceSteps_get (k : string) (item : Node) (sels : list string) :
  forallb (fun sel => negb (String.eqb k (fieldNameOf sel))) sels = true ->
  forall fields,
    Obj.get k (fold_left (namespaceStep item) sels fields) = Obj.get k fields.
Proof.
  induction sels as [|sel sels IH]; simpl; intros H fields; auto.
  apply andb_true_iff in H. destruct H as [H1 H2].
  rewrite IH by exact H2. apply namespaceStep_get.
  now apply negb_true_iff.
Qed.

Lemma deepStep_get (k : string) (fields : ItemFields) (el : Node) :
  Js.startsWith "auto_" k = false ->
  Obj.get k (deepStep fields el) = Obj.get k fields.
Proof.
  intros H. unfold deepStep.
  destruct (negb _ && Js.truthyStr _); auto.
  destruct (negb (Nat.eqb (List.length (Dom.children el)) 0)); auto.
  destruct (negb (Nat.eqb (List.length (Dom.attributes el)) 0)).
  - rewrite get_set_other by now apply eqb_auto.
    apply get_set_other. now apply eqb_auto.
  - apply get_set_other. now apply eqb_auto.
Qed.

Lemma deepSteps_get (k : string) (els : list Node) :
  Js.startsWith "auto_" k = false ->
  forall fields, Obj.get k (fold_left deepStep els fields) = Obj.get k fields.
Proof.
  intros H. induction els as [|el els IH]; simpl; intros fields; auto.
  rewrite IH. now apply deepStep_get.
Qed.

Lemma imagesStep_get (k : string) (fields : ItemFields) :
  String.eqb k "extracted_images" = false ->
  Obj.get k (imagesStep fields) = Obj.get k fields.
Proof.
  intros H. unfold imagesStep.
  destruct (truthyOpt _); auto.
  destruct (negb _); auto. now apply get_set_other.
Qed.

(** A key that only the link step can write keeps the value that step gave it. *)
Lemma extractAllFields_link_keys (k : string) (item : Node) (deepScan : bool) :
  forallb (fun sel => negb (String.eqb k (fieldNameOf sel))) namespaceElements = true ->
  Js.startsWith "auto_" k = false ->
  String.eqb k "extracted_images" = false ->
  Obj.get k (extractAllFields item deepScan) =
  Obj.get k (linkStep item (fold_left (standardStep item) standardFields Obj.empty)).
Proof.
  intros Hns Hauto Himg. unfold extractAllFields.
  rewrite imagesStep_get by exact Himg.
  destruct deepScan.
  - rewrite deepSteps_get by exact Hauto. now apply namespaceSteps_get.
  - now apply namespaceSteps_get.
Qed.

End Extraction.

(** C8: when the item has a link element, the link field is the href
    attribute of that element if it has a non-empty one and its text content
    otherwise, and link_rel and link_type hold the rel and type attributes
    (null when the attribute is missing); an entry whose link element is
    link rel=alternate href=https://x/1 yields link https://x/1 and link_rel
    alternate. *)
Theorem C8_link_prefers_href :
  forall (host : Host) (item : Node) (deepScan : bool) (linkEl : Node),
    querySelector item "link" = Some linkEl ->
    (forall href, Dom.getAttribute "href" linkEl = Some href -> href <> "" ->
                  Obj.get "link" (extractAllFields item deepScan) = Some (VString href)) /\
    ((Dom.getAttribute "href" linkEl = None \/ Dom.getAttribute "href" linkEl = Some "") ->
     Obj.get "link" (extractAllFields item deepScan)
     = Some (VString (Dom.textContent linkEl))) /\
    Obj.get "link_rel" (extractAllFields item deepScan)
    = Some (nullable (Dom.getAttribute "rel" linkEl)) /\
    Obj.get "link_type" (extractAllFields item deepScan)
    = Some (nullable (Dom.getAttribute "type" linkEl)) /\
    (linkEl = Element "link" [("rel", "alternate"); ("href", "https://x/1")] [] ->
     Obj.get "link" (extractAllFields item deepScan) = Some (VString "https://x/1") /\
     Obj.get "link_rel" (extractAllFields item deepScan) = Some (VString "alternate")).
Proof.
  intros host item deepScan linkEl Hlink.
  assert (L : Obj.get "link" (extractAllFields item deepScan) =
              Some (VString (Js.orStr (match Dom.getAttribute "href" linkEl with
                                       | Some h => h | None => "" end)
                                      (Dom.textContent linkEl)))).
  { rewrite extractAllFields_link_keys by reflexivity.
    unfold linkStep. rewrite Hlink.
    rewrite get_set_other by reflexivity. rewrite get_set_other by reflexivity.
    apply get_set_same. }
  assert (R : Obj.get "link_rel" (extractAllFields item deepScan) =
              Some (nullable (Dom.getAttribute "rel" linkEl))).
  { rewrite extractAllFields_link_keys by reflexivity.
    unfold linkStep. rewrite Hlink.
    rewrite get_set_other by reflexivity. apply get_set_same. }
  assert (T : Obj.get "link_type" (extractAllFields item deepScan) =
              Some (nullable (Dom.getAttribute "type" linkEl))).
  { rewrite extractAllFields_link_keys by reflexivity.
    unfold linkStep. rewrite Hlink. apply get_set_same. }
  split; [|split; [|split; [|split]]].
  - intros href Hh Hne. rewrite L, Hh. unfold Js.orStr, Js.truthyStr.
    destruct (String.eqb href "") eqn:E; [|reflexivity].
    apply String.eqb_eq in E. contradiction.
  - intros [H|H]; rewrite L, H; reflexivity.
  - exact R.
  - exact T.
  - intros ->. rewrite L, R. split; reflexivity.
Qed.

(** C8 on the demonstration host: the first entry of the Atom document. *)
Lemma C8_link_witness :
  Obj.get "link" (extractAllFields (host := Demo.host) Demo.atomEntry true)
    = Some (VString "https://x/1") /\
  Obj.get "link_rel" (extractAllFields (host := Demo.host) Demo.atomEntry true)
    = Some (VString "alternate").
Proof.
  apply (proj2 (proj2 (proj2 (proj2
           (@C8_link_prefers_href Demo.host Demo.atomEntry true
              (Element "link" [("rel", "alternate"); ("href", "https://x/1")] [])
              eq_refl)))) eq_refl).
Defined.

(** ** The sampling loop *)

Section Sampling.

Context {host : Host}.

Lemma fieldSteps_patterns_off (itemFields : ItemFields) (ks : list string) :
  forall st,
    tallyPatterns (fold_left (fieldStep false itemFields) ks st) = tallyPatterns st.
Proof.
  induction ks as [|k ks IH]; simpl; intros st; auto.
  rewrite IH. unfold fieldStep. simpl. now destruct (Obj.get k itemFields).
Qed.

Lemma itemSteps_patterns_off (l : list (Z * Node)) :
  forall st, tallyPatterns (fold_left (itemStep false) l st) = tallyPatterns st.
Proof.
  induction l as [|[i item] l IH]; simpl; intros st; auto.
  rewrite IH. simpl. apply fieldSteps_patterns_off.
Qed.

Lemma sampled_nil (n : JsNumber) : sampled n [] = [].
Proof. reflexivity. Qed.

Lemma below_rounds (i : nat) (s : JsNumber) :
  s <> PosInfinity -> below (Z.of_nat i) s = (i <? rounds s)%nat.
Proof.
  intros Hs. destruct s as [q| | |]; try reflexivity; [|contradiction].
  unfold below, rounds, Qlessb.
  assert (Hc := Qle_ceiling q). assert (Hl := Qceiling_lt q).
  destruct (Nat.ltb_spec i (Z.to_nat (Qceiling q))) as [H|H].
  - apply negb_true_iff. destruct (Qle_bool q (inject_Z (Z.of_nat i))) eqn:E; [|reflexivity].
    apply Qle_bool_iff in E. exfalso.
    assert (Hi : (Z.of_nat i <= Qceiling q - 1)%Z) by lia.
    rewrite Zle_Qle in Hi. lra.
  - apply negb_false_iff. apply Qle_bool_iff.
    destruct (Z.le_gt_cases (Qceiling q) (Z.of_nat i)) as [G|G]; [|lia].
    rewrite Zle_Qle in G. lra.
Qed.

Lemma sampledFrom_rounds (s : JsNumber) (nodes : list Node) :
  s <> PosInfinity ->
  forall i,
    sampledFrom i s nodes =
    combine (map Z.of_nat (seq i (rounds s - i))) (firstn (rounds s - i) nodes).
Proof.
  intros Hs. induction nodes as [|x nodes IH]; intros i.
  - rewrite firstn_nil. symmetry. apply combine_nil.
  - simpl sampledFrom. rewrite (below_rounds i Hs).
    destruct (Nat.ltb_spec i (rounds s)) as [H|H].
    + replace (rounds s - i)%nat with (S (rounds s - S i)) by lia.
      simpl. f_equal. apply IH.
    + replace (rounds s - i)%nat with 0%nat by lia. reflexivity.
Qed.

Lemma sampled_rounds (s : JsNumber) (nodes : list Node) :
  s <> PosInfinity ->
  sampled s nodes = combine (map Z.of_nat (seq 0 (rounds s))) (firstn (rounds s) nodes).
Proof.
  intros Hs. unfold sampled. rewrite (sampledFrom_rounds nodes Hs 0).
  now rewrite Nat.sub_0_r.
Qed.

Lemma mathMin_bounded (x : JsNumber) (n : nat) :
  mathMin x (Z.of_nat n) <> PosInfinity /\ (rounds (mathMin x (Z.of_nat n)) <= n)%nat.
Proof.
  destruct x as [q| | |]; cbn [mathMin]; try (split; [discriminate | cbn [rounds]; lia]).
  - destruct (Qle_bool q (inject_Z (Z.of_nat n))) eqn:E;
      (split; [discriminate|]); cbn [rounds].
    + apply Qle_bool_iff in E.
      assert (H := Qceiling_resp_le _ _ E). rewrite Qceiling_Z in H. lia.
    + rewrite Qceiling_Z. lia.
  - split; [discriminate|]. cbn [rounds]. rewrite Qceiling_Z. lia.
Qed.

(** What analyzeFeedStructure returns for a document without parse error. *)
Lemma analyzeFeedStructure_parsed (xml : string) (sampleSize : JsNumber) (deepScan : bool) :
  docQuerySelector (parseFromString xml) "parsererror" = None ->
  exists a,
    analyzeFeedStructure xml sampleSize deepScan = inr a /\
    feedType a = detectFeedType (parseFromString xml) /\
    itemCount a =
      Z.of_nat (List.length (docQuerySelectorAll (parseFromString xml)
                                                 (itemSelector (parseFromString xml)))) /\
    samplesAnalyzed a = mathMin sampleSize (itemCount a) /\
    fieldPatterns a =
      tallyPatterns (fold_left (itemStep deepScan)
                               (sampled (samplesAnalyzed a)
                                        (docQuerySelectorAll (parseFromString xml)
                                                             (itemSelector (parseFromString xml))))
                               emptyTally) /\
    items a =
      itemAnalysis (fold_left (itemStep deepScan)
                              (sampled (samplesAnalyzed a)
                                       (docQuerySelectorAll (parseFromString xml)
                                                            (itemSelector (parseFromString xml))))
                              emptyTally) /\
    fieldReliability a =
      fold_left (reliabilityStep
                   (fieldOccurrences
                      (fold_left (itemStep deepScan)
                                 (sampled (samplesAnalyzed a)
                                          (docQuerySelectorAll (parseFromString xml)
                                                               (itemSelector (parseFromString xml))))
                                 emptyTally))
                   (samplesAnalyzed a))
                (allFields
                   (fold_left (itemStep deepScan)
                              (sampled (samplesAnalyzed a)
                                       (docQuerySelectorAll (parseFromString xml)
                                                            (itemSelector (parseFromString xml))))
                              emptyTally))
                Obj.empty.
Proof.
  intros Hp. unfold analyzeFeedStructure. rewrite Hp.
  eexists. split; [reflexivity|]. simpl. repeat split; reflexivity.
Qed.

Lemma analyzeFeedStructure_inr (xml : string) (sampleSize : JsNumber) (deepScan : bool) (a : Analysis) :
  analyzeFeedStructure xml sampleSize deepScan = inr a ->
  docQuerySelector (parseFromString xml) "parsererror" = None.
Proof.
  unfold analyzeFeedStructure.
  destruct (docQuerySelector (parseFromString xml) "parsererror"); [discriminate | reflexivity].
Qed.

End Sampling.

(** ** C10 *)

Lemma warnings_without_patterns (a : Analysis) (w : Finding) :
  fieldPatterns a = [] ->
  In w (warnings (validateDataQuality a)) ->
  message w <> "Title field contains HTML markup" /\ field w <> "title".
Proof.
  intros Hp. unfold validateDataQuality. simpl. rewrite Hp. simpl.
  rewrite !in_app_iff. unfold itemsFindings, dateFindings, encodingFindings.
  intros [H|[H|H]].
  - destruct (itemCount a =? 0)%Z; [destruct H|].
    destruct (itemCount a <? 5)%Z; [|destruct H].
    destruct H as [<-|[]]. simpl. split; discriminate.
  - destruct (negb _); [|destruct H].
    destruct H as [<-|[]]. simpl. split; discriminate.
  - destruct (negb (String.eqb (encoding a) "UTF-8")); [|destruct H].
    destruct H as [<-|[]]. simpl. split; discriminate.
Qed.

Lemma recommendations_without_patterns {host : Host} (a : Analysis) (r : Recommendation) :
  fieldPatterns a = [] ->
  In r (recommendations (checkCompatibility a)) ->
  exists ns msg, r = NamespaceAdvice ns msg.
Proof.
  intros Hp. unfold checkCompatibility. simpl. rewrite Hp. simpl.
  rewrite app_nil_r. rewrite in_flat_map. intros [ns [_ H]].
  destruct (negb _); [|destruct H].
  destruct H as [<-|[]]. eauto.
Qed.

(** C10: with deep_scan false, a successful report has an empty
    fieldPatterns mapping, none of its warnings is the title-contains-HTML
    warning, and every recommendation of its compatibility section is about
    a namespace, none about stripping HTML. *)
Theorem C10_no_patterns_without_deep_scan :
  forall (host : Host) (inputs : AnalyzeRSSInputs) (t : Trace)
         (u : string) (a : Analysis) (m : Obj.t Mapping) (v : Validation)
         (c : Compatibility) (stamp : string),
    deep_scan inputs = Some false ->
    fst (analyzeRSSFeed inputs t) = Succeeded u a m v c stamp ->
    fieldPatterns a = [] /\
    (forall w, In w (warnings v) ->
               message w <> "Title field contains HTML markup" /\ field w <> "title") /\
    (forall r, In r (recommendations c) -> exists ns msg, r = NamespaceAdvice ns msg).
Proof.
  intros host inputs t u a m v c stamp Hd H.
  assert (Hp : fieldPatterns a = [] /\ v = validateDataQuality a /\ c = checkCompatibility a).
  { destruct (feed_url inputs) as [u'|] eqn:Hu.
    - destruct (String.eqb u' "") eqn:E.
      + apply String.eqb_eq in E. subst u'.
        unfold analyzeRSSFeed in H. rewrite Hu in H. simpl in H. discriminate.
      + assert (Hne : u' <> "") by (intros ->; discriminate).
        rewrite (analyzeRSSFeed_run inputs t Hu Hne) in H. simpl in H.
        destruct (response_success (http_request (feedRequest u'))); [|discriminate].
        rewrite Hd in H.
        destruct (analyzeFeedStructure _ _ false) as [e|a'] eqn:Ha; [discriminate|].
        inversion H; subst.
        assert (Hpe := analyzeFeedStructure_inr _ _ _ Ha).
        destruct (@analyzeFeedStructure_parsed _ _
                    (match sample_size inputs with Some n => n | None => Finite 5 end) false Hpe)
          as [a'' [Ha' [_ [_ [_ [Hpat _]]]]]].
        rewrite Ha in Ha'. inversion Ha'; subst a''.
        rewrite Hpat, itemSteps_patterns_off. auto.
    - unfold analyzeRSSFeed in H. rewrite Hu in H. simpl in H. discriminate. }
  destruct Hp as [Hp [-> ->]]. split; [exact Hp|]. split.
  - intros w. now apply warnings_without_patterns.
  - intros r. now apply recommendations_without_patterns.
Qed.

(** C10 on the demonstration host: the Atom document, whose first title
    holds markup, analyzed without deep scan. *)
Lemma C10_no_patterns_witness :
  exists a v c,
    fst (analyzeRSSFeed (host := Demo.host) (Demo.inputs "https://x/atom" (Some false)) [])
    = Succeeded "https://x/atom" a (generateFieldMappings a) v c (@now Demo.host) /\
    fieldPatterns a = [] /\
    (forall w, In w (warnings v) ->
               message w <> "Title field contains HTML markup" /\ field w <> "title") /\
    (forall r, In r (recommendations c) -> exists ns msg, r = NamespaceAdvice ns msg).
Proof.
  destruct (fst (analyzeRSSFeed (host := Demo.host)
                                (Demo.inputs "https://x/atom" (Some false)) []))
    as [|u a m v c stamp|] eqn:E; try discriminate.
  exists a, v, c. split.
  - vm_compute in E. inversion E; subst. reflexivity.
  - apply (@C10_no_patterns_without_deep_scan Demo.host
             (Demo.inputs "https://x/atom" (Some false)) [] u a m v c stamp eq_refl E).
Defined.

(** With deep scan the same document does produce the warning and the
    advice, so C10 separates two behaviours. *)
Lemma deep_scan_reports_title_markup :
  exists u a m v c stamp,
    fst (analyzeRSSFeed (host := Demo.host) (Demo.inputs "https://x/atom" (Some true)) [])
    = Succeeded u a m v c stamp /\
    In "Title field contains HTML markup" (map message (warnings v)) /\
    In (FieldAdvice "title" "Contains HTML - consider stripping tags") (recommendations c).
Proof.
  do 6 eexists. split; [vm_compute; reflexivity|].
  split; simpl; tauto.
Qed.

(** ** C6 *)

(** C6: a feed that is fetched and parsed and has no item is analyzed to the
    end: the report is a success, and its validation is not valid, holds
    exactly one issue for the field items, and scores at most 80 (the three
    required fields, all missing, are issues as well). *)
Theorem C6_empty_feed_is_an_issue :
  forall (host : Host) (inputs : AnalyzeRSSInputs) (t : Trace) (u : string),
    feed_url inputs = Some u -> u <> "" ->
    response_success (http_request (feedRequest u)) = true ->
    docQuerySelector (fetchedDocument u) "parsererror" = None ->
    docQuerySelectorAll (fetchedDocument u) (itemSelector (fetchedDocument u)) = [] ->
    exists a,
      analyzeRSSFeed inputs t =
      (Succeeded u a (generateFieldMappings a) (validateDataQuality a)
                 (checkCompatibility a) now,
       (t ++ [feedRequest u])%list) /\
      itemCount a = 0%Z /\
      isValid (validateDataQuality a) = false /\
      filter (fun i => String.eqb (field i) "items") (issues (validateDataQuality a)) =
      [{| level := "error"; message := "Feed contains no items"; field := "items";
          reliability := None |}] /\
      (qualityScore (validateDataQuality a) <= 80)%Z.
Proof.
  intros host inputs t u Hu Hne Hs Hp Hitems.
  rewrite (analyzeRSSFeed_run inputs t Hu Hne), Hs.
  unfold fetchedDocument in Hp, Hitems.
  destruct (@analyzeFeedStructure_parsed host _
              (match sample_size inputs with Some n => n | None => Finite 5 end)
              (match deep_scan inputs with Some b => b | None => true end) Hp)
    as [a [Ha [_ [Hc [Hn [Hpat [_ Hrel]]]]]]].
  rewrite Hitems in Hc, Hpat, Hrel. rewrite sampled_nil in Hpat, Hrel.
  simpl in Hc, Hpat, Hrel.
  exists a. rewrite Ha. split; [reflexivity|]. split; [exact Hc|].
  unfold validateDataQuality. simpl. rewrite Hc, Hrel, Hpat. simpl.
  split; [reflexivity|]. split; [reflexivity|].
  unfold calculateQualityScore, encodingFindings.
  destruct (negb (String.eqb (encoding a) "UTF-8")); simpl; lia.
Qed.

(** C6 on the demonstration host: the RSS channel without items. *)
Lemma C6_empty_feed_witness :
  exists a,
    analyzeRSSFeed (host := Demo.host) (Demo.inputs "https://x/empty" None) [] =
    (Succeeded "https://x/empty" a (generateFieldMappings a) (validateDataQuality a)
               (checkCompatibility a) (@now Demo.host),
     [feedRequest "https://x/empty"]) /\
    itemCount a = 0%Z /\
    isValid (validateDataQuality a) = false /\
    filter (fun i => String.eqb (field i) "items") (issues (validateDataQuality a)) =
    [{| level := "error"; message := "Feed contains no items"; field := "items";
        reliability := None |}] /\
    (qualityScore (validateDataQuality a) <= 80)%Z.
Proof.
  apply (@C6_empty_feed_is_an_issue Demo.host (Demo.inputs "https://x/empty" None) []
           "https://x/empty" eq_refl);
    [discriminate | reflexivity | reflexivity | reflexivity].
Defined.

(** ** C3 *)

Lemma fold_left_preserves {A B : Type} (P : A -> Prop) (f : A -> B -> A) (l : list B) :
  (forall a b, P a -> P (f a b)) -> forall a, P a -> P (fold_left f l a).
Proof.
  intros Hf. induction l as [|b l IH]; simpl; intros a Ha; auto.
Qed.

Lemma mem_In (x : string) (s : StrSet.t) : StrSet.mem x s = true <-> In x s.
Proof.
  unfold StrSet.mem. rewrite existsb_exists. split.
  - intros [y [Hy E]]. apply String.eqb_eq in E. now subst.
  - intros H. exists x. split; [exact H | apply String.eqb_refl].
Qed.

Lemma mem_keys {V : Type} (f : string) (o : Obj.t V) :
  StrSet.mem f (Obj.keys o) = Obj.has f o.
Proof.
  destruct (Obj.has f o) eqn:E.
  - apply mem_In. now apply has_keys.
  - destruct (StrSet.mem f (Obj.keys o)) eqn:M; auto.
    apply mem_In, has_keys in M. congruence.
Qed.

Lemma add_In (f k : string) (s : StrSet.t) :
  In f (StrSet.add k s) <-> f = k \/ In f s.
Proof.
  unfold StrSet.add. destruct (StrSet.mem k s) eqn:E.
  - apply mem_In in E. split; auto. intros [->|H]; auto.
  - rewrite in_app_iff. simpl. intuition.
Qed.

Section Counting.

Context {host : Host}.

Lemma fieldSteps_itemAnalysis (ds : bool) (itemFields : ItemFields) (ks : list string) :
  forall st, itemAnalysis (fold_left (fieldStep ds itemFields) ks st) = itemAnalysis st.
Proof.
  induction ks as [|k ks IH]; simpl; intros st; auto. now rewrite IH.
Qed.

Lemma fieldSteps_allFields (ds : bool) (itemFields : ItemFields) (ks : list string) (f : string) :
  forall st,
    In f (allFields (fold_left (fieldStep ds itemFields) ks st)) <->
    In f (allFields st) \/ In f ks.
Proof.
  induction ks as [|k ks IH]; simpl; intros st.
  - tauto.
  - rewrite IH. simpl. rewrite add_In. intuition.
Qed.

Lemma fieldSteps_occurrences (ds : bool) (itemFields : ItemFields) (ks : list string) (f : string) :
  NoDup ks ->
  forall st,
    Obj.get f (fieldOccurrences (fold_left (fieldStep ds itemFields) ks st)) =
    if StrSet.mem f ks then Some (countOr0 (Obj.get f (fieldOccurrences st)) + 1)%Z
    else Obj.get f (fieldOccurrences st).
Proof.
  induction 1 as [|k ks Hk Hks IH]; intros st; [reflexivity|].
  simpl fold_left. rewrite IH. simpl fieldOccurrences.
  change (StrSet.mem f (k :: ks)) with (String.eqb f k || StrSet.mem f ks).
  rewrite get_set. destruct (String.eqb f k) eqn:E; simpl.
  - apply String.eqb_eq in E. subst k.
    destruct (StrSet.mem f ks) eqn:M; [|reflexivity].
    apply mem_In in M. contradiction.
  - reflexivity.
Qed.

(** The keys of the fields of an item are pairwise distinct. *)
Lemma extractAllFields_NoDup (item : Node) (deepScan : bool) :
  NoDup (Obj.keys (extractAllFields item deepScan)).
Proof.
  unfold extractAllFields.
  assert (S : forall o : ItemFields, NoDup (Obj.keys o) -> NoDup (Obj.keys (imagesStep o))).
  { intros o Ho. unfold imagesStep. destruct (truthyOpt _); auto.
    destruct (negb _); auto. now apply NoDup_keys_set. }
  apply S.
  assert (D : forall o : ItemFields,
             NoDup (Obj.keys o) ->
             NoDup (Obj.keys (fold_left deepStep (querySelectorAll item "*") o))).
  { apply (@fold_left_preserves _ _ (fun o : ItemFields => NoDup (Obj.keys o))).
    intros o el Ho. unfold deepStep.
    destruct (negb _ && Js.truthyStr _); auto.
    destruct (negb (Nat.eqb (List.length (Dom.children el)) 0)); auto.
    destruct (negb (Nat.eqb (List.length (Dom.attributes el)) 0));
      repeat apply NoDup_keys_set; exact Ho. }
  assert (N : NoDup (Obj.keys
                       (fold_left (namespaceStep item) namespaceElements
                          (linkStep item (fold_left (standardStep item) standardFields Obj.empty))))).
  { apply (@fold_left_preserves _ _ (fun o : ItemFields => NoDup (Obj.keys o))).
    - intros o sel Ho. unfold namespaceStep.
      destruct (querySelector item sel); auto.
      destruct (String.eqb _ "enclosure"); [now apply NoDup_keys_set|].
      destruct (Js.includes "media" _); now apply NoDup_keys_set.
    - unfold linkStep.
      assert (T : NoDup (Obj.keys (fold_left (standardStep item) standardFields Obj.empty))).
      { apply (@fold_left_preserves _ _ (fun o : ItemFields => NoDup (Obj.keys o)));
          [|constructor].
        intros o name Ho. unfold standardStep.
        destruct (querySelector item name); auto. now apply NoDup_keys_set. }
      destruct (querySelector item "link"); auto.
      repeat apply NoDup_keys_set. exact T. }
  destruct deepScan; auto.
Qed.

Lemma occurrencesIn_nonneg (f : string) (its : list ItemAnalysis) :
  (0 <= occurrencesIn f its)%Z.
Proof. unfold occurrencesIn. lia. Qed.



Lemma occurrencesIn_snoc (f : string) (its : list ItemAnalysis) (it : ItemAnalysis) :
  occurrencesIn f (its ++ [it])%list =
  (occurrencesIn f its + if Obj.has f (fields it) then 1 else 0)%Z.
Proof.
  unfold occurrencesIn. rewrite filter_app, length_app. simpl.
  destruct (Obj.has f (fields it)); simpl; lia.
Qed.

Lemma counted_empty : counted emptyTally.
Proof.
  split; intros f; simpl.
  - reflexivity.
  - unfold occurrencesIn. simpl. split; [tauto | lia].
Qed.

Lemma counted_itemStep (ds : bool) (st : Tally) (entry : Z * Node) :
  counted st -> counted (itemStep ds st entry).
Proof.
  intros [Hocc Hall]. destruct entry as [i item]. unfold itemStep.
  set (itemFields := extractAllFields item ds).
  assert (Hnd : NoDup (Obj.keys itemFields)) by apply extractAllFields_NoDup.
  split; intros f; simpl.
  - rewrite fieldSteps_itemAnalysis, occurrencesIn_snoc. simpl.
    rewrite fieldSteps_occurrences by exact Hnd. rewrite mem_keys, Hocc.
    assert (H0 := occurrencesIn_nonneg f (itemAnalysis st)).
    destruct (Obj.has f itemFields).
    + destruct (Z.eqb_spec (occurrencesIn f (itemAnalysis st)) 0) as [E|E];
        destruct (Z.eqb_spec (occurrencesIn f (itemAnalysis st) + 1) 0); simpl; try lia.
      * now rewrite E.
      * reflexivity.
    + now rewrite Z.add_0_r.
  - rewrite fieldSteps_itemAnalysis, occurrencesIn_snoc. simpl.
    rewrite fieldSteps_allFields, Hall, <- has_keys.
    assert (H0 := occurrencesIn_nonneg f (itemAnalysis st)).
    destruct (Obj.has f itemFields).
    + split; intros H; [lia | right; reflexivity].
    + split; intros H; [destruct H as [H|H]; [lia | discriminate] | left; lia].
Qed.






End Counting.









(** * Further properties of the analyzer *)

(** ** findBestField *)

Lemma mostReliable_cases (rel : Obj.t Q) (l : list string) :
  forall (best : option string) (bs : Q),
    (mostReliable l rel best bs = best /\
     forall g, In g l -> forall r, Obj.get g rel = Some r -> (r <= bs)%Q) \/
    (exists f r, mostReliable l rel best bs = Some f /\ In f l /\
                 Obj.get f rel = Some r /\ (bs < r)%Q).
Proof.
  induction l as [|g l IH]; intros best bs; simpl.
  - left. split; [reflexivity | intros g []].
  - destruct (Obj.get g rel) as [r|] eqn:E.
    + destruct (Qgtb r bs) eqn:G.
      * apply Qgtb_true in G. right.
        destruct (IH (Some g) r) as [[H1 H2]|[f [r' [H1 [H2 [H3 H4]]]]]].
        -- exists g, r. rewrite H1. auto.
        -- exists f, r'. rewrite H1. repeat split; auto. lra.
      * apply Qgtb_false in G.
        destruct (IH best bs) as [[H1 H2]|[f [r' [H1 [H2 [H3 H4]]]]]].
        -- left. split; [exact H1|]. intros g' [<-|Hg'] r' Hr'.
           ++ rewrite E in Hr'. inversion Hr'; subst. exact G.
           ++ now apply (H2 g').
        -- right. exists f, r'. auto.
    + destruct (IH best bs) as [[H1 H2]|[f [r' [H1 [H2 [H3 H4]]]]]].
      * left. split; [exact H1|]. intros g' [<-|Hg'] r' Hr'.
        -- rewrite E in Hr'. discriminate.
        -- now apply (H2 g').
      * right. exists f, r'. auto.
Qed.

Lemma firstReaching_sound (rel : Obj.t Q) (th : Q) (l : list string) (f : string) :
  firstReaching l rel th = Some f -> In f l /\ reaches rel th f.
Proof.
  induction l as [|g l IH]; simpl; [discriminate|].
  destruct (optGe (Obj.get g rel) th) eqn:E.
  - intros H. inversion H; subst. split; [now left | now apply optGe_reaches].
  - intros H. destruct (IH H). auto.
Qed.

Lemma firstReaching_none_inv (rel : Obj.t Q) (th : Q) (l : list string) :
  firstReaching l rel th = None -> forall g, In g l -> ~ reaches rel th g.
Proof.
  induction l as [|g l IH]; simpl; [intros _ g []|].
  destruct (optGe (Obj.get g rel) th) eqn:E; [discriminate|].
  intros H g' [<-|Hg'].
  - intros Hr. apply optGe_reaches in Hr. congruence.
  - now apply IH.
Qed.

Lemma findBestField_cases :
  forall (candidates : list string) (reliability : Obj.t Q) (threshold : Q),
    (forall f,
        findBestField candidates reliability threshold = Some f ->
        In f candidates /\
        exists r, Obj.get f reliability = Some r /\ (threshold <= r \/ 0 < r)%Q) /\
    (findBestField candidates reliability threshold = None <->
     forall g, In g candidates ->
               ~ reaches reliability threshold g /\ (scoreOf reliability g <= 0)%Q).
Proof.
  intros candidates reliability threshold. unfold findBestField. split.
  - intros f. destruct (firstReaching candidates reliability threshold) as [f'|] eqn:E.
    + intros H. inversion H; subst f'.
      destruct (firstReaching_sound _ _ _ E) as [Hin [r [Hr Hle]]].
      split; [exact Hin|]. exists r. auto.
    + intros H.
      destruct (mostReliable_cases reliability candidates None 0)
        as [[H1 _]|[f' [r [H1 [H2 [H3 H4]]]]]].
      * rewrite H1 in H. discriminate.
      * rewrite H1 in H. inversion H; subst f'. split; [exact H2|]. exists r. auto.
  - destruct (firstReaching candidates reliability threshold) as [f'|] eqn:E.
    + split; [discriminate|]. intros H.
      destruct (firstReaching_sound _ _ _ E) as [Hin Hr].
      destruct (H f' Hin) as [Hn _]. contradiction.
    + split.
      * intros H g Hg. split; [exact (@firstReaching_none_inv _ _ _ E g Hg)|].
        destruct (mostReliable_cases reliability candidates None 0)
          as [[_ H2]|[f' [r [H1 _]]]]; [|congruence].
        unfold scoreOf. destruct (Obj.get g reliability) as [r|] eqn:Er; simpl.
        -- now apply (H2 g Hg).
        -- lra.
      * intros H. apply mostReliable_settled; [lra|]. intros g Hg. now apply H.
Qed.

(** ** generateFieldMappings *)

Lemma generateFieldMappings_get (a : Analysis) (slot : string) :
  Obj.get slot (generateFieldMappings a) =
  if String.eqb slot "image" then
    Some (match findImageMapping a with Some im => MappingImage im | None => MappingNull end)
  else if strIn slot slotNames then
    Some (withConfidence a (findBestField (slotCandidates slot) (fieldReliability a)
                                          (slotThreshold slot)))
  else None.
Proof.
  unfold generateFieldMappings, slotCandidates, slotThreshold, slotNames, strIn.
  simpl.
  repeat match goal with
         | |- context [String.eqb slot ?k] =>
             destruct (String.eqb_spec slot k); [subst; reflexivity|]
         end.
  reflexivity.
Qed.

Lemma withConfidence_field (a : Analysis) (o : option string) (f : string) (r : Q)
      (s : option FieldValue) :
  withConfidence a o = MappingField f r s ->
  o = Some f /\ r = scoreOf (fieldReliability a) f /\ s = recordedSample f a.
Proof.
  unfold withConfidence, recordedSample, firstSample, scoreOf.
  destruct o as [v|]; [|discriminate].
  destruct (Js.truthyStr v); [|discriminate].
  intros H. inversion H; subst. repeat split.
  destruct (Obj.get f (fieldSamples a)) as [l|]; [|reflexivity].
  destruct (hd_error l); reflexivity.
Qed.

Lemma slotThreshold_pos (slot : string) : (0 < slotThreshold slot)%Q.
Proof.
  unfold slotThreshold.
  repeat match goal with
         | |- context [String.eqb slot ?k] => destruct (String.eqb slot k)
         end; reflexivity.
Qed.

(** The recommendation always has the eight slots, in a fixed order.  A
    slot that names a field names one of that slot's candidates, with the
    reliability the analysis gives it, which is positive, and with the first
    sample of that field; only the image slot holds an image candidate, the
    one findImageMapping returns; and a slot other than image is null only
    when none of its candidates has a positive reliability. *)
Theorem generateFieldMappings_slots :
  forall a : Analysis,
    Obj.keys (generateFieldMappings a) = slotNames /\
    (forall slot f r s,
        Obj.get slot (generateFieldMappings a) = Some (MappingField f r s) ->
        In f (slotCandidates slot) /\
        Obj.get f (fieldReliability a) = Some r /\ (0 < r)%Q /\
        s = recordedSample f a) /\
    (forall slot im,
        Obj.get slot (generateFieldMappings a) = Some (MappingImage im) ->
        slot = "image" /\ findImageMapping a = Some im) /\
    (forall slot,
        Obj.get slot (generateFieldMappings a) = Some MappingNull ->
        (slot = "image" /\ findImageMapping a = None) \/
        (slot <> "image" /\
         forall g, In g (slotCandidates slot) -> (scoreOf (fieldReliability a) g <= 0)%Q)).
Proof.
  intros a. split; [reflexivity|]. split; [|split].
  - intros slot f r s. rewrite generateFieldMappings_get.
    destruct (String.eqb slot "image").
    + destruct (findImageMapping a); discriminate.
    + destruct (strIn slot slotNames); [|discriminate].
      intros H. inversion H as [Hw]. clear H.
      destruct (withConfidence_field _ _ Hw) as [Hb [-> ->]].
      destruct (proj1 (findBestField_cases (slotCandidates slot) (fieldReliability a)
                                           (slotThreshold slot)) f Hb)
        as [Hin [r' [Hr' Hpos]]].
      split; [exact Hin|]. unfold scoreOf. rewrite Hr'. simpl.
      split; [reflexivity|]. split; [|reflexivity].
      assert (Ht := slotThreshold_pos slot). destruct Hpos; lra.
  - intros slot im. rewrite generateFieldMappings_get.
    destruct (String.eqb_spec slot "image") as [->|Hne].
    + destruct (findImageMapping a) as [im'|]; [|discriminate].
      intros H. inversion H. auto.
    + destruct (strIn slot slotNames); [|discriminate].
      unfold withConfidence.
      destruct (findBestField _ _ _) as [v|]; [|discriminate].
      destruct (Js.truthyStr v); discriminate.
  - intros slot. rewrite generateFieldMappings_get.
    destruct (String.eqb_spec slot "image") as [->|Hne].
    + destruct (findImageMapping a); [discriminate|]. auto.
    + destruct (strIn slot slotNames); [|discriminate].
      intros H. right. split; [exact Hne|].
      unfold withConfidence in H.
      destruct (findBestField (slotCandidates slot) (fieldReliability a) (slotThreshold slot))
        as [v|] eqn:E.
      * destruct (Js.truthyStr v); discriminate.
      * intros g Hg.
        now apply (proj1 (proj2 (findBestField_cases _ _ _)) E g Hg).
Qed.

(** ** The sort of findImageMapping *)

Lemma insertByReliability_Permutation (x : ImageField.t) (l : list ImageField.t) :
  Permutation (x :: l) (insertByReliability x l).
Proof.
  induction l as [|y l IH]; simpl; [apply Permutation_refl|].
  destruct (Qgtb (ImageField.reliability y) (ImageField.reliability x)).
  - apply perm_trans with (y :: x :: l); [apply perm_swap | now apply perm_skip].
  - apply Permutation_refl.
Qed.

Lemma sortByReliability_first_max (l : list ImageField.t) :
  l <> [] ->
  exists pre c post,
    l = (pre ++ c :: post)%list /\ hd_error (sortByReliability l) = Some c /\
    (forall y, In y pre -> (ImageField.reliability y < ImageField.reliability c)%Q) /\
    (forall y, In y post -> (ImageField.reliability y <= ImageField.reliability c)%Q).
Proof.
  induction l as [|x l IH]; [congruence|]. intros _.
  destruct l as [|x' l'].
  - exists [], x, []. simpl. repeat split; intros y [].
  - destruct IH as [pre [c [post [E [Hc [Hpre Hpost]]]]]]; [discriminate|].
    change (sortByReliability (x :: x' :: l'))
      with (insertByReliability x (sortByReliability (x' :: l'))).
    destruct (sortByReliability (x' :: l')) as [|c0 s] eqn:Es; [discriminate|].
    simpl in Hc. inversion Hc; subst c0. simpl insertByReliability.
    destruct (Qgtb (ImageField.reliability c) (ImageField.reliability x)) eqn:G.
    + apply Qgtb_true in G. exists (x :: pre), c, post. rewrite E. simpl.
      repeat split; auto. intros y [<-|Hy]; auto.
    + apply Qgtb_false in G. exists [], x, (x' :: l'). simpl.
      repeat split; [intros y []|].
      intros y Hy. change (In y (x' :: l')) in Hy. rewrite E in Hy. apply in_app_or in Hy.
      destruct Hy as [Hy|[<-|Hy]].
      * assert (H := Hpre y Hy). lra.
      * exact G.
      * assert (H := Hpost y Hy). lra.
Qed.

Lemma sortByReliability_Permutation (l : list ImageField.t) :
  Permutation l (sortByReliability l).
Proof.
  induction l as [|x l IH]; simpl; [constructor|].
  apply perm_trans with (x :: sortByReliability l);
    [now apply perm_skip | apply insertByReliability_Permutation].
Qed.

Lemma sortByReliability_head_first (l : list ImageField.t) (c : ImageField.t) :
  hd_error (sortByReliability l) = Some c ->
  exists pre post,
    l = (pre ++ c :: post)%list /\
    (forall y, In y pre -> (ImageField.reliability y < ImageField.reliability c)%Q) /\
    (forall y, In y post -> (ImageField.reliability y <= ImageField.reliability c)%Q).
Proof.
  intros Hc. destruct l as [|x l]; [discriminate|].
  destruct (@sortByReliability_first_max (x :: l)) as [pre [c' [post [E [Hc' H]]]]];
    [discriminate|].
  rewrite Hc in Hc'. inversion Hc'; subst c'. exists pre, post. auto.
Qed.

(** ** findImageMapping *)

Lemma imageCandidates_qualifying (a : Analysis) :
  imageCandidates (fieldReliability a) (fieldSamples a) =
  map (fun p => candidate (fst p) (snd p) (scoreOf (fieldReliability a) (fst p)))
      (qualifying a).
Proof.
  unfold imageCandidates, qualifying, imageSources, qualifies, pushIf, candidate, scoreOf.
  simpl. fold (firstSample "enclosure" a).
  destruct (optGt (Obj.get "media_content" (fieldReliability a)) 50),
           (optGt (Obj.get "media_thumbnail" (fieldReliability a)) 50),
           (optGt (Obj.get "enclosure" (fieldReliability a)) 50),
           (declaredImage (firstSample "enclosure" a)),
           (optGt (Obj.get "extracted_images" (fieldReliability a)) 30),
           (optGt (Obj.get "itunes_image" (fieldReliability a)) 50); reflexivity.
Qed.

Lemma qualifies_reliability (a : Analysis) (src : string) :
  qualifies a src = true ->
  exists r, Obj.get src (fieldReliability a) = Some r /\ (30 < r)%Q.
Proof.
  unfold qualifies.
  destruct (Obj.get src (fieldReliability a)) as [r|]; simpl.
  - intros H. exists r. split; [reflexivity|].
    destruct (String.eqb src "extracted_images").
    + now apply Qgtb_true in H.
    + destruct (String.eqb src "enclosure").
      * apply andb_true_iff in H. destruct H as [H _]. apply Qgtb_true in H. lra.
      * apply Qgtb_true in H. lra.
  - destruct (String.eqb src "extracted_images"); [discriminate|].
    destruct (String.eqb src "enclosure"); discriminate.
Qed.

Lemma findImageMapping_none (a : Analysis) :
  findImageMapping a = None <-> qualifying a = [].
Proof.
  unfold findImageMapping. rewrite imageCandidates_qualifying.
  split; intros H.
  - destruct (qualifying a) as [|p q] eqn:E; [reflexivity|].
    assert (P := sortByReliability_Permutation
                   (map (fun p => candidate (fst p) (snd p)
                                            (scoreOf (fieldReliability a) (fst p))) (p :: q))).
    destruct (sortByReliability _); [|discriminate].
    apply Permutation_sym, Permutation_nil in P. discriminate.
  - rewrite H. reflexivity.
Qed.

Lemma findImageMapping_some (a : Analysis) (c : ImageField.t) :
  findImageMapping a = Some c ->
  exists pre src ty post,
    qualifying a = (pre ++ (src, ty) :: post)%list /\
    c = candidate src ty (scoreOf (fieldReliability a) src) /\
    Obj.get src (fieldReliability a) = Some (ImageField.reliability c) /\
    (30 < ImageField.reliability c)%Q /\
    (forall p, In p pre ->
               (scoreOf (fieldReliability a) (fst p) < scoreOf (fieldReliability a) src)%Q) /\
    (forall p, In p post ->
               (scoreOf (fieldReliability a) (fst p) <= scoreOf (fieldReliability a) src)%Q).
Proof.
  unfold findImageMapping. rewrite imageCandidates_qualifying.
  set (mk := fun p : string * string =>
               candidate (fst p) (snd p) (scoreOf (fieldReliability a) (fst p))).
  intros Hc.
  destruct (sortByReliability_head_first _ Hc)
    as [pre' [post' [E [Hpre Hpost]]]].
  apply map_eq_app in E. destruct E as [pre [rest [Eq [Epre Erest]]]].
  apply map_eq_cons in Erest. destruct Erest as [[src ty] [post [Er [Ec Epost]]]].
  subst rest pre' post'. exists pre, src, ty, post.
  split; [exact Eq|]. split; [now rewrite <- Ec|].
  assert (Hq : qualifies a src = true).
  { assert (Hin : In (src, ty) (qualifying a)).
    { rewrite Eq. apply in_or_app. right. now left. }
    unfold qualifying in Hin. apply filter_In in Hin. exact (proj2 Hin). }
  destruct (qualifies_reliability _ _ Hq) as [r [Hr Hr30]].
  assert (Erel : ImageField.reliability c = r).
  { rewrite <- Ec. unfold mk, candidate, scoreOf. simpl. now rewrite Hr. }
  rewrite Erel. split; [exact Hr|]. split; [exact Hr30|].
  assert (Es : scoreOf (fieldReliability a) src = r).
  { unfold scoreOf. now rewrite Hr. }
  rewrite Es. rewrite Erel in Hpre, Hpost. split.
  + intros p Hp. apply (Hpre (mk p)). now apply in_map.
  + intros p Hp. apply (Hpost (mk p)). now apply in_map.
Qed.

(** findImageMapping returns nothing exactly when no image source
    qualifies.  Otherwise it returns the qualifying source of highest
    reliability, with the type that goes with the source and a reliability
    above 30; among sources of equal reliability the one collected first
    wins, in the order media_content, media_thumbnail, enclosure,
    extracted_images, itunes_image. *)
Theorem findImageMapping_characterised :
  forall a : Analysis,
    (findImageMapping a = None <-> qualifying a = []) /\
    (forall c,
        findImageMapping a = Some c ->
        exists pre src ty post,
          qualifying a = (pre ++ (src, ty) :: post)%list /\
          c = candidate src ty (scoreOf (fieldReliability a) src) /\
          Obj.get src (fieldReliability a) = Some (ImageField.reliability c) /\
          (30 < ImageField.reliability c)%Q /\
          (forall p, In p pre ->
                     (scoreOf (fieldReliability a) (fst p) < scoreOf (fieldReliability a) src)%Q) /\
          (forall p, In p post ->
                     (scoreOf (fieldReliability a) (fst p) <= scoreOf (fieldReliability a) src)%Q)).
Proof.
  intros a. split; [apply findImageMapping_none | apply findImageMapping_some].
Qed.

(** ** validateDataQuality *)

Lemma strIn_In (x : string) (l : list string) : strIn x l = true <-> In x l.
Proof. apply mem_In. Qed.

Lemma required_ok (o : option Q) :
  optFalsy o || optLt o 50 = false <-> exists r, o = Some r /\ (50 <= r)%Q.
Proof.
  destruct o as [r|]; simpl.
  - rewrite orb_false_iff. unfold Qlessb. rewrite negb_false_iff, Qle_bool_iff. split.
    + intros [_ H]. now exists r.
    + intros [r' [E H]]. inversion E; subst r'. split; [|exact H].
      destruct (Qeq_bool r 0) eqn:Z; [|reflexivity].
      apply Qeq_bool_iff in Z. rewrite Z in H. lra.
  - split; [discriminate | intros [r [E _]]; discriminate].
Qed.

Lemma itemsFindings_issues (n : Z) :
  fst (itemsFindings n) =
  if (n =? 0)%Z
  then [{| level := "error"; message := "Feed contains no items"; field := "items";
           reliability := None |}]
  else [].
Proof.
  unfold itemsFindings. destruct (n =? 0)%Z; [reflexivity|].
  now destruct (n <? 5)%Z.
Qed.

Lemma requiredFindings_fields (rel : Obj.t Q) (i : Finding) :
  In i (requiredFindings rel) -> level i = "error" /\ In (field i) requiredFields.
Proof.
  unfold requiredFindings. rewrite in_flat_map. intros [f [Hf Hi]].
  destruct (optFalsy _ || optLt _ 50); [|destruct Hi].
  destruct Hi as [<-|[]]. simpl. auto.
Qed.

Lemma requiredFindings_nil (rel : Obj.t Q) :
  requiredFindings rel = [] <->
  forall f, In f requiredFields -> exists r, Obj.get f rel = Some r /\ (50 <= r)%Q.
Proof.
  unfold requiredFindings, requiredFields. simpl. rewrite app_nil_r. split.
  - intros H f Hf. apply required_ok.
    destruct Hf as [<-|[<-|[<-|[]]]];
      destruct (optFalsy (Obj.get "title" rel) || optLt (Obj.get "title" rel) 50);
      destruct (optFalsy (Obj.get "link" rel) || optLt (Obj.get "link" rel) 50);
      destruct (optFalsy (Obj.get "description" rel) || optLt (Obj.get "description" rel) 50);
      simpl in H; congruence.
  - intros H.
    rewrite (proj2 (required_ok (Obj.get "title" rel)) (H "title" ltac:(simpl; auto))).
    rewrite (proj2 (required_ok (Obj.get "link" rel)) (H "link" ltac:(simpl; auto))).
    rewrite (proj2 (required_ok (Obj.get "description" rel))
                   (H "description" ltac:(simpl; auto))).
    reflexivity.
Qed.

(** An analysis is valid exactly when the feed has at least one item and
    each of title, link and description has a reliability of at least 50;
    the number of items below five, dates, images, markup and encoding play
    no part.  Every issue is about items or one of the three fields. *)
Theorem validateDataQuality_valid_iff :
  forall a : Analysis,
    (isValid (validateDataQuality a) = true <->
     itemCount a <> 0%Z /\
     forall f, In f requiredFields ->
               exists r, Obj.get f (fieldReliability a) = Some r /\ (50 <= r)%Q) /\
    (forall i, In i (issues (validateDataQuality a)) ->
               level i = "error" /\ In (field i) ("items" :: requiredFields)).
Proof.
  intros a.
  change (isValid (validateDataQuality a))
    with (Nat.eqb (List.length (fst (itemsFindings (itemCount a))
                                ++ requiredFindings (fieldReliability a))%list) 0).
  change (issues (validateDataQuality a))
    with (fst (itemsFindings (itemCount a)) ++ requiredFindings (fieldReliability a))%list.
  rewrite itemsFindings_issues. split.
  - rewrite <- requiredFindings_nil.
    destruct (Z.eqb_spec (itemCount a) 0) as [E|E]; simpl.
    + split; [discriminate | intros [H _]; contradiction].
    + destruct (requiredFindings (fieldReliability a)); simpl; split; auto;
        try discriminate. intros [_ H]. discriminate.
  - intros i Hi. apply in_app_or in Hi. destruct Hi as [Hi|Hi].
    + destruct (itemCount a =? 0)%Z; [|destruct Hi].
      destruct Hi as [<-|[]]. simpl. auto.
    + destruct (requiredFindings_fields _ _ Hi). simpl. auto.
Qed.

(** ** checkCompatibility *)

Lemma get_In {V : Type} (k : string) (v : V) (o : Obj.t V) :
  Obj.get k o = Some v -> In (k, v) o.
Proof.
  induction o as [|[k' v'] r IH]; simpl; [discriminate|].
  destruct (String.eqb_spec k k') as [->|Hne].
  - intros H. inversion H. now left.
  - intros H. right. now apply IH.
Qed.

Lemma In_get {V : Type} (k : string) (v : V) (o : Obj.t V) :
  NoDup (Obj.keys o) -> In (k, v) o -> Obj.get k o = Some v.
Proof.
  induction o as [|[k' v'] r IH]; simpl; [intros _ []|].
  intros Hnd [H|H].
  - inversion H; subst. now rewrite String.eqb_refl.
  - inversion Hnd as [|x l Hx Hl]; subst.
    destruct (String.eqb_spec k k') as [->|Hne].
    + exfalso. apply Hx. change k' with (fst (k', v)). now apply in_map.
    + now apply IH.
Qed.

Lemma generateFieldMappings_kinds (a : Analysis) (slot : string) (m : Mapping) :
  Obj.get slot (generateFieldMappings a) = Some m ->
  m = MappingNull \/
  (exists f r s, m = MappingField f r s /\ (0 < r)%Q) \/
  (exists im, m = MappingImage im /\ (30 < ImageField.reliability im)%Q).
Proof.
  rewrite generateFieldMappings_get.
  destruct (String.eqb slot "image").
  - destruct (findImageMapping a) as [im|] eqn:E; intros H; inversion H; auto.
    right. right. exists im. split; [reflexivity|].
    destruct (findImageMapping_some _ E) as [_ [_ [_ [_ [_ [_ [_ [H30 _]]]]]]]]. exact H30.
  - destruct (strIn slot slotNames); [|discriminate].
    intros H. inversion H as [Hw]. clear H.
    unfold withConfidence.
    destruct (findBestField (slotCandidates slot) (fieldReliability a) (slotThreshold slot))
      as [v|] eqn:E; [|auto].
    destruct (proj1 (findBestField_cases _ _ _) v E) as [Hin [r [Hr Hpos]]].
    assert (Hv : Js.truthyStr v = true).
    { destruct v; [|reflexivity]. exfalso. revert Hin. unfold slotCandidates.
      repeat match goal with
             | |- context [String.eqb slot ?k] => destruct (String.eqb slot k)
             end; simpl; intuition discriminate. }
    rewrite Hv. right. left. do 3 eexists. split; [reflexivity|].
    unfold optOrZero. rewrite Hr.
    assert (Ht := slotThreshold_pos slot). destruct Hpos; lra.
Qed.

Lemma generateFieldMappings_NoDup (a : Analysis) :
  NoDup (Obj.keys (generateFieldMappings a)).
Proof.
  change (Obj.keys (generateFieldMappings a)) with slotNames.
  unfold slotNames.
  repeat (constructor; [simpl; intuition discriminate|]). constructor.
Qed.

(** The compatibility verdict depends on the feed type alone: an analysis is
    compatible exactly when its feed type is rss2.0, atom or rss1.0, and it
    is incompatible exactly when requiresProcessing starts with the
    unknown-feed-type entry, whatever the reliabilities are.  A slot gets a
    weak-mapping entry exactly when its mapping is null, or names a field of
    reliability below 50, or is an image candidate of reliability below
    50. *)
Theorem checkCompatibility_verdict :
  forall a : Analysis,
    (isCompatible (checkCompatibility a) = true <-> In (feedType a) supportedFeedTypes) /\
    (isCompatible (checkCompatibility a) = false <->
     hd_error (requiresProcessing (checkCompatibility a)) = Some unknownTypeEntry) /\
    (forall slot,
        In (weakEntry slot) (requiresProcessing (checkCompatibility a)) <->
        exists m,
          Obj.get slot (generateFieldMappings a) = Some m /\
          (m = MappingNull \/
           (exists f r s, m = MappingField f r s /\ (r < 50)%Q) \/
           (exists im, m = MappingImage im /\ (ImageField.reliability im < 50)%Q))).
Proof.
  intros a.
  change (isCompatible (checkCompatibility a)) with (strIn (feedType a) supportedFeedTypes).
  set (weak := flat_map (fun entry : string * Mapping =>
                           let (f, mapping) := entry in
                           if weakMapping mapping then [weakEntry f] else [])
                        (generateFieldMappings a)).
  change (requiresProcessing (checkCompatibility a))
    with ((if negb (strIn (feedType a) supportedFeedTypes) then [unknownTypeEntry] else [])
          ++ weak)%list.
  assert (Hweak : forall p, In p weak ->
                            exists slot m, In (slot, m) (generateFieldMappings a) /\
                                           weakMapping m = true /\ p = weakEntry slot).
  { intros p Hp. unfold weak in Hp. apply in_flat_map in Hp.
    destruct Hp as [[slot m] [Hin Hp]].
    destruct (weakMapping m) eqn:W; [|destruct Hp].
    destruct Hp as [<-|[]]. eauto. }
  split; [apply strIn_In|]. split.
  - destruct (strIn (feedType a) supportedFeedTypes); simpl.
    + split; [discriminate|]. intros H.
      destruct weak as [|p w] eqn:Ew; [discriminate|].
      simpl in H. inversion H; subst p.
      destruct (Hweak unknownTypeEntry (or_introl eq_refl)) as [slot [m [_ [_ E]]]].
      discriminate.
    + split; reflexivity.
  - intros slot. split.
    + intros H. apply in_app_or in H. destruct H as [H|H].
      * destruct (negb _); [|destruct H]. destruct H as [H|[]]. discriminate.
      * destruct (Hweak _ H) as [slot' [m [Hin [W E]]]].
        unfold weakEntry in E. inversion E; subst slot'.
        exists m. split; [apply In_get; [apply generateFieldMappings_NoDup | exact Hin]|].
        destruct m as [|v|f r s|im]; simpl in W.
        -- auto.
        -- exfalso.
           assert (G := @In_get _ _ _ _ (generateFieldMappings_NoDup a) Hin).
           destruct (generateFieldMappings_kinds _ _ G)
             as [C|[[f [r [s [C _]]]]|[im [C _]]]]; discriminate.
        -- right. left. exists f, r, s. split; [reflexivity|].
           apply andb_true_iff in W. destruct W as [_ W].
           unfold Qlessb in W. apply negb_true_iff in W.
           apply Qnot_le_lt. intros C. apply Qle_bool_iff in C. congruence.
        -- right. right. exists im. split; [reflexivity|].
           apply andb_true_iff in W. destruct W as [_ W].
           unfold Qlessb in W. apply negb_true_iff in W.
           apply Qnot_le_lt. intros C. apply Qle_bool_iff in C. congruence.
    + intros [m [G Hm]]. apply in_or_app. right. unfold weak. apply in_flat_map.
      exists (slot, m). split; [now apply get_In|].
      assert (W : weakMapping m = true).
      { destruct (generateFieldMappings_kinds _ _ G)
          as [->|[[f [r [s [-> Hpos]]]]|[im [-> Hpos]]]]; [reflexivity| |].
        - destruct Hm as [C|[[f' [r' [s' [C Hlt]]]]|[im [C _]]]]; try discriminate.
          inversion C; subst. simpl. apply andb_true_iff. split.
          + apply negb_true_iff. destruct (Qeq_bool r' 0) eqn:Z; [|reflexivity].
            apply Qeq_bool_iff in Z. rewrite Z in Hpos. lra.
          + unfold Qlessb. apply negb_true_iff.
            destruct (Qle_bool 50 r') eqn:L; [|reflexivity].
            apply Qle_bool_iff in L. lra.
        - destruct Hm as [C|[[f' [r' [s' [C _]]]]|[im' [C Hlt]]]]; try discriminate.
          inversion C; subst. simpl. apply andb_true_iff. split.
          + apply negb_true_iff.
            destruct (Qeq_bool (ImageField.reliability im') 0) eqn:Z; [|reflexivity].
            apply Qeq_bool_iff in Z. rewrite Z in Hpos. lra.
          + unfold Qlessb. apply negb_true_iff.
            destruct (Qle_bool 50 (ImageField.reliability im')) eqn:L; [|reflexivity].
            apply Qle_bool_iff in L. lra. }
      rewrite W. now left.
Qed.

(** ** The sampling loop: samples, patterns, field lists *)

Section Aggregation.

Context {host : Host}.

Lemma fieldSteps_samples (ds : bool) (itemFields : ItemFields) (ks : list string) (f : string) :
  NoDup ks ->
  forall st,
    Obj.get f (tallySamples (fold_left (fieldStep ds itemFields) ks st)) =
    if StrSet.mem f ks then
      let collected := match Obj.get f (tallySamples st) with Some l => l | None => [] end in
      match Obj.get f itemFields with
      | Some v => if (List.length collected <? 3)%nat && truthy v
                  then Some (collected ++ [v])%list else Some collected
      | None => Some collected
      end
    else Obj.get f (tallySamples st).
Proof.
  induction 1 as [|k ks Hk Hks IH]; intros st; [reflexivity|].
  simpl fold_left. rewrite IH.
  change (StrSet.mem f (k :: ks)) with (String.eqb f k || StrSet.mem f ks).
  destruct (String.eqb_spec f k) as [->|Hne]; simpl orb.
  - assert (M : StrSet.mem k ks = false).
    { destruct (StrSet.mem k ks) eqn:M; [|reflexivity]. apply mem_In in M. contradiction. }
    rewrite M. unfold fieldStep. simpl tallySamples.
    destruct (Obj.get k (tallySamples st)) as [l|] eqn:E.
    + rewrite E. destruct (Obj.get k itemFields) as [v|]; [|exact E].
      destruct ((List.length l <? 3)%nat && truthy v); [apply get_set_same | exact E].
    + rewrite get_set_same. destruct (Obj.get k itemFields) as [v|]; [|apply get_set_same].
      destruct ((List.length (@nil FieldValue) <? 3)%nat && truthy v);
        [apply get_set_same | apply get_set_same].
  - assert (O : Obj.get f (tallySamples (fieldStep ds itemFields st k)) =
                Obj.get f (tallySamples st)).
    { apply String.eqb_neq in Hne. unfold fieldStep. simpl tallySamples.
      destruct (Obj.get k (tallySamples st)) as [l|] eqn:E.
      - rewrite E. destruct (Obj.get k itemFields) as [v|]; [|reflexivity].
        destruct ((List.length l <? 3)%nat && truthy v); [now apply get_set_other | reflexivity].
      - rewrite get_set_same.
        destruct (Obj.get k itemFields) as [v|]; [|now apply get_set_other].
        destruct ((List.length (@nil FieldValue) <? 3)%nat && truthy v);
          rewrite !get_set_other by exact Hne; reflexivity. }
    rewrite O. reflexivity.
Qed.

Lemma fieldSteps_samples_keys (ds : bool) (itemFields : ItemFields) (ks : list string) :
  forall st,
    Obj.keys (tallySamples st) = allFields st -> NoDup (allFields st) ->
    Obj.keys (tallySamples (fold_left (fieldStep ds itemFields) ks st)) =
    allFields (fold_left (fieldStep ds itemFields) ks st) /\
    NoDup (allFields (fold_left (fieldStep ds itemFields) ks st)).
Proof.
  induction ks as [|k ks IH]; intros st HK HN; [auto|].
  simpl fold_left. apply IH.
  - unfold fieldStep. simpl tallySamples. simpl allFields.
    assert (HM : StrSet.mem k (allFields st) = Obj.has k (tallySamples st)).
    { rewrite <- HK. apply mem_keys. }
    unfold StrSet.add. rewrite HM. unfold Obj.has.
    destruct (Obj.get k (tallySamples st)) as [l|] eqn:E.
    + rewrite E. rewrite <- HK.
      destruct (Obj.get k itemFields) as [v|]; [|reflexivity].
      destruct ((List.length l <? 3)%nat && truthy v); [|reflexivity].
      rewrite keys_set. unfold Obj.has. now rewrite E.
    + rewrite get_set_same.
      assert (K0 : Obj.keys (Obj.set k (@nil FieldValue) (tallySamples st)) =
                   (allFields st ++ [k])%list).
      { rewrite keys_set. unfold Obj.has. now rewrite E, HK. }
      destruct (Obj.get k itemFields) as [v|]; [|exact K0].
      destruct ((List.length (@nil FieldValue) <? 3)%nat && truthy v); [|exact K0].
      rewrite keys_set. unfold Obj.has. now rewrite get_set_same.
  - unfold fieldStep. simpl allFields. unfold StrSet.add.
    destruct (StrSet.mem k (allFields st)) eqn:M; [exact HN|].
    apply NoDup_snoc; [exact HN|]. intros C. apply mem_In in C. congruence.
Qed.

Lemma fieldSteps_patterns (itemFields : ItemFields) (ks : list string) (f : string) :
  NoDup ks ->
  forall st,
    Obj.get f (tallyPatterns (fold_left (fieldStep true itemFields) ks st)) =
    if StrSet.mem f ks then
      match Obj.get f itemFields with
      | Some v => if truthy v
                  then Some (analyzeFieldPattern v (Obj.get f (tallyPatterns st)))
                  else Obj.get f (tallyPatterns st)
      | None => Obj.get f (tallyPatterns st)
      end
    else Obj.get f (tallyPatterns st).
Proof.
  induction 1 as [|k ks Hk Hks IH]; intros st; [reflexivity|].
  simpl fold_left. rewrite IH.
  change (StrSet.mem f (k :: ks)) with (String.eqb f k || StrSet.mem f ks).
  destruct (String.eqb_spec f k) as [->|Hne]; simpl orb.
  - assert (M : StrSet.mem k ks = false).
    { destruct (StrSet.mem k ks) eqn:M; [|reflexivity]. apply mem_In in M. contradiction. }
    rewrite M. unfold fieldStep. simpl tallyPatterns.
    destruct (Obj.get k itemFields) as [v|]; [|reflexivity].
    simpl andb. destruct (truthy v); [apply get_set_same | reflexivity].
  - assert (O : Obj.get f (tallyPatterns (fieldStep true itemFields st k)) =
                Obj.get f (tallyPatterns st)).
    { apply String.eqb_neq in Hne. unfold fieldStep. simpl tallyPatterns.
      destruct (Obj.get k itemFields) as [v|]; [|reflexivity].
      simpl andb. destruct (truthy v); [now apply get_set_other | reflexivity]. }
    rewrite O. reflexivity.
Qed.

Lemma fieldSteps_patterns_NoDup (ds : bool) (itemFields : ItemFields) (ks : list string) :
  forall st,
    NoDup (Obj.keys (tallyPatterns st)) ->
    NoDup (Obj.keys (tallyPatterns (fold_left (fieldStep ds itemFields) ks st))).
Proof.
  apply (@fold_left_preserves _ _ (fun st => NoDup (Obj.keys (tallyPatterns st)))).
  intros st k H. unfold fieldStep. simpl tallyPatterns.
  destruct (Obj.get k itemFields) as [v|]; [|exact H].
  destruct (ds && truthy v); [now apply NoDup_keys_set | exact H].
Qed.

Lemma truthyValues_snoc (f : string) (its : list ItemAnalysis) (it : ItemAnalysis) :
  truthyValues f (its ++ [it])%list =
  (truthyValues f its ++
   match Obj.get f (fields it) with
   | Some v => if truthy v then [v] else []
   | None => []
   end)%list.
Proof.
  unfold truthyValues. rewrite flat_map_app. simpl. now rewrite app_nil_r.
Qed.

Lemma firstn_snoc_short {A : Type} (n : nat) (l : list A) (x : A) :
  (List.length (firstn n l) < n)%nat -> firstn n (l ++ [x])%list = (firstn n l ++ [x])%list.
Proof.
  intros H. rewrite length_firstn in H.
  assert (Hl : (List.length l < n)%nat) by lia.
  rewrite (firstn_all2 (n := n) l) by lia.
  apply firstn_all2. rewrite length_app. simpl. lia.
Qed.

Lemma firstn_snoc_full {A : Type} (n : nat) (l : list A) (x : A) :
  ~ (List.length (firstn n l) < n)%nat -> firstn n (l ++ [x])%list = firstn n l.
Proof.
  intros H. rewrite length_firstn in H.
  rewrite firstn_app. assert (E : (n - List.length l = 0)%nat) by lia.
  rewrite E. simpl. now rewrite app_nil_r.
Qed.

Lemma truthyValues_absent (f : string) (its : list ItemAnalysis) :
  occurrencesIn f its = 0%Z -> truthyValues f its = [].
Proof.
  unfold occurrencesIn, truthyValues.
  induction its as [|it its IH]; simpl; intros H; [reflexivity|].
  unfold Obj.has in H. destruct (Obj.get f (fields it)).
  - simpl in H. lia.
  - now apply IH.
Qed.

Lemma samplesKept_empty : samplesKept emptyTally.
Proof.
  split; [|split]; simpl; [reflexivity | reflexivity | constructor].
Qed.

Lemma samplesKept_itemStep (ds : bool) (st : Tally) (entry : Z * Node) :
  counted st -> samplesKept st -> samplesKept (itemStep ds st entry).
Proof.
  intros [Hocc _] [Hs [HK HN]]. destruct entry as [i item]. unfold itemStep.
  set (itemFields := extractAllFields item ds).
  assert (Hnd : NoDup (Obj.keys itemFields)) by apply extractAllFields_NoDup.
  destruct (fieldSteps_samples_keys ds itemFields (Obj.keys itemFields) st HK HN) as [HK' HN'].
  split; [|split; [exact HK' | exact HN']].
  intros f. cbn [itemAnalysis tallySamples].
  rewrite fieldSteps_itemAnalysis, occurrencesIn_snoc, truthyValues_snoc.
  cbn [fields]. rewrite fieldSteps_samples by exact Hnd. rewrite mem_keys, Hs.
  assert (H0 := occurrencesIn_nonneg f (itemAnalysis st)).
  unfold Obj.has. destruct (Obj.get f itemFields) as [v|] eqn:Ev.
  - cbv zeta.
    destruct (Z.eqb_spec (occurrencesIn f (itemAnalysis st)) 0) as [E|E].
    + destruct (Z.eqb_spec (occurrencesIn f (itemAnalysis st) + 1) 0); [lia|].
      rewrite (truthyValues_absent _ _ E). simpl. destruct (truthy v); reflexivity.
    + destruct (Z.eqb_spec (occurrencesIn f (itemAnalysis st) + 1) 0); [lia|].
      destruct (truthy v).
      * rewrite andb_true_r.
        destruct (Nat.ltb_spec (List.length (firstn 3 (truthyValues f (itemAnalysis st)))) 3).
        -- now rewrite firstn_snoc_short.
        -- rewrite firstn_snoc_full by lia. reflexivity.
      * rewrite andb_false_r, app_nil_r. reflexivity.
  - rewrite Z.add_0_r, app_nil_r. reflexivity.
Qed.

Lemma patternsKept_empty : patternsKept emptyTally.
Proof.
  split; simpl; [reflexivity | constructor].
Qed.

Lemma patternsKept_itemStep (st : Tally) (entry : Z * Node) :
  patternsKept st -> patternsKept (itemStep true st entry).
Proof.
  intros [Hp HN]. destruct entry as [i item]. unfold itemStep.
  set (itemFields := extractAllFields item true).
  assert (Hnd : NoDup (Obj.keys itemFields)) by apply extractAllFields_NoDup.
  split; [|simpl; now apply fieldSteps_patterns_NoDup].
  intros f. simpl. rewrite fieldSteps_itemAnalysis, truthyValues_snoc. simpl fields.
  rewrite fieldSteps_patterns by exact Hnd. rewrite mem_keys, Hp.
  unfold observeAll. rewrite fold_left_app. unfold Obj.has.
  destruct (Obj.get f itemFields) as [v|]; [|reflexivity].
  destruct (truthy v); reflexivity.
Qed.

Lemma tally_invariants (ds : bool) (l : list (Z * Node)) :
  counted (fold_left (itemStep ds) l emptyTally) /\
  samplesKept (fold_left (itemStep ds) l emptyTally) /\
  NoDup (Obj.keys (tallyPatterns (fold_left (itemStep ds) l emptyTally))).
Proof.
  apply (@fold_left_preserves _ _
           (fun st => counted st /\ samplesKept st /\ NoDup (Obj.keys (tallyPatterns st)))).
  - intros st e [Hc [Hs Hn]]. split; [now apply counted_itemStep|].
    split; [now apply samplesKept_itemStep|].
    destruct e as [i item]. simpl. now apply fieldSteps_patterns_NoDup.
  - split; [apply counted_empty|]. split; [apply samplesKept_empty | constructor].
Qed.

Lemma patterns_invariant (l : list (Z * Node)) :
  patternsKept (fold_left (itemStep true) l emptyTally).
Proof.
  apply (@fold_left_preserves _ _ patternsKept); [|apply patternsKept_empty].
  intros. now apply patternsKept_itemStep.
Qed.

End Aggregation.

Section Structure.

Context {host : Host}.

Lemma analyzeFeedStructure_tally (xml : string) (sampleSize : JsNumber) (deepScan : bool) (a : Analysis) :
  analyzeFeedStructure xml sampleSize deepScan = inr a ->
  itemCount a =
    Z.of_nat (List.length (docQuerySelectorAll (parseFromString xml)
                                               (itemSelector (parseFromString xml)))) /\
  samplesAnalyzed a = mathMin sampleSize (itemCount a) /\
  items a = itemAnalysis (fold_left (itemStep deepScan)
                            (sampled (samplesAnalyzed a)
                               (docQuerySelectorAll (parseFromString xml)
                                                    (itemSelector (parseFromString xml))))
                            emptyTally) /\
  uniqueFields a = allFields (fold_left (itemStep deepScan)
                            (sampled (samplesAnalyzed a)
                               (docQuerySelectorAll (parseFromString xml)
                                                    (itemSelector (parseFromString xml))))
                            emptyTally) /\
  fieldSamples a = tallySamples (fold_left (itemStep deepScan)
                            (sampled (samplesAnalyzed a)
                               (docQuerySelectorAll (parseFromString xml)
                                                    (itemSelector (parseFromString xml))))
                            emptyTally) /\
  fieldPatterns a = tallyPatterns (fold_left (itemStep deepScan)
                            (sampled (samplesAnalyzed a)
                               (docQuerySelectorAll (parseFromString xml)
                                                    (itemSelector (parseFromString xml))))
                            emptyTally) /\
  fieldReliability a =
    fold_left (reliabilityStep
                 (fieldOccurrences
                    (fold_left (itemStep deepScan)
                       (sampled (samplesAnalyzed a)
                          (docQuerySelectorAll (parseFromString xml)
                                               (itemSelector (parseFromString xml))))
                       emptyTally))
                 (samplesAnalyzed a))
              (allFields
                 (fold_left (itemStep deepScan)
                    (sampled (samplesAnalyzed a)
                       (docQuerySelectorAll (parseFromString xml)
                                            (itemSelector (parseFromString xml))))
                    emptyTally))
              Obj.empty.
Proof.
  unfold analyzeFeedStructure.
  destruct (docQuerySelector (parseFromString xml) "parsererror"); [discriminate|].
  intros H. inversion H. simpl. repeat split; reflexivity.
Qed.

Lemma itemSteps_itemAnalysis (ds : bool) (l : list (Z * Node)) :
  forall st,
    itemAnalysis (fold_left (itemStep ds) l st) =
    (itemAnalysis st ++
     map (fun e => {| index := fst e; fields := extractAllFields (snd e) ds;
                      fieldCount := Z.of_nat (List.length (Obj.keys
                                                             (extractAllFields (snd e) ds))) |})
         l)%list.
Proof.
  induction l as [|[i item] l IH]; simpl; intros st.
  - now rewrite app_nil_r.
  - rewrite IH. simpl. rewrite fieldSteps_itemAnalysis. now rewrite <- app_assoc.
Qed.

Lemma map_fst_combine {A B : Type} (l : list A) :
  forall l' : list B, List.length l = List.length l' -> map fst (combine l l') = l.
Proof.
  induction l as [|x l IH]; intros [|y l'] H; simpl in *; try discriminate; auto.
  f_equal. apply IH. lia.
Qed.

Lemma sampled_indices (s : JsNumber) (nodes : list Node) :
  s <> PosInfinity -> (rounds s <= List.length nodes)%nat ->
  map fst (sampled s nodes) = map Z.of_nat (seq 0 (rounds s)) /\
  List.length (sampled s nodes) = rounds s.
Proof.
  intros Hs H. rewrite (sampled_rounds nodes Hs).
  assert (E : List.length (map Z.of_nat (seq 0 (rounds s))) =
              List.length (firstn (rounds s) nodes)).
  { rewrite length_map, length_seq, length_firstn. lia. }
  split; [now apply map_fst_combine|].
  rewrite length_combine, <- E, length_map, length_seq. lia.
Qed.

Lemma reliabilitySteps_keys (occ : Obj.t Z) (n : JsNumber) (l : list string) :
  NoDup l ->
  (forall f, In f l -> Obj.has f occ = true) ->
  forall acc,
    (forall f, In f l -> ~ In f (Obj.keys acc)) ->
    Obj.keys (fold_left (reliabilityStep occ n) l acc) = (Obj.keys acc ++ l)%list.
Proof.
  induction 1 as [|k l Hk Hl IH]; intros Hocc acc Hacc; simpl.
  - now rewrite app_nil_r.
  - assert (Hk' := Hocc k (or_introl eq_refl)). unfold Obj.has in Hk'.
    unfold reliabilityStep at 2. destruct (Obj.get k occ) as [c|]; [|discriminate].
    rewrite IH.
    + rewrite keys_set.
      assert (Hn : Obj.has k acc = false).
      { destruct (Obj.has k acc) eqn:E; [|reflexivity].
        apply has_keys in E. exfalso. apply (Hacc k); [now left | exact E]. }
      rewrite Hn. now rewrite <- app_assoc.
    + intros f Hf. apply Hocc. now right.
    + intros f Hf. rewrite keys_set.
      destruct (Obj.has k acc).
      * apply Hacc. now right.
      * rewrite in_app_iff. simpl. intros [C|[C|[]]].
        -- apply (Hacc f); [now right | exact C].
        -- subst. contradiction.
Qed.

Lemma analyzeFieldPattern_samples (v : FieldValue) (prior : option FieldPattern) :
  samples (analyzeFieldPattern v prior) =
  (samples (match prior with Some p => p | None => newPattern end) + 1)%Z.
Proof.
  destruct v; try reflexivity.
  apply (proj1 (analyzeFieldPattern_string s prior)).
Qed.

Lemma observeAll_samples (values : list FieldValue) :
  forall prior,
    option_map samples (observeAll values prior) =
    match values, prior with
    | [], None => None
    | _, _ => Some (samples (match prior with Some p => p | None => newPattern end)
                    + Z.of_nat (List.length values))%Z
    end.
Proof.
  induction values as [|v values IH]; intros prior.
  - destruct prior; simpl; [|reflexivity]. now rewrite Z.add_0_r.
  - simpl observeAll. unfold observeAll in IH |- *. simpl fold_left. rewrite IH.
    rewrite analyzeFieldPattern_samples.
    destruct values; destruct prior; simpl List.length; f_equal; lia.
Qed.

Lemma htmlFindings_cons (k : string) (p : FieldPattern) (fp : Obj.t FieldPattern) :
  htmlFindings ((k, p) :: fp) =
  ((if String.eqb k "title" && hasHTML p then
      [{| level := "warning"; message := "Title field contains HTML markup";
          field := k; reliability := None |}]
    else []) ++ htmlFindings fp)%list.
Proof. reflexivity. Qed.

Lemma htmlFindings_absent (fp : Obj.t FieldPattern) :
  ~ In "title" (Obj.keys fp) -> htmlFindings fp = [].
Proof.
  induction fp as [|[k p] fp IH]; intros H; [reflexivity|].
  rewrite htmlFindings_cons. simpl in H.
  destruct (String.eqb_spec k "title") as [->|Hne]; [tauto|].
  simpl. apply IH. tauto.
Qed.

Lemma htmlFindings_length (fp : Obj.t FieldPattern) :
  NoDup (Obj.keys fp) -> (List.length (htmlFindings fp) <= 1)%nat.
Proof.
  induction fp as [|[k p] fp IH]; intros H; [simpl; lia|].
  rewrite htmlFindings_cons, length_app. simpl in H.
  inversion H as [|x l Hx Hl]; subst.
  destruct (String.eqb_spec k "title") as [->|Hne].
  - rewrite (htmlFindings_absent fp Hx). destruct (hasHTML p); simpl; lia.
  - simpl. now apply IH.
Qed.

End Structure.

(** The sampling loop never analyzes more items than the feed has:
    samplesAnalyzed is the smaller of the sample size and the item count (and
    not a number when the sample size is not), the loop analyzes as many
    items as samplesAnalyzed rounded up to a whole number, none when it is
    not positive or not a number; for a whole sample size that is the
    smaller of the sample size and the item count.  The analyzed items carry
    the positions 0, 1, 2, ... in order, and the field count of each is its
    number of keys. *)
Theorem analyzeFeedStructure_sampling :
  forall (host : Host) (xml : string) (sampleSize : JsNumber) (deepScan : bool) (a : Analysis),
    analyzeFeedStructure xml sampleSize deepScan = inr a ->
    itemCount a =
      Z.of_nat (List.length (docQuerySelectorAll (parseFromString xml)
                                                 (itemSelector (parseFromString xml)))) /\
    samplesAnalyzed a = mathMin sampleSize (itemCount a) /\
    List.length (items a) = rounds (samplesAnalyzed a) /\
    (Z.of_nat (List.length (items a)) <= itemCount a)%Z /\
    (forall n : Z,
        sampleSize = Finite (inject_Z n) ->
        Z.of_nat (List.length (items a)) = Z.max 0 (Z.min n (itemCount a))) /\
    map index (items a) = map Z.of_nat (seq 0 (List.length (items a))) /\
    (forall it, In it (items a) ->
                fieldCount it = Z.of_nat (List.length (Obj.keys (fields it)))).
Proof.
  intros host xml sampleSize deepScan a Ha.
  destruct (analyzeFeedStructure_tally _ _ _ Ha) as [Hc [Hn [Hit _]]].
  set (nodes := docQuerySelectorAll (parseFromString xml)
                                    (itemSelector (parseFromString xml))) in *.
  destruct (mathMin_bounded sampleSize (List.length nodes)) as [Hfin Hle].
  rewrite <- Hc, <- Hn in Hfin, Hle.
  destruct (@sampled_indices (samplesAnalyzed a) nodes Hfin Hle) as [Hidx Hlen].
  rewrite itemSteps_itemAnalysis in Hit. simpl in Hit.
  assert (L : List.length (items a) = rounds (samplesAnalyzed a)).
  { rewrite Hit, length_map. exact Hlen. }
  split; [exact Hc|]. split; [exact Hn|]. split; [exact L|]. split; [lia|]. split; [|split].
  - intros n En. rewrite L, Hn, En. cbn [mathMin].
    destruct (Qle_bool (inject_Z n) (inject_Z (itemCount a))) eqn:E; cbn [rounds];
      rewrite Qceiling_Z.
    + apply Qle_bool_iff in E. rewrite <- Zle_Qle in E. lia.
    + assert (G : (itemCount a < n)%Z).
      { destruct (Z.lt_ge_cases (itemCount a) n) as [G|G]; [exact G|].
        rewrite Zle_Qle in G. apply Qle_bool_iff in G. congruence. }
      lia.
  - rewrite L, Hit, map_map. simpl. exact Hidx.
  - intros it Hin. rewrite Hit in Hin. apply in_map_iff in Hin.
    destruct Hin as [e [<- _]]. reflexivity.
Qed.

(** The sampling theorem on the demonstration host: with a sample size of
    1.5 both entries of the Atom document are analyzed. *)
Lemma analyzeFeedStructure_sampling_witness :
  exists a,
    analyzeFeedStructure (host := Demo.host) "atom" (Finite (3 # 2)) true = inr a /\
    samplesAnalyzed a = mathMin (Finite (3 # 2)) (itemCount a) /\
    List.length (items a) = rounds (samplesAnalyzed a) /\
    List.length (items a) = 2%nat.
Proof.
  destruct (analyzeFeedStructure (host := Demo.host) "atom" (Finite (3 # 2)) true)
    as [e|a] eqn:Ha; [vm_compute in Ha; discriminate|].
  exists a. split; [reflexivity|].
  destruct (analyzeFeedStructure_sampling Demo.host "atom" (Finite (3 # 2)) true Ha)
    as [_ [H1 [H2 _]]].
  split; [exact H1|]. split; [exact H2|].
  vm_compute in Ha. inversion Ha; subst a. reflexivity.
Defined.

(** The samples of a field are its first three truthy values in item order:
    a field has a samples entry as soon as it is a key of an analyzed item,
    never more than three samples, and never an empty or null one. *)
Theorem analyzeFeedStructure_samples :
  forall (host : Host) (xml : string) (sampleSize : JsNumber) (deepScan : bool) (a : Analysis),
    analyzeFeedStructure xml sampleSize deepScan = inr a ->
    (forall f,
        Obj.get f (fieldSamples a) =
        if (occurrencesIn f (items a) =? 0)%Z then None
        else Some (firstn 3 (truthyValues f (items a)))) /\
    (forall f l,
        Obj.get f (fieldSamples a) = Some l ->
        (List.length l <= 3)%nat /\
        forall v, In v l ->
                  truthy v = true /\
                  exists it, In it (items a) /\ Obj.get f (fields it) = Some v).
Proof.
  intros host xml sampleSize deepScan a Ha.
  destruct (analyzeFeedStructure_tally _ _ _ Ha) as [_ [_ [Hit [_ [Hs _]]]]].
  destruct (tally_invariants deepScan
              (sampled (samplesAnalyzed a)
                       (docQuerySelectorAll (parseFromString xml)
                                            (itemSelector (parseFromString xml)))))
    as [_ [[Hk _] _]].
  rewrite <- Hit, <- Hs in Hk.
  split; [exact Hk|].
  intros f l Hl. rewrite Hk in Hl.
  destruct (occurrencesIn f (items a) =? 0)%Z; [discriminate|].
  assert (El : l = firstn 3 (truthyValues f (items a))) by congruence.
  clear Hl. subst l. split.
  - rewrite length_firstn. lia.
  - intros v Hv.
    assert (Hv' : In v (truthyValues f (items a))).
    { rewrite <- (firstn_skipn 3 (truthyValues f (items a))). apply in_or_app. now left. }
    clear Hv. rename Hv' into Hv. unfold truthyValues in Hv.
    apply in_flat_map in Hv. destruct Hv as [it [Hin Hv]].
    destruct (Obj.get f (fields it)) as [v'|] eqn:E; [|destruct Hv].
    destruct (truthy v') eqn:T; [|destruct Hv].
    destruct Hv as [<-|[]]. split; [exact T|]. exists it. auto.
Qed.

(** The samples theorem on the demonstration host: link_type is a key of
    both entries but null in both, so it has an entry without samples. *)
Lemma analyzeFeedStructure_samples_witness :
  exists a,
    analyzeFeedStructure (host := Demo.host) "atom" 5 true = inr a /\
    Obj.get "link_type" (fieldSamples a) = Some [] /\
    Obj.get "link_rel" (fieldSamples a) = Some [VString "alternate"; VString "alternate"].
Proof.
  destruct (analyzeFeedStructure (host := Demo.host) "atom" 5 true) as [e|a] eqn:Ha;
    [vm_compute in Ha; discriminate|].
  exists a. split; [reflexivity|].
  destruct (analyzeFeedStructure_samples Demo.host "atom" 5 true Ha) as [H _].
  rewrite !H. vm_compute in Ha. inversion Ha; subst a. split; reflexivity.
Defined.

(** Under deep scan the pattern of a field is the fold of analyzeFieldPattern
    over its truthy values in item order: a field has a pattern exactly when
    it has a truthy value, and the samples counter of the pattern is the
    number of those values. *)
Theorem analyzeFeedStructure_patterns :
  forall (host : Host) (xml : string) (sampleSize : JsNumber) (a : Analysis),
    analyzeFeedStructure xml sampleSize true = inr a ->
    (forall f,
        Obj.get f (fieldPatterns a) = observeAll (truthyValues f (items a)) None) /\
    (forall f, Obj.get f (fieldPatterns a) = None <-> truthyValues f (items a) = []) /\
    (forall f p,
        Obj.get f (fieldPatterns a) = Some p ->
        samples p = Z.of_nat (List.length (truthyValues f (items a))) /\ (0 < samples p)%Z).
Proof.
  intros host xml sampleSize a Ha.
  destruct (analyzeFeedStructure_tally _ _ _ Ha) as [_ [_ [Hit [_ [_ [Hp _]]]]]].
  destruct (patterns_invariant
              (sampled (samplesAnalyzed a)
                       (docQuerySelectorAll (parseFromString xml)
                                            (itemSelector (parseFromString xml)))))
    as [Hk _].
  rewrite <- Hit, <- Hp in Hk.
  split; [exact Hk|]. split.
  - intros f. rewrite Hk.
    assert (S := observeAll_samples (truthyValues f (items a)) None).
    destruct (truthyValues f (items a)) as [|v vs].
    + split; reflexivity.
    + destruct (observeAll (v :: vs) None); split; discriminate.
  - intros f p Hf. rewrite Hk in Hf.
    assert (S := observeAll_samples (truthyValues f (items a)) None).
    rewrite Hf in S. simpl in S.
    destruct (truthyValues f (items a)) as [|v vs]; [discriminate|].
    inversion S as [E]. rewrite E. simpl List.length. lia.
Qed.

(** The patterns theorem on the demonstration host: the title has a truthy
    value in each of the two entries. *)
Lemma analyzeFeedStructure_patterns_witness :
  exists a p,
    analyzeFeedStructure (host := Demo.host) "atom" 5 true = inr a /\
    Obj.get "title" (fieldPatterns a) = Some p /\ samples p = 2%Z /\
    Obj.get "link_type" (fieldPatterns a) = None.
Proof.
  destruct (analyzeFeedStructure (host := Demo.host) "atom" 5 true) as [e|a] eqn:Ha;
    [vm_compute in Ha; discriminate|].
  destruct (analyzeFeedStructure_patterns Demo.host "atom" 5 Ha) as [_ [Hn Hs]].
  destruct (Obj.get "title" (fieldPatterns a)) as [p|] eqn:Hp;
    [|vm_compute in Ha; inversion Ha; subst a; discriminate].
  exists a, p. split; [reflexivity|]. split; [exact Hp|]. split.
  - rewrite (proj1 (Hs "title" p Hp)).
    vm_compute in Ha. inversion Ha; subst a. reflexivity.
  - apply Hn. vm_compute in Ha. inversion Ha; subst a. reflexivity.
Defined.

(** The field lists of an analysis agree: uniqueFields names each field
    once, in the order fields were first seen; fieldReliability and
    fieldSamples have exactly these keys in that order; a field is listed
    exactly when it is a key of an analyzed item; and no field has two
    patterns. *)
Theorem analyzeFeedStructure_field_lists :
  forall (host : Host) (xml : string) (sampleSize : JsNumber) (deepScan : bool) (a : Analysis),
    analyzeFeedStructure xml sampleSize deepScan = inr a ->
    NoDup (uniqueFields a) /\
    Obj.keys (fieldReliability a) = uniqueFields a /\
    Obj.keys (fieldSamples a) = uniqueFields a /\
    (forall f, In f (uniqueFields a) <->
               exists it, In it (items a) /\ Obj.has f (fields it) = true) /\
    NoDup (Obj.keys (fieldPatterns a)).
Proof.
  intros host xml sampleSize deepScan a Ha.
  destruct (analyzeFeedStructure_tally _ _ _ Ha) as [_ [_ [Hit [Hu [Hs [Hp Hr]]]]]].
  destruct (tally_invariants deepScan
              (sampled (samplesAnalyzed a)
                       (docQuerySelectorAll (parseFromString xml)
                                            (itemSelector (parseFromString xml)))))
    as [[Hocc Hall] [[_ [HK HN]] HP]].
  rewrite <- Hit in Hocc, Hall. rewrite <- Hu in Hall, HK, HN. rewrite <- Hs in HK.
  rewrite <- Hp in HP. rewrite <- Hu in Hr.
  split; [exact HN|]. split; [|split; [exact HK|split; [|exact HP]]].
  - rewrite Hr, reliabilitySteps_keys; [reflexivity | exact HN | | intros f _ []].
    intros f Hf. unfold Obj.has. rewrite Hocc.
    apply Hall in Hf. destruct (Z.eqb_spec (occurrencesIn f (items a)) 0); [lia | reflexivity].
  - intros f. rewrite Hall. unfold occurrencesIn. split.
    + intros H. destruct (filter (fun it => Obj.has f (fields it)) (items a)) as [|it r] eqn:E;
        [simpl in H; lia|].
      assert (Hin : In it (filter (fun it => Obj.has f (fields it)) (items a)))
        by (rewrite E; now left).
      apply filter_In in Hin. exists it. exact Hin.
    + intros [it [Hin Hh]].
      assert (Hf : In it (filter (fun it => Obj.has f (fields it)) (items a)))
        by (apply filter_In; auto).
      destruct (filter (fun it => Obj.has f (fields it)) (items a)); [destruct Hf|].
      simpl. lia.
Qed.

(** The field-list theorem on the demonstration host. *)
Lemma analyzeFeedStructure_field_lists_witness :
  exists a,
    analyzeFeedStructure (host := Demo.host) "atom" 5 false = inr a /\
    NoDup (uniqueFields a) /\
    Obj.keys (fieldReliability a) = uniqueFields a /\
    Obj.keys (fieldSamples a) = uniqueFields a.
Proof.
  destruct (analyzeFeedStructure (host := Demo.host) "atom" 5 false) as [e|a] eqn:Ha;
    [vm_compute in Ha; discriminate|].
  exists a. split; [reflexivity|].
  destruct (analyzeFeedStructure_field_lists Demo.host "atom" 5 false Ha) as [H1 [H2 [H3 _]]].
  auto.
Defined.

(** For an analysis the analyzer produced, the quality score separates valid
    from invalid feeds at 80: a valid analysis scores at least 80 and an
    invalid one at most 80. *)
Theorem quality_score_separates_validity :
  forall (host : Host) (xml : string) (sampleSize : JsNumber) (deepScan : bool) (a : Analysis),
    analyzeFeedStructure xml sampleSize deepScan = inr a ->
    (isValid (validateDataQuality a) = true ->
     (80 <= qualityScore (validateDataQuality a))%Z) /\
    (isValid (validateDataQuality a) = false ->
     (qualityScore (validateDataQuality a) <= 80)%Z).
Proof.
  intros host xml sampleSize deepScan a Ha.
  destruct (analyzeFeedStructure_tally _ _ _ Ha) as [_ [_ [_ [_ [_ [Hp _]]]]]].
  assert (HP : NoDup (Obj.keys (fieldPatterns a))).
  { rewrite Hp. apply tally_invariants. }
  assert (HL := @htmlFindings_length _ HP).
  change (isValid (validateDataQuality a))
    with (Nat.eqb (List.length (fst (itemsFindings (itemCount a))
                                ++ requiredFindings (fieldReliability a))%list) 0).
  change (qualityScore (validateDataQuality a))
    with (calculateQualityScore
            (fst (itemsFindings (itemCount a)) ++ requiredFindings (fieldReliability a))%list
            (snd (itemsFindings (itemCount a)) ++ dateFindings (fieldReliability a) ++
             htmlFindings (fieldPatterns a) ++ encodingFindings (encoding a))%list).
  unfold calculateQualityScore. rewrite !length_app.
  assert (W1 : (List.length (snd (itemsFindings (itemCount a))) <= 1)%nat).
  { unfold itemsFindings. destruct (itemCount a =? 0)%Z; [simpl; lia|].
    destruct (itemCount a <? 5)%Z; simpl; lia. }
  assert (W2 : (List.length (dateFindings (fieldReliability a)) <= 1)%nat).
  { unfold dateFindings. destruct (negb _); simpl; lia. }
  assert (W3 : (List.length (encodingFindings (encoding a)) <= 1)%nat).
  { unfold encodingFindings. destruct (negb _); simpl; lia. }
  split; intros H.
  - apply Nat.eqb_eq in H. lia.
  - apply Nat.eqb_neq in H. lia.
Qed.

(** The separation on the demonstration host: the Atom document lacks a
    description, which makes it invalid. *)
Lemma quality_score_separates_validity_witness :
  exists a,
    analyzeFeedStructure (host := Demo.host) "atom" 5 true = inr a /\
    isValid (validateDataQuality a) = false /\
    (qualityScore (validateDataQuality a) <= 80)%Z.
Proof.
  destruct (analyzeFeedStructure (host := Demo.host) "atom" 5 true) as [e|a] eqn:Ha;
    [vm_compute in Ha; discriminate|].
  exists a. split; [reflexivity|].
  assert (V : isValid (validateDataQuality a) = false)
    by (vm_compute in Ha; inversion Ha; subst a; reflexivity).
  split; [exact V|].
  exact (proj2 (quality_score_separates_validity Demo.host "atom" 5 true Ha) V).
Defined.

(** ** extractAllFields *)

Lemma fold_left_preserves_in {A B : Type} (P : A -> Prop) (f : A -> B -> A) (l : list B) :
  (forall a b, In b l -> P a -> P (f a b)) -> forall a, P a -> P (fold_left f l a).
Proof.
  induction l as [|b l IH]; simpl; intros Hf a Ha; [exact Ha|].
  apply IH; [intros; apply Hf; auto | apply Hf; auto].
Qed.

Lemma keys_set_In {V : Type} (x k : string) (v : V) (o : Obj.t V) :
  In x (Obj.keys (Obj.set k v o)) -> x = k \/ In x (Obj.keys o).
Proof.
  rewrite keys_set. destruct (Obj.has k o); [auto|].
  rewrite in_app_iff. simpl. intuition.
Qed.

Section Fields.

Context {host : Host}.

Lemma knownKeys_set (ds : bool) (k : string) (v : FieldValue) (o : ItemFields) :
  In k fixedFieldNames \/ (ds = true /\ Js.startsWith "auto_" k = true) ->
  knownKeys ds o -> knownKeys ds (Obj.set k v o).
Proof.
  intros Hk Ho x Hx. apply keys_set_In in Hx. destruct Hx as [->|Hx]; auto.
Qed.

Lemma extractAllFields_knownKeys (item : Node) (deepScan : bool) :
  knownKeys deepScan (extractAllFields item deepScan).
Proof.
  unfold extractAllFields.
  assert (S0 : knownKeys deepScan
                 (fold_left (standardStep item) standardFields Obj.empty)).
  { apply (@fold_left_preserves_in _ _ (knownKeys deepScan)); [|intros k []].
    intros o name Hin Ho. unfold standardStep.
    destruct (querySelector item name); [|exact Ho].
    apply knownKeys_set; [|exact Ho]. left. unfold fixedFieldNames.
    apply in_or_app. now left. }
  assert (S1 : knownKeys deepScan
                 (linkStep item (fold_left (standardStep item) standardFields Obj.empty))).
  { unfold linkStep. destruct (querySelector item "link"); [|exact S0].
    repeat apply knownKeys_set; try exact S0; left; unfold fixedFieldNames; simpl; auto 20. }
  assert (S2 : knownKeys deepScan
                 (fold_left (namespaceStep item) namespaceElements
                    (linkStep item (fold_left (standardStep item) standardFields Obj.empty)))).
  { apply (@fold_left_preserves_in _ _ (knownKeys deepScan)); [|exact S1].
    intros o sel Hin Ho. unfold namespaceStep.
    assert (Hn : In (fieldNameOf sel) fixedFieldNames).
    { unfold fixedFieldNames. apply in_or_app. right. apply in_or_app. right.
      apply in_or_app. left. now apply in_map. }
    destruct (querySelector item sel); [|exact Ho].
    destruct (String.eqb _ "enclosure"); [apply knownKeys_set; auto|].
    destruct (Js.includes "media" _); apply knownKeys_set; auto. }
  assert (S3 : forall o, knownKeys deepScan o -> knownKeys deepScan (imagesStep o)).
  { intros o Ho. unfold imagesStep. destruct (truthyOpt _); [|exact Ho].
    destruct (negb _); [|exact Ho]. apply knownKeys_set; [|exact Ho].
    left. unfold fixedFieldNames. simpl. auto 40. }
  apply S3. destruct deepScan; [|exact S2].
  apply (@fold_left_preserves _ _ (knownKeys true)); [|exact S2].
  intros o el Ho. unfold deepStep.
  destruct (negb _ && Js.truthyStr _); [|exact Ho].
  destruct (negb (Nat.eqb (List.length (Dom.children el)) 0)); [exact Ho|].
  destruct (negb (Nat.eqb (List.length (Dom.attributes el)) 0)).
  - apply knownKeys_set; [right; split; [reflexivity | apply prefix_append]|].
    apply knownKeys_set; [right; split; [reflexivity | apply prefix_append] | exact Ho].
  - apply knownKeys_set; [right; split; [reflexivity | apply prefix_append] | exact Ho].
Qed.

Lemma standardSteps_get (item : Node) (name : string) (l : list string) :
  NoDup l ->
  forall o,
    Obj.get name (fold_left (standardStep item) l o) =
    if StrSet.mem name l then
      match querySelector item name with
      | Some el => Some (trimmedText el)
      | None => Obj.get name o
      end
    else Obj.get name o.
Proof.
  induction 1 as [|k l Hk Hl IH]; intros o; [reflexivity|].
  simpl fold_left. rewrite IH.
  change (StrSet.mem name (k :: l)) with (String.eqb name k || StrSet.mem name l).
  destruct (String.eqb_spec name k) as [->|Hne]; simpl orb.
  - assert (M : StrSet.mem k l = false).
    { destruct (StrSet.mem k l) eqn:M; [|reflexivity]. apply mem_In in M. contradiction. }
    rewrite M. unfold standardStep.
    destruct (querySelector item k); [apply get_set_same | reflexivity].
  - apply String.eqb_neq in Hne.
    assert (O : Obj.get name (standardStep item o k) = Obj.get name o).
    { unfold standardStep. destruct (querySelector item k); [|reflexivity].
      now apply get_set_other. }
    rewrite O. reflexivity.
Qed.

Lemma standardFields_NoDup : NoDup standardFields.
Proof.
  unfold standardFields.
  repeat (constructor; [simpl; intuition discriminate|]). constructor.
Qed.

Lemma linkStep_get (item : Node) (k : string) (o : ItemFields) :
  String.eqb k "link" = false -> String.eqb k "link_rel" = false ->
  String.eqb k "link_type" = false ->
  Obj.get k (linkStep item o) = Obj.get k o.
Proof.
  intros H1 H2 H3. unfold linkStep. destruct (querySelector item "link"); [|reflexivity].
  now rewrite !get_set_other.
Qed.

Lemma imagesStep_congr (o1 o2 : ItemFields) :
  (forall k, Js.startsWith "auto_" k = false -> Obj.get k o1 = Obj.get k o2) ->
  forall k, Js.startsWith "auto_" k = false ->
            Obj.get k (imagesStep o1) = Obj.get k (imagesStep o2).
Proof.
  intros H k Hk. unfold imagesStep.
  rewrite (H "description" eq_refl), (H "content" eq_refl), (H "content_encoded" eq_refl).
  destruct (truthyOpt _); [|now apply H].
  destruct (negb _); [|now apply H].
  rewrite !get_set. destruct (String.eqb k "extracted_images"); [reflexivity | now apply H].
Qed.

End Fields.

(** The keys of the fields of an item are pairwise distinct, and each is one
    of the fixed field names (the standard fields, link_rel, link_type, the
    flattened namespace names, extracted_images) or, under deep scan only, a
    name that starts with auto_. *)
Theorem extractAllFields_keys :
  forall (host : Host) (item : Node) (deepScan : bool),
    NoDup (Obj.keys (extractAllFields item deepScan)) /\
    (forall k, In k (Obj.keys (extractAllFields item deepScan)) ->
               In k fixedFieldNames \/
               (deepScan = true /\ Js.startsWith "auto_" k = true)).
Proof.
  intros host item deepScan. split.
  - apply extractAllFields_NoDup.
  - apply extractAllFields_knownKeys.
Qed.

(** Deep scan only adds fields: a field whose name does not start with auto_
    has the same value, or is absent alike, with and without deep scan. *)
Theorem deep_scan_only_adds_auto_fields :
  forall (host : Host) (item : Node) (k : string),
    Js.startsWith "auto_" k = false ->
    Obj.get k (extractAllFields item true) = Obj.get k (extractAllFields item false).
Proof.
  intros host item k Hk. unfold extractAllFields.
  apply imagesStep_congr; [|exact Hk].
  intros k' Hk'. now apply deepSteps_get.
Qed.

(** Deep scan on the first entry of the demonstration document. *)
Lemma deep_scan_only_adds_auto_fields_witness :
  Obj.get "title" (extractAllFields (host := Demo.host) Demo.atomEntry true) =
  Obj.get "title" (extractAllFields (host := Demo.host) Demo.atomEntry false).
Proof.
  apply (deep_scan_only_adds_auto_fields Demo.host Demo.atomEntry "title" eq_refl).
Defined.

(** A standard field other than link holds the trimmed text of the first
    element the selector engine finds for its name, and is absent, rather
    than null or empty, when there is no such element; without a link
    element the item has none of link, link_rel and link_type. *)
Theorem standard_fields_absent_or_trimmed :
  forall (host : Host) (item : Node) (deepScan : bool),
    (forall name,
        In name standardFields -> name <> "link" ->
        Obj.get name (extractAllFields item deepScan) =
        option_map trimmedText (querySelector item name)) /\
    (querySelector item "link" = None ->
     Obj.get "link" (extractAllFields item deepScan) = None /\
     Obj.get "link_rel" (extractAllFields item deepScan) = None /\
     Obj.get "link_type" (extractAllFields item deepScan) = None).
Proof.
  intros host item deepScan. split.
  - intros name Hin Hne.
    assert (E : Obj.get name (extractAllFields item deepScan) =
                Obj.get name (fold_left (standardStep item) standardFields Obj.empty)).
    { unfold standardFields in Hin. simpl in Hin.
      repeat (destruct Hin as [<-|Hin];
              [try contradiction;
               rewrite extractAllFields_link_keys by reflexivity;
               apply linkStep_get; reflexivity|]).
      destruct Hin. }
    rewrite E, standardSteps_get by apply standardFields_NoDup.
    apply mem_In in Hin. rewrite Hin.
    destruct (querySelector item name); reflexivity.
  - intros Hl.
    rewrite !extractAllFields_link_keys by reflexivity.
    unfold linkStep. rewrite Hl.
    rewrite !standardSteps_get by apply standardFields_NoDup. rewrite Hl.
    repeat split; reflexivity.
Qed.

(** Standard fields on the second entry of the demonstration document,
    which has a summary and no identifier. *)
Lemma standard_fields_witness :
  Obj.get "summary" (extractAllFields (host := Demo.host) Demo.atomEntry2 true)
    = Some (VString "plain words") /\
  Obj.get "id" (extractAllFields (host := Demo.host) Demo.atomEntry2 true) = None.
Proof.
  split.
  - rewrite (proj1 (standard_fields_absent_or_trimmed Demo.host Demo.atomEntry2 true)
               "summary" ltac:(simpl; auto 20) ltac:(discriminate)).
    reflexivity.
  - rewrite (proj1 (standard_fields_absent_or_trimmed Demo.host Demo.atomEntry2 true)
               "id" ltac:(simpl; auto 20) ltac:(discriminate)).
    reflexivity.
Defined.

Lemma scanned_truthy (d c ce : option FieldValue) :
  truthyOpt (orVal (orVal d c) ce) = true ->
  exists s, orVal (orVal ce c) d = Some s /\ truthy s = true.
Proof.
  unfold orVal.
  destruct (truthyOpt ce) eqn:Tce; cbn iota.
  - intros _. rewrite Tce. destruct ce as [x|]; [|discriminate]. exists x. now split.
  - destruct (truthyOpt c) eqn:Tc; cbn iota.
    + intros _. destruct c as [y|]; [|discriminate]. exists y. now split.
    + destruct (truthyOpt d) eqn:Td; cbn iota.
      * intros _. destruct d as [z|]; [|discriminate]. exists z. now split.
      * rewrite ?Tc; cbn iota. rewrite ?Tce. discriminate.
Qed.

(** The field extracted_images is never empty: when present it holds a
    non-empty list of images, those found in the text of content_encoded,
    else content, else description, whichever is the first to be truthy. *)
Theorem extracted_images_not_empty :
  forall (host : Host) (item : Node) (deepScan : bool) (v : FieldValue),
    Obj.get "extracted_images" (extractAllFields item deepScan) = Some v ->
    exists images scanned,
      v = VImages images /\ images <> [] /\ truthy scanned = true /\
      images = extractImagesFromHTML (toStr scanned) /\
      orVal (orVal (Obj.get "content_encoded" (extractAllFields item deepScan))
                   (Obj.get "content" (extractAllFields item deepScan)))
            (Obj.get "description" (extractAllFields item deepScan)) = Some scanned.
Proof.
  intros host item deepScan v.
  assert (C : forall k, Js.startsWith "auto_" k = false ->
                        String.eqb k "extracted_images" = false ->
                        Obj.get k (extractAllFields item deepScan) =
                        Obj.get k (if deepScan
                                   then fold_left deepStep (querySelectorAll item "*")
                                          (fold_left (namespaceStep item) namespaceElements
                                             (linkStep item
                                                (fold_left (standardStep item) standardFields
                                                           Obj.empty)))
                                   else fold_left (namespaceStep item) namespaceElements
                                          (linkStep item
                                             (fold_left (standardStep item) standardFields
                                                        Obj.empty)))).
  { intros k _ Hk. unfold extractAllFields. now apply imagesStep_get. }
  rewrite (C "content_encoded" eq_refl eq_refl), (C "content" eq_refl eq_refl),
          (C "description" eq_refl eq_refl).
  unfold extractAllFields.
  set (F := if deepScan
            then fold_left deepStep (querySelectorAll item "*")
                   (fold_left (namespaceStep item) namespaceElements
                      (linkStep item (fold_left (standardStep item) standardFields Obj.empty)))
            else fold_left (namespaceStep item) namespaceElements
                   (linkStep item (fold_left (standardStep item) standardFields Obj.empty))).
  assert (N : Obj.get "extracted_images" F = None).
  { unfold F. destruct deepScan.
    - rewrite deepSteps_get by reflexivity. rewrite namespaceSteps_get by reflexivity.
      rewrite linkStep_get by reflexivity.
      now rewrite standardSteps_get by apply standardFields_NoDup.
    - rewrite namespaceSteps_get by reflexivity. rewrite linkStep_get by reflexivity.
      now rewrite standardSteps_get by apply standardFields_NoDup. }
  unfold imagesStep.
  destruct (truthyOpt (orVal (orVal (Obj.get "description" F) (Obj.get "content" F))
                             (Obj.get "content_encoded" F))) eqn:T;
    [|rewrite N; discriminate].
  destruct (scanned_truthy _ _ _ T) as (scanned & S & Ts). rewrite S.
  destruct (negb (Nat.eqb (List.length (extractImagesFromHTML (toStr scanned))) 0)) eqn:L;
    [|rewrite N; discriminate].
  rewrite get_set_same. intros H. inversion H; subst v.
  exists (extractImagesFromHTML (toStr scanned)), scanned.
  split; [reflexivity|]. split.
  - intros E. rewrite E in L. discriminate.
  - repeat split; assumption.
Qed.

(** Images found in the description of an item of the gallery host. *)
Lemma extracted_images_witness :
  exists images scanned,
    Obj.get "extracted_images" (extractAllFields (host := Gallery.host) Gallery.item false)
      = Some (VImages images) /\
    images <> [] /\ truthy scanned = true /\
    images = extractImagesFromHTML (host := Gallery.host) (toStr scanned).
Proof.
  destruct (Obj.get "extracted_images"
              (extractAllFields (host := Gallery.host) Gallery.item false)) as [v|] eqn:E;
    [|vm_compute in E; discriminate].
  destruct (extracted_images_not_empty Gallery.host Gallery.item false E)
    as (images & scanned & Hv & Hne & Ht & Hi & _).
  exists images, scanned. subst v. repeat split; assumption.
Defined.

(** ** analyzeFieldPattern over a sequence of values *)

Section Patterns.

Context {host : Host}.

Lemma summarises_newPattern : summarises [] newPattern.
Proof.
  unfold summarises. simpl. repeat split; try tauto.
  - intros [[_ H]|[[_ H]|[[_ H]|[_ H]]]]; discriminate.
  - intros [[_ H]|[_ H]]; discriminate.
Qed.

Lemma summarises_step (values : list FieldValue) (q : FieldPattern) (v : FieldValue) :
  summarises values q ->
  summarises (values ++ [v]) (analyzeFieldPattern v (Some q)).
Proof.
  unfold summarises. intros (Hh & Hu & Hd & Hf & Ht).
  rewrite !existsb_app. cbn [existsb]. rewrite !orb_false_r.
  assert (Hf' : forall x, In x (formats q) ->
                          (x = "html" /\ existsb htmlValue values = true) \/
                          (x = "url" /\ existsb urlValue values = true) \/
                          (x = "date" /\ existsb dateValue values = true) \/
                          (x = "structured" /\ existsb notString values = true))
    by (intros x; apply Hf).
  assert (Ht' : forall x, In x (types q) ->
                          (x = "string" /\ existsb isString values = true) \/
                          (x = "object" /\ existsb notString values = true))
    by (intros x; apply Ht).
  assert (Fh : existsb htmlValue values = true -> In "html" (formats q))
    by (intros E; apply Hf; auto).
  assert (Fu : existsb urlValue values = true -> In "url" (formats q))
    by (intros E; apply Hf; auto).
  assert (Fd : existsb dateValue values = true -> In "date" (formats q))
    by (intros E; apply Hf; auto 6).
  assert (Fs : existsb notString values = true -> In "structured" (formats q))
    by (intros E; apply Hf; auto 6).
  assert (Ts : existsb isString values = true -> In "string" (types q))
    by (intros E; apply Ht; auto).
  assert (To : existsb notString values = true -> In "object" (types q))
    by (intros E; apply Ht; auto).
  clear Hf Ht.
  destruct v as [s| | | | |];
    try (unfold analyzeFieldPattern, notString, isString, htmlValue, urlValue, dateValue;
         cbn [countSample addFormat addType hasHTML hasURL hasDate formats types negb];
         rewrite !orb_false_r, !orb_true_r;
         repeat split; auto;
         intros; rewrite ?add_In in *;
         repeat match goal with
                | H : _ \/ _ |- _ => destruct H
                | H : _ /\ _ |- _ => destruct H
                | H : In _ (formats q) |- _ => apply Hf' in H
                | H : In _ (types q) |- _ => apply Ht' in H
                end; subst; auto 10; fail).
  unfold analyzeFieldPattern, notString, isString, htmlValue, urlValue, dateValue.
  cbn [negb]. rewrite !orb_false_r.
  destruct (regexp_test ReHtmlTag s), (regexp_test ReHttpUrl s), (isValidDate s);
    cbn [countSample updateAverage markHTML markURL markDate addType
         hasHTML hasURL hasDate formats types];
    rewrite ?orb_false_r, ?orb_true_r;
    (repeat split; auto;
     intros; rewrite ?add_In in *;
     repeat match goal with
            | H : _ \/ _ |- _ => destruct H
            | H : _ /\ _ |- _ => destruct H
            | H : In _ (formats q) |- _ => apply Hf' in H
            | H : In _ (types q) |- _ => apply Ht' in H
            end; subst; auto 10).
Qed.

Lemma observeAll_snoc (values : list FieldValue) (v : FieldValue) :
  observeAll (values ++ [v]) None =
  Some (analyzeFieldPattern v
          (Some (match observeAll values None with Some p => p | None => newPattern end))).
Proof.
  unfold observeAll. rewrite fold_left_app. simpl.
  destruct (fold_left _ values None); reflexivity.
Qed.

Lemma observeAll_summarises (values : list FieldValue) :
  summarises values (match observeAll values None with Some p => p | None => newPattern end).
Proof.
  induction values as [|v values IH] using rev_ind.
  - apply summarises_newPattern.
  - rewrite observeAll_snoc. now apply summarises_step.
Qed.

Lemma existsb_Permutation {A : Type} (f : A -> bool) (l l' : list A) :
  Permutation l l' -> existsb f l = existsb f l'.
Proof.
  induction 1; simpl.
  - reflexivity.
  - now rewrite IHPermutation.
  - destruct (f x), (f y); reflexivity.
  - congruence.
Qed.

End Patterns.

(** The flags of a pattern do not depend on the order or the number of the
    observations: after any non-empty sequence of values, hasHTML, hasURL and
    hasDate tell whether some observed string contains a tag, contains an
    http(s) URL, parses as a date; formats holds html, url, date exactly
    with these flags and structured exactly when some value was not a
    string; types holds string and object exactly when a string and a value
    that is not a string were seen. *)
Theorem pattern_flags_summarise_values :
  forall (host : Host) (values : list FieldValue) (p : FieldPattern),
    observeAll values None = Some p ->
    summarises values p /\ values <> [].
Proof.
  intros host values p H. split.
  - assert (S := observeAll_summarises values). now rewrite H in S.
  - intros ->. discriminate.
Qed.

(** The flags of the title of the first demonstration entry, which holds a
    tag and no URL. *)
Lemma pattern_flags_witness :
  exists p,
    observeAll (host := Demo.host) [VString "First <b>post</b>"; VString "Second post"] None
      = Some p /\
    summarises (host := Demo.host) [VString "First <b>post</b>"; VString "Second post"] p /\
    hasHTML p = true /\ hasURL p = false.
Proof.
  eexists. split; [reflexivity|]. split; [|split; reflexivity].
  apply (pattern_flags_summarise_values Demo.host
           [VString "First <b>post</b>"; VString "Second post"] eq_refl).
Defined.

(** Observing the same values in another order gives the same flags, the
    same number of samples and the same sets of types and formats (as sets:
    their insertion order may differ). *)
Theorem pattern_flags_order_independent :
  forall (host : Host) (values values' : list FieldValue) (p p' : FieldPattern),
    Permutation values values' ->
    observeAll values None = Some p ->
    observeAll values' None = Some p' ->
    hasHTML p = hasHTML p' /\ hasURL p = hasURL p' /\ hasDate p = hasDate p' /\
    samples p = samples p' /\
    (forall x, In x (formats p) <-> In x (formats p')) /\
    (forall x, In x (types p) <-> In x (types p')).
Proof.
  intros host values values' p p' HP H H'.
  assert (S := observeAll_summarises values). rewrite H in S.
  assert (S' := observeAll_summarises values'). rewrite H' in S'.
  destruct S as (Hh & Hu & Hd & Hf & Ht). destruct S' as (Hh' & Hu' & Hd' & Hf' & Ht').
  assert (N : samples p = samples p').
  { assert (E := observeAll_samples values None). rewrite H in E.
    assert (E' := observeAll_samples values' None). rewrite H' in E'.
    rewrite (Permutation_length HP) in E.
    destruct values as [|v l]; [discriminate|].
    destruct values' as [|v' l']; [discriminate|].
    simpl option_map in E, E'. congruence. }
  rewrite Hh, Hu, Hd, Hh', Hu', Hd'.
  rewrite (existsb_Permutation htmlValue HP), (existsb_Permutation urlValue HP),
          (existsb_Permutation dateValue HP).
  repeat split; auto.
  - intros Hx. apply Hf'. apply Hf in Hx.
    now rewrite <- (existsb_Permutation htmlValue HP), <- (existsb_Permutation urlValue HP),
                <- (existsb_Permutation dateValue HP), <- (existsb_Permutation notString HP).
  - intros Hx. apply Hf. apply Hf' in Hx.
    now rewrite (existsb_Permutation htmlValue HP), (existsb_Permutation urlValue HP),
                (existsb_Permutation dateValue HP), (existsb_Permutation notString HP).
  - intros Hx. apply Ht'. apply Ht in Hx.
    now rewrite <- (existsb_Permutation isString HP), <- (existsb_Permutation notString HP).
  - intros Hx. apply Ht. apply Ht' in Hx.
    now rewrite (existsb_Permutation isString HP), (existsb_Permutation notString HP).
Qed.

(** The two titles of the demonstration entries in both orders. *)
Lemma pattern_flags_order_witness :
  exists p p',
    observeAll (host := Demo.host) [VString "First <b>post</b>"; VString "Second post"] None
      = Some p /\
    observeAll (host := Demo.host) [VString "Second post"; VString "First <b>post</b>"] None
      = Some p' /\
    hasHTML p = hasHTML p' /\ samples p = samples p'.
Proof.
  eexists. eexists. split; [reflexivity|]. split; [reflexivity|].
  destruct (pattern_flags_order_independent Demo.host
              (values := [VString "First <b>post</b>"; VString "Second post"])
              (values' := [VString "Second post"; VString "First <b>post</b>"])
              (perm_swap _ _ []) eq_refl eq_refl) as (Hh & _ & _ & Hn & _).
  split; [exact Hh | exact Hn].
Defined.

(** ** analyzeRSSFeed *)

(** A success report is consistent: it names the URL of the inputs, its
    analysis is that of the fetched body with a sample size of 5 and deep
    scan on when the inputs leave them out, its mappings, validation and
    compatibility are computed from that one analysis, and producing it
    took exactly one request, a GET of the URL. *)
Theorem success_report_is_consistent :
  forall (host : Host) (inputs : AnalyzeRSSInputs) (t : Trace)
         (u : string) (a : Analysis) (m : Obj.t Mapping) (v : Validation)
         (c : Compatibility) (stamp : string),
    fst (analyzeRSSFeed inputs t) = Succeeded u a m v c stamp ->
    feed_url inputs = Some u /\ u <> "" /\
    analyzeFeedStructure (response_body (http_request (feedRequest u)))
                         (sizeOf inputs) (deepOf inputs) = inr a /\
    m = generateFieldMappings a /\ v = validateDataQuality a /\
    c = checkCompatibility a /\ stamp = now /\
    snd (analyzeRSSFeed inputs t) = (t ++ [feedRequest u])%list /\
    method (feedRequest u) = "GET" /\ url (feedRequest u) = u.
Proof.
  intros host inputs t u a m v c stamp H.
  destruct (feed_url inputs) as [u'|] eqn:Hu;
    [|unfold analyzeRSSFeed in H; rewrite Hu in H; discriminate].
  destruct (String.eqb_spec u' "") as [->|Hne];
    [unfold analyzeRSSFeed in H; rewrite Hu in H; discriminate|].
  rewrite (analyzeRSSFeed_run inputs t Hu Hne) in *. cbn [fst snd] in *.
  destruct (response_success (http_request (feedRequest u'))); [|discriminate].
  fold (sizeOf inputs) in H. fold (deepOf inputs) in H.
  destruct (analyzeFeedStructure (response_body (http_request (feedRequest u')))
                                 (sizeOf inputs) (deepOf inputs)) as [e|a'] eqn:Ea;
    [discriminate|].
  inversion H; subst. repeat split; auto.
Qed.

(** The report for the Atom feed of the demonstration host. *)
Lemma success_report_witness :
  exists a m v c stamp,
    fst (analyzeRSSFeed (host := Demo.host) (Demo.inputs "https://x/atom" None) [])
      = Succeeded "https://x/atom" a m v c stamp /\
    m = generateFieldMappings a /\
    snd (analyzeRSSFeed (host := Demo.host) (Demo.inputs "https://x/atom" None) [])
      = [feedRequest "https://x/atom"].
Proof.
  destruct (fst (analyzeRSSFeed (host := Demo.host) (Demo.inputs "https://x/atom" None) []))
    as [e|u a m v c stamp|e d] eqn:E; try (vm_compute in E; discriminate).
  assert (Eu : u = "https://x/atom") by (vm_compute in E; congruence).
  subst u. exists a, m, v, c, stamp. split; [reflexivity|].
  destruct (success_report_is_consistent Demo.host _ _ E)
    as (_ & _ & _ & Hm & _ & _ & _ & Ht & _).
  split; [exact Hm | exact Ht].
Defined.

(** ** generateParsingInstructions and storeMappingConfig *)

Lemma fieldOf_inl (m : Obj.t Mapping) (slot x : string) :
  fieldOf m slot = inl x ->
  x = slot /\ (Obj.get slot m = None \/ Obj.get slot m = Some MappingNull).
Proof.
  unfold fieldOf. destruct (Obj.get slot m) as [[| | |]|]; intros H; inversion H; auto.
Qed.

Lemma fieldOf_inr (m : Obj.t Mapping) (slot : string) :
  (exists f, fieldOf m slot = inr f) <->
  exists v, Obj.get slot m = Some v /\ v <> MappingNull.
Proof.
  unfold fieldOf. destruct (Obj.get slot m) as [[| | |]|]; split.
  all: try (intros [f H]; discriminate).
  all: try (intros [v [H Hn]]; inversion H; subst; congruence).
  all: try (intros _; eexists; reflexivity).
  all: intros _; eexists; split; [reflexivity | discriminate].
Qed.

Lemma withConfidence_some (a : Analysis) (f : string) :
  Js.truthyStr f = true ->
  withConfidence a (Some f) =
  MappingField f (scoreOf (fieldReliability a) f) (recordedSample f a).
Proof.
  intros H. unfold withConfidence, recordedSample, firstSample, scoreOf. rewrite H.
  f_equal. destruct (Obj.get f (fieldSamples a)) as [l|]; [|reflexivity].
  destruct (hd_error l); reflexivity.
Qed.

Lemma required_slot_mapping (a : Analysis) (slot : string) :
  In slot requiredSlots ->
  Obj.get slot (generateFieldMappings a) =
  Some (match findBestField (slotCandidates slot) (fieldReliability a) (slotThreshold slot) with
        | Some f => MappingField f (scoreOf (fieldReliability a) f) (recordedSample f a)
        | None => MappingNull
        end).
Proof.
  intros Hs. rewrite generateFieldMappings_get.
  assert (E : String.eqb slot "image" = false /\ strIn slot slotNames = true).
  { unfold requiredSlots in Hs. simpl in Hs.
    destruct Hs as [<-|[<-|[<-|[<-|[]]]]]; split; reflexivity. }
  destruct E as [E1 E2]. rewrite E1, E2. f_equal.
  destruct (findBestField (slotCandidates slot) (fieldReliability a) (slotThreshold slot))
    as [f|] eqn:Ef; [|reflexivity].
  apply withConfidence_some.
  destruct (proj1 (findBestField_cases _ _ _) f Ef) as [Hin _].
  destruct f; [|reflexivity]. exfalso.
  unfold requiredSlots in Hs. simpl in Hs.
  destruct Hs as [<-|[<-|[<-|[<-|[]]]]]; simpl in Hin; intuition discriminate.
Qed.

Lemma required_slot_positive (a : Analysis) (slot : string) :
  In slot requiredSlots ->
  ((exists v, Obj.get slot (generateFieldMappings a) = Some v /\ v <> MappingNull) <->
   exists g, In g (slotCandidates slot) /\ (0 < scoreOf (fieldReliability a) g)%Q).
Proof.
  intros Hs. rewrite (required_slot_mapping a Hs).
  assert (Ht := slotThreshold_pos slot).
  destruct (findBestField_cases (slotCandidates slot) (fieldReliability a) (slotThreshold slot))
    as [Hsome Hnone].
  destruct (findBestField (slotCandidates slot) (fieldReliability a) (slotThreshold slot))
    as [f|] eqn:Ef; split.
  - intros _. destruct (Hsome f eq_refl) as [Hin [r [Hr Hpos]]].
    exists f. split; [exact Hin|]. unfold scoreOf. rewrite Hr. simpl. destruct Hpos; lra.
  - intros _. eexists. split; [reflexivity | discriminate].
  - intros [v [H Hn]]. inversion H; subst. congruence.
  - intros [g [Hin Hpos]]. exfalso.
    destruct (proj1 Hnone eq_refl g Hin) as [_ Hle]. lra.
Qed.

Lemma generateParsingInstructions_inr (m : Obj.t Mapping) :
  (exists i, generateParsingInstructions m = inr i) <->
  forall slot, In slot requiredSlots ->
               exists v, Obj.get slot m = Some v /\ v <> MappingNull.
Proof.
  split.
  - intros [i H] slot Hs. apply fieldOf_inr.
    unfold generateParsingInstructions in H.
    destruct (fieldOf m "title") as [|ft] eqn:E1; [discriminate|].
    destruct (fieldOf m "link") as [|fl] eqn:E2; [discriminate|].
    destruct (fieldOf m "description") as [|fd] eqn:E3; [discriminate|].
    destruct (fieldOf m "date") as [|fdt] eqn:E4; [discriminate|].
    unfold requiredSlots in Hs. simpl in Hs.
    destruct Hs as [<-|[<-|[<-|[<-|[]]]]]; eauto.
  - intros H.
    assert (H1 := proj2 (fieldOf_inr m "title") (H "title" ltac:(simpl; auto))).
    assert (H2 := proj2 (fieldOf_inr m "link") (H "link" ltac:(simpl; auto))).
    assert (H3 := proj2 (fieldOf_inr m "description") (H "description" ltac:(simpl; auto))).
    assert (H4 := proj2 (fieldOf_inr m "date") (H "date" ltac:(simpl; auto))).
    destruct H1 as [f1 E1], H2 as [f2 E2], H3 as [f3 E3], H4 as [f4 E4].
    unfold generateParsingInstructions. rewrite E1, E2, E3, E4. eexists. reflexivity.
Qed.

(** generateParsingInstructions fails on incomplete mappings: it returns
    instructions exactly when each of title, link, description and date holds
    a mapping that is not null, and otherwise throws at the first of these
    slots that is missing or null; the image, author, category and content
    slots never make it fail. *)
Theorem parsing_instructions_need_four_slots :
  forall m : Obj.t Mapping,
    ((exists i, generateParsingInstructions m = inr i) <->
     forall slot, In slot requiredSlots ->
                  exists v, Obj.get slot m = Some v /\ v <> MappingNull) /\
    (forall slot,
        generateParsingInstructions m = inl slot ->
        exists before after,
          requiredSlots = (before ++ slot :: after)%list /\
          (Obj.get slot m = None \/ Obj.get slot m = Some MappingNull) /\
          (forall s, In s before -> exists v, Obj.get s m = Some v /\ v <> MappingNull)).
Proof.
  intros m. split; [apply generateParsingInstructions_inr|].
  intros slot H. unfold generateParsingInstructions in H.
  destruct (fieldOf m "title") as [x1|ft] eqn:E1.
  { inversion H; subst x1. destruct (fieldOf_inl _ _ E1) as [-> Hn].
    exists [], ["link"; "description"; "date"]. split; [reflexivity|].
    split; [exact Hn|]. intros s []. }
  destruct (fieldOf m "link") as [x2|fl] eqn:E2.
  { inversion H; subst x2. destruct (fieldOf_inl _ _ E2) as [-> Hn].
    exists ["title"], ["description"; "date"]. split; [reflexivity|].
    split; [exact Hn|]. intros s [<-|[]]. apply fieldOf_inr. eauto. }
  destruct (fieldOf m "description") as [x3|fd] eqn:E3.
  { inversion H; subst x3. destruct (fieldOf_inl _ _ E3) as [-> Hn].
    exists ["title"; "link"], ["date"]. split; [reflexivity|].
    split; [exact Hn|]. intros s [<-|[<-|[]]]; apply fieldOf_inr; eauto. }
  destruct (fieldOf m "date") as [x4|fdt] eqn:E4; [|discriminate].
  inversion H; subst x4. destruct (fieldOf_inl _ _ E4) as [-> Hn].
  exists ["title"; "link"; "description"], []. split; [reflexivity|].
  split; [exact Hn|]. intros s [<-|[<-|[<-|[]]]]; apply fieldOf_inr; eauto.
Qed.

(** On the recommended mappings of an analysis, generateParsingInstructions
    returns instructions exactly when each of title, link, description and
    date has a candidate field of positive reliability; in particular it
    throws for an analysis without reliabilities, such as that of a feed
    without items.  The text instructions it returns select by the field
    names of the mappings. *)
Theorem parsing_instructions_of_recommended_mappings :
  forall a : Analysis,
    ((exists i, generateParsingInstructions (generateFieldMappings a) = inr i) <->
     forall slot, In slot requiredSlots ->
                  exists g, In g (slotCandidates slot) /\
                            (0 < scoreOf (fieldReliability a) g)%Q) /\
    (fieldReliability a = Obj.empty ->
     generateParsingInstructions (generateFieldMappings a) = inl "title") /\
    (forall i,
        generateParsingInstructions (generateFieldMappings a) = inr i ->
        exists ft fl fd fdt,
          findBestField (slotCandidates "title") (fieldReliability a) 90 = Some ft /\
          findBestField (slotCandidates "link") (fieldReliability a) 90 = Some fl /\
          findBestField (slotCandidates "description") (fieldReliability a) 70 = Some fd /\
          findBestField (slotCandidates "date") (fieldReliability a) 70 = Some fdt /\
          Instructions.title i = textInstruction ft /\
          Instructions.description i = textInstruction fd /\
          Instructions.date i = textInstruction fdt /\
          Instructions.link i =
          "item.querySelector('" ++ fl ++ "')?.textContent || item.querySelector('"
          ++ fl ++ "')?.getAttribute('href')").
Proof.
  intros a. split; [|split].
  - rewrite generateParsingInstructions_inr. split.
    + intros H slot Hs. apply (required_slot_positive a Hs). now apply H.
    + intros H slot Hs. apply (required_slot_positive a Hs). now apply H.
  - intros E. unfold generateParsingInstructions, fieldOf.
    rewrite (@required_slot_mapping a "title") by (simpl; auto).
    rewrite E. reflexivity.
  - intros i H. unfold generateParsingInstructions, fieldOf in H.
    rewrite (@required_slot_mapping a "title") in H by (simpl; auto).
    rewrite (@required_slot_mapping a "link") in H by (simpl; auto).
    rewrite (@required_slot_mapping a "description") in H by (simpl; auto 6).
    rewrite (@required_slot_mapping a "date") in H by (simpl; auto 6).
    change (slotThreshold "title") with 90%Q in H.
    change (slotThreshold "link") with 90%Q in H.
    change (slotThreshold "description") with 70%Q in H.
    change (slotThreshold "date") with 70%Q in H.
    destruct (findBestField (slotCandidates "title") (fieldReliability a) 90) as [ft|];
      [|discriminate].
    destruct (findBestField (slotCandidates "link") (fieldReliability a) 90) as [fl|];
      [|discriminate].
    destruct (findBestField (slotCandidates "description") (fieldReliability a) 70) as [fd|];
      [|discriminate].
    destruct (findBestField (slotCandidates "date") (fieldReliability a) 70) as [fdt|];
      [|discriminate].
    inversion H; subst i. exists ft, fl, fd, fdt. cbn [Instructions.title Instructions.link
      Instructions.description Instructions.date]. unfold textInstruction.
    repeat split; reflexivity.
Qed.

(** The image instruction follows the source findImageMapping chose: it is
    null exactly when no image source qualified or the chosen source is
    itunes_image, for which the switch has no case. *)
Theorem image_instruction_null_iff :
  forall (a : Analysis) (i : Instructions.t),
    generateParsingInstructions (generateFieldMappings a) = inr i ->
    (Instructions.image i = None <->
     findImageMapping a = None \/
     exists c, findImageMapping a = Some c /\ ImageField.source c = "itunes_image").
Proof.
  intros a i H.
  assert (Ei : Instructions.image i = imageInstruction (generateFieldMappings a)).
  { unfold generateParsingInstructions in H.
    destruct (fieldOf _ "title"); [discriminate|].
    destruct (fieldOf _ "link"); [discriminate|].
    destruct (fieldOf _ "description"); [discriminate|].
    destruct (fieldOf _ "date"); [discriminate|].
    inversion H; reflexivity. }
  rewrite Ei. unfold imageInstruction. rewrite generateFieldMappings_get.
  cbn [String.eqb Ascii.eqb Bool.eqb andb].
  destruct (findImageMapping a) as [c|] eqn:Ec; [|split; auto].
  destruct (findImageMapping_some _ Ec) as (pre & src & ty & post & Eq & Hc & _).
  assert (Hin : In (src, ty) imageSources).
  { assert (Hq : In (src, ty) (qualifying a))
      by (rewrite Eq; apply in_or_app; right; now left).
    unfold qualifying in Hq. apply filter_In in Hq. exact (proj1 Hq). }
  subst c. cbn [candidate ImageField.type ImageField.source].
  unfold imageSources in Hin. simpl in Hin.
  destruct Hin as [E|[E|[E|[E|[E|[]]]]]]; inversion E; subst src ty; simpl; split.
  all: try discriminate.
  all: try (intros [H'|[c [H' Hs]]]; [discriminate | inversion H'; subst c; discriminate]).
  - intros _. right. eexists. split; reflexivity.
  - reflexivity.
Qed.

(** The instructions for an analysis whose only image source is
    itunes_image. *)
Lemma image_instruction_witness :
  exists i,
    generateParsingInstructions (generateFieldMappings podcastExample) = inr i /\
    Instructions.image i = None /\
    exists c, findImageMapping podcastExample = Some c /\
              ImageField.source c = "itunes_image".
Proof.
  destruct (generateParsingInstructions (generateFieldMappings podcastExample))
    as [e|i] eqn:E; [vm_compute in E; discriminate|].
  exists i. split; [reflexivity|].
  assert (R : exists c, findImageMapping podcastExample = Some c /\
                        ImageField.source c = "itunes_image")
    by (eexists; split; reflexivity).
  split; [|exact R].
  apply (proj2 (image_instruction_null_iff podcastExample E)). right. exact R.
Defined.

(** storeMappingConfig does not store the quality of the analysis: the
    stored score is 100 for every analysis, and it agrees with the score of
    validateDataQuality only when the validation has neither issues nor
    warnings; for an invalid analysis the stored score is at least 20 above
    the validated one. *)
Theorem stored_quality_score_is_constant :
  forall (host : Host) (stringify : Obj.t Mapping -> string)
         (id : string) (m : Obj.t Mapping) (a : Analysis),
    quality_score (data (storeMappingConfig stringify id m a)) = 100%Z /\
    (qualityScore (validateDataQuality a)
     = quality_score (data (storeMappingConfig stringify id m a)) <->
     issues (validateDataQuality a) = [] /\ warnings (validateDataQuality a) = []) /\
    (isValid (validateDataQuality a) = false ->
     (qualityScore (validateDataQuality a) + 20
      <= quality_score (data (storeMappingConfig stringify id m a)))%Z).
Proof.
  intros host stringify id m a.
  assert (S : quality_score (data (storeMappingConfig stringify id m a)) = 100%Z)
    by reflexivity.
  rewrite S. split; [reflexivity|].
  change (qualityScore (validateDataQuality a))
    with (calculateQualityScore (issues (validateDataQuality a))
                                (warnings (validateDataQuality a))).
  change (isValid (validateDataQuality a))
    with (Nat.eqb (List.length (issues (validateDataQuality a))) 0).
  unfold calculateQualityScore.
  generalize (issues (validateDataQuality a)) (warnings (validateDataQuality a)).
  intros li lw. split; [split|].
  - intros H.
    assert (Hi : List.length li = 0%nat) by lia.
    assert (Hw : List.length lw = 0%nat) by lia.
    destruct li, lw; try discriminate. split; reflexivity.
  - intros [-> ->]. reflexivity.
  - intros H. apply Nat.eqb_neq in H. lia.
Qed.

(** ** From the document to the report *)

Section Document.

Context {host : Host}.

Lemma analyzeFeedStructure_parts (xml : string) (sampleSize : JsNumber) (deepScan : bool) (a : Analysis) :
  analyzeFeedStructure xml sampleSize deepScan = inr a ->
  feedType a = detectFeedType (parseFromString xml) /\
  channelInfo a = extractChannelInfo (parseFromString xml) (detectFeedType (parseFromString xml)) /\
  namespaces a = extractNamespaces (parseFromString xml).
Proof.
  unfold analyzeFeedStructure.
  destruct (docQuerySelector (parseFromString xml) "parsererror"); [discriminate|].
  intros H. inversion H. repeat split.
Qed.

Lemma analysis_patterns (xml : string) (sampleSize : JsNumber) (a : Analysis) :
  analyzeFeedStructure xml sampleSize true = inr a ->
  (forall f, Obj.get f (fieldPatterns a) = observeAll (truthyValues f (items a)) None) /\
  NoDup (Obj.keys (fieldPatterns a)).
Proof.
  intros Ha.
  destruct (analyzeFeedStructure_tally _ _ _ Ha) as [_ [_ [Hit [_ [_ [Hp _]]]]]].
  destruct (patterns_invariant
              (sampled (samplesAnalyzed a)
                       (docQuerySelectorAll (parseFromString xml)
                                            (itemSelector (parseFromString xml)))))
    as [Hk Hn].
  rewrite <- Hit, <- Hp in Hk. rewrite <- Hp in Hn. split; assumption.
Qed.

Lemma analysis_markup (xml : string) (sampleSize : JsNumber) (a : Analysis) (f : string) :
  analyzeFeedStructure xml sampleSize true = inr a ->
  ((exists p, In (f, p) (fieldPatterns a) /\ hasHTML p = true) <->
   existsb htmlValue (truthyValues f (items a)) = true).
Proof.
  intros Ha. destruct (analysis_patterns _ _ Ha) as [Hk Hn].
  assert (S := observeAll_summarises (truthyValues f (items a))).
  rewrite <- Hk in S. split.
  - intros [p [Hin Hh]]. apply (In_get _ _ _ Hn) in Hin. rewrite Hin in S.
    destruct S as [S _]. congruence.
  - intros He. destruct (Obj.get f (fieldPatterns a)) as [p|] eqn:E.
    + exists p. split; [now apply get_In|]. destruct S as [S _]. congruence.
    + destruct S as [S _]. simpl in S. congruence.
Qed.

Lemma sampled_nonpositive (s : JsNumber) (l : list Node) :
  below 0 s = false -> sampled s l = [].
Proof.
  intros H. unfold sampled. destruct l; [reflexivity|].
  cbn [sampledFrom Z.of_nat]. now rewrite H.
Qed.

Lemma below_mathMin (x : JsNumber) (n : nat) :
  below 0 x = false -> below 0 (mathMin x (Z.of_nat n)) = false.
Proof.
  destruct x as [q| | |]; cbn [mathMin below]; try discriminate; auto.
  intros H. destruct (Qle_bool q (inject_Z (Z.of_nat n))) eqn:E; [exact H|].
  exfalso. unfold Qlessb in H. apply negb_false_iff in H. apply Qle_bool_iff in H.
  assert (G : (q <= inject_Z (Z.of_nat n))%Q).
  { assert (P : (0 <= Z.of_nat n)%Z) by lia.
    rewrite Zle_Qle in P. change (inject_Z 0) with 0%Q in *. lra. }
  apply Qle_bool_iff in G. congruence.
Qed.

Lemma prefix_drop (p s : string) :
  String.prefix p s = true -> s = p ++ Js.drop (String.length p) s.
Proof.
  revert s. induction p as [|c p IH]; intros s.
  - intros _. reflexivity.
  - destruct s as [|c' s]; simpl; [intros H; discriminate H|].
    destruct (ascii_dec c c') as [->|]; [|intros H; discriminate H].
    intros H. f_equal. now apply IH.
Qed.

Lemma replace_found (p s : string) :
  String.prefix p s = true -> Js.replace p "" s = Js.drop (String.length p) s.
Proof.
  intros H. destruct s; unfold Js.replace; rewrite H; reflexivity.
Qed.

Lemma replace_prefix (p s : string) :
  Js.startsWith p s = true -> s = p ++ Js.replace p "" s.
Proof.
  unfold Js.startsWith. intros H. rewrite (replace_found _ _ H). now apply prefix_drop.
Qed.

Lemma drop_append (p x : string) : Js.drop (String.length p) (p ++ x) = x.
Proof.
  induction p as [|c p IH]; simpl; [now destruct x | exact IH].
Qed.

Lemma replace_append (p x : string) : Js.replace p "" (p ++ x) = x.
Proof.
  rewrite (replace_found _ _ (prefix_append p x)). apply drop_append.
Qed.

Lemma has_set {V : Type} (k k' : string) (v : V) (o : Obj.t V) :
  Obj.has k (Obj.set k' v o) = String.eqb k k' || Obj.has k o.
Proof.
  unfold Obj.has. rewrite get_set. destruct (String.eqb k k'); reflexivity.
Qed.

Lemma namespaces_declared (attrs : list (string * string)) :
  declared attrs
    (fold_left (fun namespaces attr =>
                  if Js.startsWith "xmlns:" (fst attr)
                  then Obj.assign (Js.replace "xmlns:" "" (fst attr)) (snd attr) namespaces
                  else namespaces)
               attrs Obj.empty).
Proof.
  apply (@fold_left_preserves_in _ _ (declared attrs)).
  - intros o [name uri] Hin Ho. cbn [fst snd].
    destruct (Js.startsWith "xmlns:" name) eqn:P; [|exact Ho].
    unfold Obj.assign.
    destruct (String.eqb_spec (Js.replace "xmlns:" "" name) "__proto__") as [E|Hne];
      [exact Ho|].
    intros k Hk. rewrite has_set in Hk.
    destruct (String.eqb_spec k (Js.replace "xmlns:" "" name)) as [Ek|Hk'].
    + rewrite Ek. split; [exact Hne|]. exists uri. now rewrite <- (replace_prefix _ _ P).
    + now apply Ho.
  - intros k Hk. discriminate.
Qed.

Lemma namespaces_recorded (k uri : string) (attrs : list (string * string)) :
  k <> "__proto__" ->
  In ("xmlns:" ++ k, uri) attrs ->
  forall o,
    Obj.has k
      (fold_left (fun namespaces attr =>
                    if Js.startsWith "xmlns:" (fst attr)
                    then Obj.assign (Js.replace "xmlns:" "" (fst attr)) (snd attr) namespaces
                    else namespaces)
                 attrs o) = true.
Proof.
  intros Hk.
  assert (Keep : forall attrs o,
             Obj.has k o = true ->
             Obj.has k
               (fold_left (fun namespaces attr =>
                             if Js.startsWith "xmlns:" (fst attr)
                             then Obj.assign (Js.replace "xmlns:" "" (fst attr)) (snd attr)
                                             namespaces
                             else namespaces)
                          attrs o) = true).
  { intros l. induction l as [|[name v] l IH]; intros o Ho; [exact Ho|].
    simpl. apply IH. destruct (Js.startsWith "xmlns:" name); [|exact Ho].
    unfold Obj.assign. destruct (String.eqb _ "__proto__"); [exact Ho|].
    rewrite has_set, Ho. apply orb_true_r. }
  assert (Pk : Js.startsWith "xmlns:" ("xmlns:" ++ k) = true) by apply prefix_append.
  assert (Rk : Js.replace "xmlns:" "" ("xmlns:" ++ k) = k) by apply replace_append.
  remember ("xmlns:" ++ k) as nm eqn:Enm. clear Enm.
  induction attrs as [|[name v] attrs IH]; intros Hin o; [destruct Hin|].
  destruct Hin as [E|Hin].
  - inversion E; subst name v. simpl fold_left. apply Keep.
    cbn [fst snd]. rewrite Pk, Rk. unfold Obj.assign.
    destruct (String.eqb_spec k "__proto__"); [contradiction|].
    rewrite has_set, String.eqb_refl. reflexivity.
  - simpl fold_left. now apply IH.
Qed.

End Document.

(** Under deep scan, markup is reported exactly where it was seen: a field
    other than content and description gets the advice to strip tags exactly
    when one of its truthy values in the analyzed items is a string that
    contains a tag, and the validation warns about markup in titles exactly
    when that holds for the field title. *)
Theorem markup_reported_iff_seen :
  forall (host : Host) (xml : string) (sampleSize : JsNumber) (a : Analysis),
    analyzeFeedStructure xml sampleSize true = inr a ->
    (forall f,
        In (markupAdvice f) (recommendations (checkCompatibility a)) <->
        f <> "content" /\ f <> "description" /\
        existsb htmlValue (truthyValues f (items a)) = true) /\
    (In titleMarkupWarning (warnings (validateDataQuality a)) <->
     existsb htmlValue (truthyValues "title" (items a)) = true).
Proof.
  intros host xml sampleSize a Ha. split.
  - intros f. rewrite <- (@analysis_markup host xml sampleSize a f Ha).
    unfold checkCompatibility. cbn [recommendations]. rewrite in_app_iff. split.
    + intros [H|H].
      * apply in_flat_map in H. destruct H as [ns [_ H]].
        destruct (negb _); [|destruct H]. destruct H as [H|[]]. discriminate.
      * apply in_flat_map in H. destruct H as [[k p] [Hin H]].
        destruct (hasHTML p) eqn:Hh; [|destruct H].
        destruct (String.eqb_spec k "content"); [destruct H|].
        destruct (String.eqb_spec k "description"); [destruct H|].
        destruct H as [H|[]]. inversion H; subst k. eauto.
    + intros (Hc & Hd & p & Hin & Hh). right. apply in_flat_map.
      exists (f, p). split; [exact Hin|]. rewrite Hh.
      destruct (String.eqb_spec f "content"); [contradiction|].
      destruct (String.eqb_spec f "description"); [contradiction|].
      now left.
  - rewrite <- (@analysis_markup host xml sampleSize a "title" Ha).
    unfold validateDataQuality. cbn [warnings]. rewrite !in_app_iff. split.
    + intros [H|[H|[H|H]]].
      * unfold itemsFindings in H. destruct (itemCount a =? 0)%Z; [destruct H|].
        destruct (itemCount a <? 5)%Z; [|destruct H]. destruct H as [H|[]]. discriminate.
      * unfold dateFindings in H. destruct (negb _); [|destruct H].
        destruct H as [H|[]]. discriminate.
      * unfold htmlFindings in H. apply in_flat_map in H. destruct H as [[k p] [Hin H]].
        destruct (String.eqb_spec k "title") as [->|]; [|destruct H].
        destruct (hasHTML p) eqn:Hh; [|destruct H]. eauto.
      * unfold encodingFindings in H. destruct (negb _); [|destruct H].
        destruct H as [H|[]]. discriminate.
    + intros (p & Hin & Hh). right. right. left.
      unfold htmlFindings. apply in_flat_map. exists ("title", p).
      split; [exact Hin|]. rewrite Hh. now left.
Qed.

(** Markup in the title of the first demonstration entry. *)
Lemma markup_reported_witness :
  exists a,
    analyzeFeedStructure (host := Demo.host) "atom" 5 true = inr a /\
    In (markupAdvice "title") (recommendations (checkCompatibility a)) /\
    In titleMarkupWarning (warnings (validateDataQuality a)).
Proof.
  destruct (analyzeFeedStructure (host := Demo.host) "atom" 5 true) as [e|a] eqn:Ha;
    [vm_compute in Ha; discriminate|].
  exists a. split; [reflexivity|].
  destruct (markup_reported_iff_seen Demo.host "atom" 5 Ha) as [Hadv Hwarn].
  split.
  - apply Hadv. split; [discriminate|]. split; [discriminate|].
    vm_compute in Ha. inversion Ha; subst a. reflexivity.
  - apply Hwarn. vm_compute in Ha. inversion Ha; subst a. reflexivity.
Defined.

(** A namespace gets the custom-namespace advice exactly when the root
    element declares it with an attribute xmlns:prefix and the prefix is none
    of dc, content, media, atom (nor __proto__, which a plain object does not
    record); a default namespace, declared with xmlns alone, gets none. *)
Theorem namespace_advice_iff_declared :
  forall (host : Host) (xml : string) (sampleSize : JsNumber) (deepScan : bool) (a : Analysis),
    analyzeFeedStructure xml sampleSize deepScan = inr a ->
    forall ns,
      In (namespaceAdviceFor ns) (recommendations (checkCompatibility a)) <->
      ~ In ns supportedNamespaces /\ ns <> "__proto__" /\
      exists root uri,
        documentElement (parseFromString xml) = Some root /\
        In ("xmlns:" ++ ns, uri) (Dom.attributes root).
Proof.
  intros host xml sampleSize deepScan a Ha ns.
  destruct (analyzeFeedStructure_parts _ _ _ Ha) as [_ [_ Hns]].
  unfold checkCompatibility. cbn [recommendations]. rewrite Hns, in_app_iff.
  unfold extractNamespaces. split.
  - intros [H|H].
    + apply in_flat_map in H. destruct H as [k [Hk H]].
      destruct (strIn k ["dc"; "content"; "media"; "atom"]) eqn:Es; [destruct H|].
      destruct H as [H|[]]. inversion H; subst k.
      split; [intros Hin; apply strIn_In in Hin; unfold supportedNamespaces in Hin; congruence|].
      destruct (documentElement (parseFromString xml)) as [root|]; [|destruct Hk].
      apply has_keys in Hk.
      destruct (namespaces_declared (Dom.attributes root) _ Hk) as [Hp [uri Hu]].
      split; [exact Hp|]. exists root, uri. auto.
    + apply in_flat_map in H. destruct H as [[k p] [_ H]].
      destruct (hasHTML p && _ && _); [|destruct H]. destruct H as [H|[]]. discriminate.
  - intros (Hs & Hp & root & uri & Hr & Hu). left. rewrite Hr.
    apply in_flat_map. exists ns. split.
    + apply has_keys. now apply (@namespaces_recorded ns uri (Dom.attributes root) Hp Hu).
    + destruct (strIn ns ["dc"; "content"; "media"; "atom"]) eqn:Es.
      * apply strIn_In in Es. contradiction.
      * now left.
Qed.

(** The two namespaces the gallery document declares: itunes gets the
    advice, media does not. *)
Lemma namespace_advice_witness :
  exists a,
    analyzeFeedStructure (host := Gallery.host) "gallery" 5 true = inr a /\
    In (namespaceAdviceFor "itunes") (recommendations (checkCompatibility a)) /\
    existsb (fun r => match r with
                      | NamespaceAdvice ns _ => String.eqb ns "media"
                      | _ => false
                      end) (recommendations (checkCompatibility a)) = false.
Proof.
  destruct (analyzeFeedStructure (host := Gallery.host) "gallery" 5 true) as [e|a] eqn:Ha;
    [vm_compute in Ha; discriminate|].
  exists a. split; [reflexivity|]. split.
  - apply (namespace_advice_iff_declared Gallery.host "gallery" 5 true Ha "itunes").
    split; [unfold supportedNamespaces; simpl; intuition discriminate|].
    split; [discriminate|].
    eexists. eexists. split; [reflexivity|]. simpl. auto.
  - vm_compute in Ha. inversion Ha; subst a. reflexivity.
Defined.

(** The verdict for a document follows its root family: a document with an
    rss element is compatible exactly when the version attribute of that
    element is missing, empty, 2.0 or 1.0; without an rss element it is
    compatible exactly when it has a feed or an RDF element. *)
Theorem document_compatibility :
  forall (host : Host) (xml : string) (sampleSize : JsNumber) (deepScan : bool) (a : Analysis),
    analyzeFeedStructure xml sampleSize deepScan = inr a ->
    (forall rss,
        docQuerySelector (parseFromString xml) "rss" = Some rss ->
        feedType a = "rss" ++ Js.orStr (versionOf rss) "2.0" /\
        (isCompatible (checkCompatibility a) = true <->
         In (versionOf rss) [""; "2.0"; "1.0"])) /\
    (docQuerySelector (parseFromString xml) "rss" = None ->
     (isCompatible (checkCompatibility a) = true <->
      docQuerySelector (parseFromString xml) "feed" <> None \/
      docQuerySelector (parseFromString xml) "rdf\:RDF, RDF" <> None)).
Proof.
  intros host xml sampleSize deepScan a Ha.
  destruct (analyzeFeedStructure_parts _ _ _ Ha) as [Hty _].
  change (isCompatible (checkCompatibility a))
    with (strIn (feedType a) ["rss2.0"; "atom"; "rss1.0"]).
  rewrite Hty. unfold detectFeedType. split.
  - intros rss Hrss. rewrite Hrss. fold (versionOf rss). split; [reflexivity|].
    rewrite strIn_In. unfold Js.orStr, Js.truthyStr.
    destruct (String.eqb_spec (versionOf rss) "") as [->|Hne]; cbn [negb].
    + split; intros _; simpl; auto.
    + simpl. split.
      * intros [H|[H|[H|[]]]]; inversion H; auto.
      * intros [H|[H|[H|[]]]]; try (symmetry in H; contradiction);
          rewrite <- H; auto.
  - intros Hrss. rewrite Hrss.
    destruct (docQuerySelector (parseFromString xml) "feed").
    + split; [intros _; left; discriminate | reflexivity].
    + destruct (docQuerySelector (parseFromString xml) "rdf\:RDF, RDF").
      * split; [intros _; right; discriminate | reflexivity].
      * split; [discriminate | intros [H|H]; congruence].
Qed.

(** The verdict for the empty RSS 2.0 document of the demonstration host. *)
Lemma document_compatibility_witness :
  exists a rss,
    analyzeFeedStructure (host := Demo.host) "empty" 5 true = inr a /\
    docQuerySelector (host := Demo.host) Demo.emptyDoc "rss" = Some rss /\
    feedType a = "rss2.0" /\ isCompatible (checkCompatibility a) = true.
Proof.
  destruct (analyzeFeedStructure (host := Demo.host) "empty" 5 true) as [e|a] eqn:Ha;
    [vm_compute in Ha; discriminate|].
  destruct (docQuerySelector (host := Demo.host) Demo.emptyDoc "rss") as [rss|] eqn:Hr;
    [|vm_compute in Hr; discriminate].
  exists a, rss. split; [reflexivity|]. split; [reflexivity|].
  destruct (proj1 (document_compatibility Demo.host "empty" 5 true Ha) rss Hr) as [Hty Hc].
  assert (Ev : versionOf rss = "2.0") by (vm_compute in Hr; inversion Hr; reflexivity).
  rewrite Ev in Hty, Hc. split; [exact Hty|].
  apply Hc. simpl. auto.
Defined.

(** The channel information has a fixed shape: for an Atom analysis it
    always has the five keys title, subtitle, updated, id, link, and for any
    other analysis the six keys title, description, link, language,
    lastBuildDate, pubDate when the document has a channel element and no
    key at all when it has none; a key whose element is missing is present
    with an undefined value. *)
Theorem channel_info_shape :
  forall (host : Host) (xml : string) (sampleSize : JsNumber) (deepScan : bool) (a : Analysis),
    analyzeFeedStructure xml sampleSize deepScan = inr a ->
    (feedType a = "atom" -> Obj.keys (channelInfo a) = atomChannelKeys) /\
    (feedType a <> "atom" ->
     Obj.keys (channelInfo a) =
     match docQuerySelector (parseFromString xml) "channel" with
     | Some _ => rssChannelKeys
     | None => []
     end).
Proof.
  intros host xml sampleSize deepScan a Ha.
  destruct (analyzeFeedStructure_parts _ _ _ Ha) as [Hty [Hch _]].
  rewrite Hch, Hty. unfold extractChannelInfo. split.
  - intros E. rewrite E. cbn [String.eqb Ascii.eqb Bool.eqb andb].
    unfold detectFeedType in E.
    destruct (docQuerySelector (parseFromString xml) "rss"); [discriminate|].
    destruct (docQuerySelector (parseFromString xml) "feed"); [reflexivity|].
    destruct (docQuerySelector (parseFromString xml) "rdf\:RDF, RDF"); discriminate.
  - intros Hne.
    destruct (String.eqb_spec (detectFeedType (parseFromString xml)) "atom");
      [contradiction|].
    destruct (docQuerySelector (parseFromString xml) "channel"); reflexivity.
Qed.

(** The channel information of the Atom document of the demonstration host. *)
Lemma channel_info_witness :
  exists a,
    analyzeFeedStructure (host := Demo.host) "atom" 5 true = inr a /\
    Obj.keys (channelInfo a) = atomChannelKeys /\
    Obj.get "subtitle" (channelInfo a) = Some None.
Proof.
  destruct (analyzeFeedStructure (host := Demo.host) "atom" 5 true) as [e|a] eqn:Ha;
    [vm_compute in Ha; discriminate|].
  exists a. split; [reflexivity|]. split.
  - apply (proj1 (channel_info_shape Demo.host "atom" 5 true Ha)).
    vm_compute in Ha. inversion Ha; subst a. reflexivity.
  - vm_compute in Ha. inversion Ha; subst a. reflexivity.
Defined.

(** When nothing is sampled, because the sample size is not above zero or the
    feed has no items, nothing is learnt: the analysis has no fields,
    reliabilities, samples or patterns, every recommended mapping is null,
    the validation fails, and generateParsingInstructions throws on the
    title slot. *)
Theorem nothing_sampled_nothing_mapped :
  forall (host : Host) (xml : string) (sampleSize : JsNumber) (deepScan : bool) (a : Analysis),
    analyzeFeedStructure xml sampleSize deepScan = inr a ->
    below 0 sampleSize = false \/ itemCount a = 0%Z ->
    items a = [] /\ uniqueFields a = [] /\ fieldReliability a = Obj.empty /\
    fieldSamples a = Obj.empty /\ fieldPatterns a = Obj.empty /\
    (forall slot, In slot slotNames ->
                  Obj.get slot (generateFieldMappings a) = Some MappingNull) /\
    isValid (validateDataQuality a) = false /\
    generateParsingInstructions (generateFieldMappings a) = inl "title".
Proof.
  intros host xml sampleSize deepScan a Ha Hz.
  assert (P : items a = [] /\ uniqueFields a = [] /\ fieldReliability a = Obj.empty /\
              fieldSamples a = Obj.empty /\ fieldPatterns a = Obj.empty).
  { unfold analyzeFeedStructure in Ha.
    destruct (docQuerySelector (parseFromString xml) "parsererror"); [discriminate|].
    set (nodes := docQuerySelectorAll (parseFromString xml)
                    (if String.eqb (detectFeedType (parseFromString xml)) "atom"
                     then "entry" else "item")) in *.
    assert (Es : sampled (mathMin sampleSize (Z.of_nat (List.length nodes))) nodes = []).
    { destruct Hz as [Hz|Hz].
      - apply sampled_nonpositive. now apply below_mathMin.
      - inversion Ha as [Ea]. rewrite <- Ea in Hz. cbn [itemCount] in Hz.
        destruct nodes; [apply sampled_nil | simpl in Hz; lia]. }
    rewrite Es in Ha. inversion Ha. repeat split. }
  destruct P as (Pi & Pu & Pr & Ps & Pp).
  repeat (split; [assumption|]).
  split; [|split].
  - intros slot Hs. rewrite generateFieldMappings_get.
    unfold findImageMapping, imageCandidates. rewrite Pr.
    unfold slotNames in Hs. simpl in Hs.
    destruct Hs as [<-|[<-|[<-|[<-|[<-|[<-|[<-|[<-|[]]]]]]]]]; reflexivity.
  - unfold validateDataQuality. cbn [isValid]. rewrite Pr.
    apply Nat.eqb_neq. rewrite length_app. simpl. lia.
  - unfold generateParsingInstructions, fieldOf.
    rewrite (@required_slot_mapping a "title") by (simpl; auto).
    rewrite Pr. reflexivity.
Qed.

(** A sample size of zero on the Atom document of the demonstration host. *)
Lemma nothing_sampled_witness :
  exists a,
    analyzeFeedStructure (host := Demo.host) "atom" 0 true = inr a /\
    itemCount a = 2%Z /\ uniqueFields a = [] /\
    isValid (validateDataQuality a) = false.
Proof.
  destruct (analyzeFeedStructure (host := Demo.host) "atom" 0 true) as [e|a] eqn:Ha;
    [vm_compute in Ha; discriminate|].
  exists a. split; [reflexivity|].
  destruct (@nothing_sampled_nothing_mapped Demo.host "atom" (Finite 0) true a Ha
              (or_introl eq_refl))
    as (_ & Hu & _ & _ & _ & _ & Hv & _).
  split; [vm_compute in Ha; inversion Ha; subst a; reflexivity|].
  split; [exact Hu | exact Hv].
Defined.
